(** * snap_downloader: a shallow embedding of [main.py]

    The development follows the source file top to bottom: Python string
    primitives, [pathlib] names, the location parser, the DMS conversion,
    the world the script acts on (file system and standard output), the
    compositors, the archive step, the per-entry orchestration and the
    reconciliation sweep.  Theorems come after the definitions. *)

From Stdlib Require Import ZArith QArith Qround Qabs Lia Lqa Bool Ascii String List.
From stdpp Require Import base option gmap strings list fin_maps.

Open Scope string_scope.

(** ** Python [str] primitives

    A Python [str] is modelled by [string]; a character is read as the
    code point of the same number, so the model covers the strings of
    code points below 256. *)

Module Str.

(** Code point of a character. *)
Definition ord (c : ascii) : N := N_of_ascii c.

(** [c.lower()] on one character: [A]-[Z] and the capital letters
    U+00C0-U+00DE (U+00D7 is the multiplication sign) move up by 32. *)
Definition lower_char (c : ascii) : ascii :=
  let n := ord c in
  if ((65 <=? n) && (n <=? 90))%N then ascii_of_N (n + 32)
  else if ((192 <=? n) && (n <=? 222) && negb (n =? 215))%N then ascii_of_N (n + 32)
  else c.

(** [s.lower()] *)
Fixpoint lower (s : string) : string :=
  match s with
  | EmptyString => EmptyString
  | String c s' => String (lower_char c) (lower s')
  end.

(** [s.startswith(p)] *)
Definition startswith (s p : string) : bool := String.prefix p s.

(** [s[n:]] *)
Fixpoint drop (n : nat) (s : string) : string :=
  match n, s with
  | O, _ => s
  | S _, EmptyString => EmptyString
  | S k, String _ s' => drop k s'
  end.

(** [s[:n]] *)
Fixpoint take (n : nat) (s : string) : string :=
  match n, s with
  | O, _ => EmptyString
  | S _, EmptyString => EmptyString
  | S k, String c s' => String c (take k s')
  end.

(** [s.endswith(p)] *)
Definition endswith (s p : string) : bool :=
  (String.length p <=? String.length s)%nat &&
  String.eqb (drop (String.length s - String.length p) s) p.

(** [sub in s] *)
Fixpoint contains (sub s : string) : bool :=
  String.prefix sub s ||
  match s with
  | EmptyString => false
  | String _ s' => contains sub s'
  end.

(** [s.replace(old, new)] for a non-empty [old]: occurrences are taken
    left to right and do not overlap.  [skip] counts the characters of
    the occurrence just replaced that are still to be passed over. *)
Fixpoint replace_go (old new : string) (skip : nat) (s : string) : string :=
  match s with
  | EmptyString => EmptyString
  | String c s' =>
      match skip with
      | S k => replace_go old new k s'
      | O =>
          if String.prefix old s
          then new ++ replace_go old new (String.length old - 1) s'
          else String c (replace_go old new 0 s')
      end
  end.

(** With an empty [old] Python puts [new] before every character and at
    the end. *)
Fixpoint intersperse (new s : string) : string :=
  match s with
  | EmptyString => new
  | String c s' => new ++ String c (intersperse new s')
  end.

Definition replace (s old new : string) : string :=
  match old with
  | EmptyString => intersperse new s
  | _ => replace_go old new 0 s
  end.

(** [s.rfind(c)] for a single character, [None] for -1. *)
Fixpoint rfind_char (c : ascii) (s : string) : option nat :=
  match s with
  | EmptyString => None
  | String a s' =>
      match rfind_char c s' with
      | Some i => Some (S i)
      | None => if Ascii.eqb a c then Some O else None
      end
  end.

(** Truth value of a string: empty is false. *)
Definition truthy (s : string) : bool :=
  match s with EmptyString => false | _ => true end.

End Str.

(** ** [pathlib] on POSIX-style path strings

    A path string is kept as the script holds it (the result of [str] on
    a [Path]).  The separator is the slash. *)

Module PathLib.

Definition sep : ascii := "/"%char.

(** [Path(p).name]: the part after the last separator. *)
Definition name (p : string) : string :=
  match Str.rfind_char sep p with
  | Some i => Str.drop (S i) p
  | None => p
  end.

(** The part before the last separator, and whether there is one. *)
Definition parent (p : string) : option string :=
  match Str.rfind_char sep p with
  | Some i => Some (Str.take i p)
  | None => None
  end.

(** [Path(p).suffix]: from the last dot of the name, if that dot is
    neither its first nor its last character. *)
Definition suffix (p : string) : string :=
  let n := name p in
  match Str.rfind_char "."%char n with
  | Some i =>
      if ((0 <? i) && (i <? String.length n - 1))%nat then Str.drop i n
      else EmptyString
  | None => EmptyString
  end.

(** [Path(p).stem] *)
Definition stem (p : string) : string :=
  let n := name p in
  match Str.rfind_char "."%char n with
  | Some i =>
      if ((0 <? i) && (i <? String.length n - 1))%nat then Str.take i n
      else n
  | None => n
  end.

(** [str(Path(d) / n)] for a directory string [d] in normal form. *)
Definition join (d n : string) : string := d ++ "/" ++ n.

(** The path beside [p] whose name is [n]. *)
Definition sibling (p n : string) : string :=
  match parent p with
  | Some d => join d n
  | None => n
  end.

(** A name that [with_name] takes: not empty, not ".", without a
    separator. *)
Definition valid_name (n : string) : bool :=
  Str.truthy n && negb (String.eqb n ".")
  && match Str.rfind_char sep n with Some _ => false | None => true end.

(** [str(Path(p).with_name(n))]; [None] stands for the [ValueError] that
    [with_name] raises when [p] has an empty name (the paths "." and "/"
    have one) or when [n] is not a valid name. *)
Definition with_name (p n : string) : option string :=
  if Str.truthy (name p) && negb (String.eqb p ".") && valid_name n
  then Some (sibling p n)
  else None.

End PathLib.

(** ** Filename normalisation (lines 349-351 and 371-374) *)

(** [timestamp.replace(":", "-").replace(" UTC", "").replace(" ", "_")] *)
Definition nicetime (timestamp : string) : string :=
  Str.replace (Str.replace (Str.replace timestamp ":" "-") " UTC" EmptyString) " " "_".

(** [f"{nicetime}_{p.name}"] then [p.with_name(new_name)] *)
Definition new_name (nice output_path : string) : string :=
  nice ++ "_" ++ PathLib.name output_path.

Definition new_path (nice output_path : string) : option string :=
  PathLib.with_name output_path (new_name nice output_path).

(** ** Overlay repair path (line 220) *)
Definition fixed_overlay_path (overlay_path : string) : string :=
  Str.replace overlay_path ".png" "_fixed.png".

(** ** Python [float]: IEEE 754 binary64, round to nearest, ties to even

    A finite float is the rational it denotes, with [Fin 0] for positive
    zero and [NegZero] for negative zero.  An operation on floats is the
    exact operation followed by [rnd].  Negative zero and the infinities
    arise only from [float()] on a literal. *)

Module Float.
Local Open Scope Q_scope.

Definition two_pow (k : Z) : Q :=
  if (0 <=? k)%Z then inject_Z (2 ^ k) else / inject_Z (2 ^ (- k)).

(** Nearest integer, ties to the even one (also Python's [round] on a
    float). *)
Definition round_half_even (q : Q) : Z :=
  let f := Qfloor q in
  match Qcompare (q - inject_Z f) (1 # 2) with
  | Lt => f
  | Gt => (f + 1)%Z
  | Eq => if Z.even f then f else (f + 1)%Z
  end.

(** Rounding of a non-negative rational to 53 significant bits, with the
    least exponent [-1074] (subnormals) and no bound above. *)
Definition rnd_nonneg (x : Q) : Q :=
  let X := x * inject_Z (2 ^ 1074) in
  let n := Qfloor X in
  if (n <? 2 ^ 53)%Z
  then Qred (inject_Z (round_half_even X) / inject_Z (2 ^ 1074))
  else
    let t := (Z.log2 n - 52)%Z in
    Qred (inject_Z (round_half_even (X / inject_Z (2 ^ t)) * 2 ^ t) / inject_Z (2 ^ 1074)).

Definition rnd (x : Q) : Q :=
  if Qle_bool 0 x then rnd_nonneg x else - rnd_nonneg (- x).

(** A rational is a float when rounding leaves it alone. *)
Definition is_double (x : Q) : bool := Qeq_bool (rnd x) x.

Inductive pyfloat :=
| Fin (q : Q)
| NegZero
| Inf (negative : bool).

(** Rounding with overflow to an infinity. *)
Definition of_Q (x : Q) : pyfloat :=
  let r := rnd x in
  if Qle_bool (inject_Z (2 ^ 1024)) (Qabs r) then Inf (negb (Qle_bool 0 x)) else Fin r.

(** The float of a literal with the value [x]; [negative] says whether
    the literal has a minus sign, which a result of zero keeps. *)
Definition of_literal (negative : bool) (x : Q) : pyfloat :=
  match of_Q x with
  | Fin r => if negative && Qeq_bool r 0 then NegZero else Fin r
  | v => v
  end.

(** [a >= 0] *)
Definition ge0 (a : pyfloat) : bool :=
  match a with
  | Fin q => Qle_bool 0 q
  | NegZero => true
  | Inf neg => negb neg
  end.

End Float.

(** ** DMS conversion (lines 55-60) *)

Local Open Scope Q_scope.

Inductive exn :=
| AttributeError | TypeError | ValueError | OverflowError | KeyError
| FileNotFoundError | OSError | BadZipFile | CalledProcessError | NameError
| UnidentifiedImageError | DownloadError.

(** [int(x)] on a non-negative finite float. *)
Definition int_of_float (x : Q) : Z := Qfloor x.

Definition dms : Type := (Z * Z) * (Z * Z) * (Z * Z).

(** The body of [deg_to_dms_rational] on a finite float. *)
Definition deg_to_dms_fin (deg_float : Q) : dms :=
  let a := Qabs deg_float in
  let deg := int_of_float a in
  let minutes_f := Float.rnd (Float.rnd (a - inject_Z deg) * 60) in
  let minutes := int_of_float minutes_f in
  let seconds :=
    Float.round_half_even
      (Float.rnd (Float.rnd (Float.rnd (minutes_f - inject_Z minutes) * 60) * 100)) in
  ((deg, 1%Z), (minutes, 1%Z), (seconds, 100%Z)).

(** [int(abs(inf))] raises [OverflowError]. *)
Definition deg_to_dms_rational (deg_float : Float.pyfloat) : exn + dms :=
  match deg_float with
  | Float.Fin q => inr (deg_to_dms_fin q)
  | Float.NegZero => inr (deg_to_dms_fin 0)
  | Float.Inf _ => inl OverflowError
  end.

(** The same computation in exact arithmetic, without [rnd]. *)
Definition deg_to_dms_exact (d : Q) : dms :=
  let a := Qabs d in
  let deg := Qfloor a in
  let minutes_f := (a - inject_Z deg) * 60 in
  let minutes := Qfloor minutes_f in
  let seconds := Float.round_half_even ((minutes_f - inject_Z minutes) * 60 * 100) in
  ((deg, 1%Z), (minutes, 1%Z), (seconds, 100%Z)).

(** Value in degrees that a DMS triple denotes. *)
Definition dms_value (t : dms) : Q :=
  let '((deg, dd), (mi, md), (se, sd)) := t in
  inject_Z deg / inject_Z dd + (inject_Z mi / inject_Z md) / 60
  + (inject_Z se / inject_Z sd) / 3600.

Definition dms_error (d : Q) (t : dms) : Q := Qabs (dms_value t - Qabs d).

Local Close Scope Q_scope.

(** ** Regular expressions: the fragment of [re] that the script uses

    A backtracking matcher in continuation-passing style, with Python's
    order of alternatives: a greedy quantifier first takes a character and
    gives it back when the rest of the pattern fails. *)

Module Re.

Inductive cls :=
| Digit            (* \d *)
| Space            (* \s *)
| Lit (c : ascii). (* a literal character *)

(** Code points below 256: the decimal digits are 0-9; white space is
    U+0009-U+000D, U+001C-U+0020, U+0085 and U+00A0. *)
Definition cls_match (k : cls) (c : ascii) : bool :=
  let n := Str.ord c in
  match k with
  | Digit => ((48 <=? n) && (n <=? 57))%N
  | Space => (((9 <=? n) && (n <=? 13)) || ((28 <=? n) && (n <=? 32))
              || (n =? 133) || (n =? 160))%N
  | Lit a => Ascii.eqb c a
  end.

Inductive re :=
| One (k : cls)        (* k *)
| Opt (k : cls)        (* k? *)
| Star (k : cls)       (* k* *)
| Plus (k : cls)       (* k+ *)
| Seq (r1 r2 : re)     (* r1 r2 *)
| Group (r : re).      (* ( r ) *)

Section Matcher.
Context {R : Type}.

(** [k*] followed by the continuation [cont]. *)
Fixpoint star (k : cls) (s : string) (cont : string -> option R) : option R :=
  match s with
  | EmptyString => cont s
  | String c s' =>
      if cls_match k c
      then match star k s' cont with
           | Some r => Some r
           | None => cont s
           end
      else cont s
  end.

(** [caps] holds the text of the groups closed so far, in order. *)
Fixpoint go (r : re) (s : string) (caps : list string)
    (cont : string -> list string -> option R) : option R :=
  match r with
  | One k =>
      match s with
      | String c s' => if cls_match k c then cont s' caps else None
      | EmptyString => None
      end
  | Opt k =>
      match s with
      | String c s' =>
          if cls_match k c
          then match cont s' caps with
               | Some r => Some r
               | None => cont s caps
               end
          else cont s caps
      | EmptyString => cont s caps
      end
  | Star k => star k s (fun s' => cont s' caps)
  | Plus k =>
      match s with
      | String c s' => if cls_match k c then star k s' (fun s'' => cont s'' caps) else None
      | EmptyString => None
      end
  | Seq r1 r2 => go r1 s caps (fun s' caps' => go r2 s' caps' cont)
  | Group r1 =>
      go r1 s caps
        (fun s' caps' =>
           cont s' (caps' ++ [Str.take (String.length s - String.length s') s])%list)
  end.

End Matcher.

(** [re.match]: the groups of a match that starts at the first character. *)
Definition match_here (r : re) (s : string) : option (list string) :=
  go r s [] (fun _ caps => Some caps).

(** [re.search]: the match at the leftmost position that has one. *)
Fixpoint search (r : re) (s : string) : option (list string) :=
  match match_here r s with
  | Some caps => Some caps
  | None =>
      match s with
      | EmptyString => None
      | String _ s' => search r s'
      end
  end.

End Re.

(** [-?\d+\.\d+] *)
Definition float_re : Re.re :=
  Re.Seq (Re.Opt (Re.Lit "-"))
    (Re.Seq (Re.Plus Re.Digit) (Re.Seq (Re.One (Re.Lit ".")) (Re.Plus Re.Digit))).

(** [(-?\d+\.\d+),\s*(-?\d+\.\d+)] *)
Definition latlon_re : Re.re :=
  Re.Seq (Re.Group float_re)
    (Re.Seq (Re.One (Re.Lit ","))
       (Re.Seq (Re.Star Re.Space) (Re.Group float_re))).

(** ** [float()] on a decimal literal *)

Fixpoint digits_value (acc : Z) (s : string) : Z :=
  match s with
  | EmptyString => acc
  | String c s' => digits_value (10 * acc + (Z.of_N (Str.ord c) - 48)) s'
  end.

Fixpoint split_dot (s : string) : string * string :=
  match s with
  | EmptyString => (EmptyString, EmptyString)
  | String c s' =>
      if Ascii.eqb c "."
      then (EmptyString, s')
      else let '(a, b) := split_dot s' in (String c a, b)
  end.

(** The rational that a text of the form [-?\d+\.\d+] denotes. *)
Definition decimal_value (s : string) : Q :=
  let '(neg, body) :=
    match s with
    | String "-" s' => (true, s')
    | _ => (false, s)
    end in
  let '(ip, fp) := split_dot body in
  let num := digits_value (digits_value 0 ip) fp in
  let q := Qmake num (Z.to_pos (10 ^ Z.of_nat (String.length fp))) in
  if neg then Qopp q else q.

(** [float(s)]: the float nearest to the literal. *)
Definition py_float (s : string) : Float.pyfloat :=
  Float.of_literal (match s with String "-" _ => true | _ => false end) (decimal_value s).

(** ** JSON values as [json.load] returns them *)

#[local] Unset Elimination Schemes.
Inductive json :=
| JNull
| JBool (b : bool)
| JNum (q : Q)
| JStr (s : string)
| JList (l : list json)
| JDict (d : list (string * json)).
#[local] Set Elimination Schemes.

(** Python truth value. *)
Definition truthy (v : json) : bool :=
  match v with
  | JNull => false
  | JBool b => b
  | JNum q => negb (Qeq_bool q 0)
  | JStr s => Str.truthy s
  | JList l => match l with [] => false | _ => true end
  | JDict d => match d with [] => false | _ => true end
  end.

(** [a or b] *)
Definition py_or (a b : json) : json := if truthy a then a else b.

(** A loaded object has each key once; [d.get(k, default)]. *)
Fixpoint dict_get (d : list (string * json)) (k : string) (default : json) : json :=
  match d with
  | [] => default
  | (k', v) :: d' => if String.eqb k' k then v else dict_get d' k default
  end.

(** ** Location parsing (lines 46-53) *)

Definition latlon : Type := option Float.pyfloat * option Float.pyfloat.

(** [re.search] on a value that is not a string raises [TypeError]. *)
Definition parse_latlon (location_str : json) : exn + latlon :=
  if negb (truthy location_str) then inr (None, None)
  else
    match location_str with
    | JStr s =>
        match Re.search latlon_re s with
        | Some [g1; g2] => inr (Some (py_float g1), Some (py_float g2))
        | _ => inr (None, None)
        end
    | _ => inl TypeError
    end.

(** The groups that [parse_latlon] hands to [float()]. *)
Definition latlon_groups (s : string) : option (string * string) :=
  match Re.search latlon_re s with
  | Some [g1; g2] => Some (g1, g2)
  | _ => None
  end.

(** ** The world the script acts on

    A file system (path to node) and the lines printed so far.  A Python
    call is a function from the world to an outcome and the world it
    leaves: effects made before an exception stay. *)

Definition content : Type := string.

Inductive node :=
| File (c : content)
| Dir.

Record world := World {
  fs : gmap string node;
  stdout : list string
}.

Inductive outcome (A : Type) :=
| Ret (a : A)       (* normal return *)
| Exc (e : exn)     (* an exception travels up *)
| Timeout.          (* the loop budget of the model ran out *)
Arguments Ret {A} a.
Arguments Exc {A} e.
Arguments Timeout {A}.

Definition M (A : Type) : Type := world -> outcome A * world.

Definition ret {A} (a : A) : M A := fun w => (Ret a, w).
Definition raise {A} (e : exn) : M A := fun w => (Exc e, w).
Definition timeout {A} : M A := fun w => (Timeout, w).

Definition bind {A B} (m : M A) (k : A -> M B) : M B :=
  fun w =>
    match m w with
    | (Ret a, w') => k a w'
    | (Exc e, w') => (Exc e, w')
    | (Timeout, w') => (Timeout, w')
    end.

(** [try: m  except Exception as e: h e] *)
Definition try_catch {A} (m : M A) (h : exn -> M A) : M A :=
  fun w =>
    match m w with
    | (Exc e, w') => h e w'
    | r => r
    end.

#[global] Instance M_ret : MRet M := @ret.
#[global] Instance M_bind : MBind M := fun A B k m => bind m k.

Definition lift {A} (r : exn + A) : M A :=
  match r with
  | inl e => raise e
  | inr a => ret a
  end.

(** A value, or the exception [e] where there is none. *)
Definition lift_option {A} (e : exn) (r : option A) : M A :=
  match r with
  | Some a => ret a
  | None => raise e
  end.

Definition get_fs : M (gmap string node) := fun w => (Ret (fs w), w).
Definition set_fs (f : gmap string node) : M unit :=
  fun w => (Ret tt, World f (stdout w)).

(** [print(...)]: the line is the text of the arguments, joined by spaces. *)
Definition print (line : string) : M unit :=
  fun w => (Ret tt, World (fs w) (stdout w ++ [line])%list).

Definition exn_text (e : exn) : string :=
  match e with
  | AttributeError => "AttributeError" | TypeError => "TypeError"
  | ValueError => "ValueError" | OverflowError => "OverflowError"
  | KeyError => "KeyError" | FileNotFoundError => "FileNotFoundError"
  | OSError => "OSError" | BadZipFile => "BadZipFile"
  | CalledProcessError => "CalledProcessError" | NameError => "NameError"
  | UnidentifiedImageError => "UnidentifiedImageError"
  | DownloadError => "DownloadError"
  end.

(** *** File-system calls *)

(** [p] lies below the directory [d]. *)
Definition under (d p : string) : bool := String.prefix (d ++ "/") p.

(** [os.path.exists(p)] *)
Definition path_exists (p : string) : M bool :=
  f ← get_fs; ret (bool_decide (is_Some (f !! p))).

(** Reading a file: [open], [Image.open], [zipfile.ZipFile]. *)
Definition read_file (p : string) : M content :=
  f ← get_fs;
  match f !! p with
  | Some (File c) => ret c
  | Some Dir => raise OSError
  | None => raise FileNotFoundError
  end.

(** Writing a file, truncating what was there.  The directory of [p] is
    not looked at: the script writes below directories it has made or
    listed. *)
Definition write_file (p : string) (c : content) : M unit :=
  f ← get_fs;
  match f !! p with
  | Some Dir => raise OSError
  | _ => set_fs (<[p := File c]> f)
  end.

(** [os.remove(p)] *)
Definition os_remove (p : string) : M unit :=
  f ← get_fs;
  match f !! p with
  | Some (File _) => set_fs (delete p f)
  | Some Dir => raise OSError
  | None => raise FileNotFoundError
  end.

(** [os.rename(src, dst)] and [os.replace(src, dst)] on files: the
    destination is replaced. *)
Definition os_rename (src dst : string) : M unit :=
  f ← get_fs;
  match f !! src with
  | Some (File c) =>
      match f !! dst with
      | Some Dir => raise OSError
      | _ => set_fs (<[dst := File c]> (delete src f))
      end
  | Some Dir => raise OSError
  | None => raise FileNotFoundError
  end.

(** [shutil.rmtree(d)]: the directory and all that lies below it. *)
Definition rmtree (d : string) : M unit :=
  f ← get_fs;
  match f !! d with
  | Some Dir => set_fs (filter (fun kv => negb (under d kv.1) = true) (delete d f))
  | Some (File _) => raise OSError
  | None => raise FileNotFoundError
  end.

(** [os.makedirs(d, exist_ok=True)] *)
Definition makedirs (d : string) : M unit :=
  f ← get_fs;
  match f !! d with
  | Some (File _) => raise OSError
  | _ => set_fs (<[d := Dir]> f)
  end.

(** [Path(d).iterdir()]: the paths whose parent is [d], in the order in
    which the map lists them. *)
Definition iterdir (d : string) : M (list string) :=
  f ← get_fs;
  match f !! d with
  | Some Dir =>
      ret (List.filter (fun p => bool_decide (PathLib.parent p = Some d))
             (map fst (map_to_list f)))
  | Some (File _) => raise OSError
  | None => raise FileNotFoundError
  end.

(** [Path(p).is_dir()] *)
Definition is_dir (p : string) : M bool :=
  f ← get_fs;
  ret (match f !! p with Some Dir => true | _ => false end).

(** *** External programs and libraries

    What ffmpeg, Pillow, piexif, zipfile, wget, json and the format table
    of [strptime] compute is not in the repository: it is a parameter of
    the model. *)

Record datetime := Datetime {
  year : Z; month : Z; day : Z; hour : Z; minute : Z; second : Z
}.

Inductive run_result :=
| Exit0 (written : content)               (* exit status 0, output written *)
| ExitFail (partial : option content).    (* non-zero status *)

(** [wget.download] fetches into a temporary file of the working
    directory and moves it to its place at the end. *)
Inductive download_result :=
| Saved (path : string) (c : content)          (* the file is in place *)
| Broken (left : option (string * content)).   (* an exception; the temporary
                                                  file may be left behind *)

Record exif := Exif {
  gps_lat_ref : string; gps_lat : dms;
  gps_lon_ref : string; gps_lon : dms;
  exif_datetime : option string
}.

Record backend := Backend {
  (* a run of the ffmpeg binary; the last argument names the output *)
  ffmpeg : list string -> gmap string node -> run_result;
  (* Image.open(..).convert("RGBA") followed by save as PNG *)
  pil_rgba_png : content -> option content;
  (* decode both, resize, alpha_composite, save as JPEG *)
  pil_composite : content -> content -> option content;
  (* piexif.dump and piexif.insert *)
  piexif_insert : exif -> content -> option content;
  (* the members of an archive, None for a file that is not one *)
  unzip : content -> option (list (string * content));
  is_zipfile : content -> bool;
  (* wget.download(url, out) *)
  wget : string -> string -> gmap string node -> download_result;
  (* json.load *)
  json_loads : content -> option json;
  (* the fields strptime reads with "%Y-%m-%d %H:%M:%S %Z" *)
  strptime_fields : string -> option datetime
}.

Definition ffmpeg_path : string := "bin/ffmpeg.exe".

(** *** Text formatting *)

Definition digit_char (n : Z) : ascii := ascii_of_N (48 + Z.to_N (n mod 10)).

(** [n] written with exactly [w] decimal digits. *)
Fixpoint digits (w : nat) (n : Z) : string :=
  match w with
  | O => EmptyString
  | S k => digits k (n / 10) ++ String (digit_char n) EmptyString
  end.

(** [str(n)] for a natural number. *)
Fixpoint decimal_go (fuel : nat) (n : Z) (acc : string) : string :=
  match fuel with
  | O => acc
  | S k =>
      let acc' := String (digit_char n) acc in
      if (n <? 10)%Z then acc' else decimal_go k (n / 10) acc'
  end.

Definition decimal (n : Z) : string :=
  decimal_go (S (Z.to_nat (Z.log2 n))) n EmptyString.

(** [f"{x:+.6f}"] *)
Definition fmt_plus6 (x : Float.pyfloat) : string :=
  match x with
  | Float.Fin q =>
      let n := Float.round_half_even (Qabs q * 1000000) in
      (if Qle_bool 0 q then "+" else "-")
      ++ decimal (n / 1000000) ++ "." ++ digits 6 (n mod 1000000)
  | Float.NegZero => "-0.000000"
  | Float.Inf neg => if neg then "-inf" else "+inf"
  end.

(** [t.strftime("%Y:%m:%d %H:%M:%S")] *)
Definition strftime_exif (t : datetime) : string :=
  digits 4 (year t) ++ ":" ++ digits 2 (month t) ++ ":" ++ digits 2 (day t) ++ " "
  ++ digits 2 (hour t) ++ ":" ++ digits 2 (minute t) ++ ":" ++ digits 2 (second t).

(** [t.strftime("%Y-%m-%dT%H:%M:%SZ")] *)
Definition strftime_iso (t : datetime) : string :=
  digits 4 (year t) ++ "-" ++ digits 2 (month t) ++ "-" ++ digits 2 (day t) ++ "T"
  ++ digits 2 (hour t) ++ ":" ++ digits 2 (minute t) ++ ":" ++ digits 2 (second t) ++ "Z".

(** [" ".join(map(str, cmd))] *)
Fixpoint join_words (l : list string) : string :=
  match l with
  | [] => EmptyString
  | [a] => a
  | a :: l' => a ++ " " ++ join_words l'
  end.

(** The directive [%Y] reads four decimal digits at the start of the text. *)
Definition four_digits (s : string) : bool :=
  match s with
  | String a (String b (String c (String d _))) =>
      Re.cls_match Re.Digit a && Re.cls_match Re.Digit b
      && Re.cls_match Re.Digit c && Re.cls_match Re.Digit d
  | _ => false
  end.

(** The value of [timestamp] after the conversion block of the embedders. *)
Inductive tsval :=
| TsNone                      (* None *)
| TsDatetime (t : datetime)   (* a datetime *)
| TsOther.                    (* a value that is neither *)

(** ** The script *)

Section Script.
Variable B : backend.

(** [datetime.strptime(s, "%Y-%m-%d %H:%M:%S %Z")] *)
Definition strptime (s : string) : M datetime :=
  if four_digits s
  then match strptime_fields B s with
       | Some t => ret t
       | None => raise ValueError
       end
  else raise ValueError.

(** The conversion block at the head of both embedders (lines 72-74 and
    113-115): only a string is parsed. *)
Definition convert_timestamp (timestamp : json) : M tsval :=
  match timestamp with
  | JStr s => t ← strptime s; ret (TsDatetime t)
  | JNull => ret TsNone
  | _ => ret TsOther
  end.

(** [subprocess.run(cmd, check=True)] *)
Definition subprocess_run (cmd : list string) : M unit :=
  f ← get_fs;
  let out := List.last cmd EmptyString in
  match f !! out with
  | Some Dir => raise CalledProcessError
  | _ =>
      match ffmpeg B cmd f with
      | Exit0 c => set_fs (<[out := File c]> f)
      | ExitFail (Some c) => set_fs (<[out := File c]> f) ≫= fun _ => raise CalledProcessError
      | ExitFail None => raise CalledProcessError
      end
  end.

(** [safe_run] (lines 148-156), always called with [check=True]. *)
Definition safe_run (cmd : list string) : M unit :=
  print ("RUN: " ++ join_words cmd) ≫= fun _ =>
  try_catch (subprocess_run cmd)
    (fun e =>
       match e with
       | CalledProcessError =>
           print ("Command failed: " ++ exn_text e) ≫= fun _ => raise e
       | _ => raise e
       end).

(** [embed_gps_jpg] (lines 64-101) *)
Definition embed_gps_jpg (jpg_path : string) (lat lon : option Float.pyfloat)
    (timestamp : json) : M unit :=
  match lat, lon with
  | Some la, Some lo =>
      ts ← convert_timestamp timestamp;
      try_catch
        (let lat_ref := if Float.ge0 la then "N" else "S" in
         let lon_ref := if Float.ge0 lo then "E" else "W" in
         dla ← lift (deg_to_dms_rational la);
         dlo ← lift (deg_to_dms_rational lo);
         formatted_time ←
           match ts with
           | TsNone => ret None
           | TsDatetime t => ret (Some (strftime_exif t))
           | TsOther => raise AttributeError
           end;
         c ← read_file jpg_path;
         match piexif_insert B (Exif lat_ref dla lon_ref dlo formatted_time) c with
         | Some c' => write_file jpg_path c'
         | None => raise ValueError
         end ≫= fun _ =>
         print ("Embedded GPS into " ++ jpg_path))
        (fun e => print ("Warning: could not embed EXIF GPS: " ++ exn_text e))
  | _, _ => ret tt
  end.

(** [embed_gps_mp4] (lines 105-144) *)
Definition embed_gps_mp4 (mp4_path : string) (lat lon : option Float.pyfloat)
    (timestamp : json) : M unit :=
  match lat, lon with
  | Some la, Some lo =>
      ts ← convert_timestamp timestamp;
      try_catch
        (let location := fmt_plus6 la ++ fmt_plus6 lo ++ "/" in
         let temp_path := mp4_path ++ ".tmp.mp4" in
         let cmd := [ffmpeg_path; "-y"; "-i"; mp4_path;
                     "-metadata"; "location=" ++ location; "-codec"; "copy"] in
         cmd ←
           match ts with
           | TsNone => ret cmd
           | TsDatetime t =>
               ret (List.app cmd ["-metadata"; "creation_time=" ++ strftime_iso t])
           | TsOther => raise AttributeError
           end;
         let cmd := List.app cmd [temp_path] in
         print ("Embedding GPS into " ++ mp4_path) ≫= fun _ =>
         safe_run cmd ≫= fun _ =>
         os_rename temp_path mp4_path)
        (fun e => print ("Warning: could not embed GPS metadata into MP4: " ++ exn_text e))
  | _, _ => ret tt
  end.

(** [extract_zip] (lines 161-164): members are written below
    [extract_dir]. *)
Fixpoint write_members (extract_dir : string) (ms : list (string * content)) : M unit :=
  match ms with
  | [] => ret tt
  | (n, c) :: ms' =>
      write_file (PathLib.join extract_dir n) c ≫= fun _ => write_members extract_dir ms'
  end.

Definition extract_zip (zip_path extract_dir : string) : M unit :=
  c ← read_file zip_path;
  match unzip B c with
  | Some ms =>
      write_members extract_dir ms ≫= fun _ => print ("Extracted to " ++ extract_dir)
  | None => raise BadZipFile
  end.

Definition is_main_image (name : string) : bool :=
  Str.endswith name "-main.jpg" || Str.endswith name "-main.jpeg"
  || Str.endswith name "-main.png" || Str.endswith name "-main.webp"
  || Str.endswith name "-main.webp".

Definition is_main_video (name : string) : bool :=
  Str.endswith name "-main.mp4" || Str.endswith name "-main.mov"
  || Str.endswith name "-main.mkv" || Str.endswith name "-main.webm".

Definition is_overlay (name : string) : bool := Str.endswith name "-overlay.png".

(** The loop body of [find_main_and_overlay] (lines 171-178). *)
Definition classify (acc : option string * option string) (f : string)
    : option string * option string :=
  let name := Str.lower (PathLib.name f) in
  if is_main_image name then (Some f, acc.2)
  else if is_main_video name then (Some f, acc.2)
  else if is_overlay name then (acc.1, Some f)
  else acc.

(** [find_main_and_overlay] (lines 166-179) *)
Definition find_main_and_overlay (dirpath : string) : M (option string * option string) :=
  l ← iterdir dirpath; ret (fold_left classify l (None, None)).

(** [overlay_image] (lines 181-186) *)
Definition overlay_image (main_path overlay_path out_path : string) : M unit :=
  m ← read_file main_path;
  (* the main image is opened and decoded before the overlay is opened:
     when it does not decode, that is the error, whatever the overlay *)
  o ← try_catch (read_file overlay_path)
        (fun e =>
           match pil_rgba_png B m with
           | Some _ => raise e
           | None => raise UnidentifiedImageError
           end);
  match pil_composite B m o with
  | Some c => write_file out_path c
  | None => raise UnidentifiedImageError
  end.

(** [FixOverlayImage] (lines 219-225) *)
Definition FixOverlayImage (overlay_path : string) : M string :=
  let fixed := fixed_overlay_path overlay_path in
  c ← read_file overlay_path;
  match pil_rgba_png B c with
  | Some c' => write_file fixed c'
  | None => raise UnidentifiedImageError
  end ≫= fun _ =>
  print ("Saved fixed overlay: " ++ fixed) ≫= fun _ =>
  ret fixed.

Definition AllowedAttemps : Z := 3.

Definition overlay_cmd (main_vid overlay_png out_vid : string) : list string :=
  [ffmpeg_path; "-y"; "-i"; main_vid; "-i"; overlay_png; "-filter_complex";
   "[1:v][0:v]scale2ref=w=iw:h=ih[ovr][base];[base][ovr]overlay=0:0";
   "-c:v"; "libx264"; "-crf"; "18"; "-preset"; "veryfast"; "-c:a"; "copy"; out_vid].

(** The [while] loop of [ffmpeg_overlay_video] (lines 196-217); [fuel]
    bounds the number of iterations the model follows.  The loop variable
    [x] is passed on as the body leaves it. *)
Fixpoint overlay_loop (fuel : nat) (x : Z) (main_vid overlay_png out_vid : string)
    : M unit :=
  match fuel with
  | O => timeout
  | S fuel' =>
      if (x <? AllowedAttemps)%Z
      then
        try_catch (safe_run (overlay_cmd main_vid overlay_png out_vid))
          (fun e =>
             print ("Error during ffmpeg overlay: " ++ exn_text e) ≫= fun _ =>
             print "Attemtping to fix currupted overlay image..." ≫= fun _ =>
             overlay_png' ← FixOverlayImage overlay_png;
             print "Retrying ffmpeg overlay..." ≫= fun _ =>
             overlay_loop fuel' x main_vid overlay_png' out_vid)
      else ret tt
  end.

(** [ffmpeg_overlay_video] (lines 188-217) *)
Definition ffmpeg_overlay_video (fuel : nat) (main_vid overlay_png out_vid : string)
    : M unit :=
  overlay_loop fuel 0 main_vid overlay_png out_vid.

Definition image_exts : list string := [".jpg"; ".jpeg"; ".png"; ".webp"].

Definition in_list (s : string) (l : list string) : bool :=
  existsb (String.eqb s) l.

(** The part of [process_zip_file] after the archive is gone (lines
    241-257). *)
Definition merge_extracted (fuel : nat) (zip_path out_dir extract_dir : string)
    (found : option string * option string) : M (option string) :=
  match found with
  | (Some main, Some overlay) =>
      if Str.truthy main && Str.truthy overlay then
        let main_ext := Str.lower (PathLib.suffix main) in
        let base_out := PathLib.join out_dir (PathLib.stem zip_path ++ "_merged") in
        if in_list main_ext image_exts then
          let out_img := base_out ++ ".jpg" in
          overlay_image main overlay out_img ≫= fun _ =>
          rmtree extract_dir ≫= fun _ => ret (Some out_img)
        else
          let out_vid := base_out ++ ".mp4" in
          ffmpeg_overlay_video fuel main overlay out_vid ≫= fun _ =>
          rmtree extract_dir ≫= fun _ => ret (Some out_vid)
      else
        print ("ERROR: couldn't find main or overlay inside zip: " ++ zip_path) ≫= fun _ =>
        ret None
  | _ =>
      print ("ERROR: couldn't find main or overlay inside zip: " ++ zip_path) ≫= fun _ =>
      ret None
  end.

(** A fresh scratch directory (lines 231-233). *)
Definition prepare_scratch (extract_dir : string) : M unit :=
  e ← path_exists extract_dir;
  (if e : bool then rmtree extract_dir else ret tt) ≫= fun _ =>
  makedirs extract_dir.

Definition scratch_dir (zip_path out_dir : string) : string :=
  PathLib.join out_dir (PathLib.stem zip_path ++ "_extracted").

(** [process_zip_file] (lines 228-257) *)
Definition process_zip_file (fuel : nat) (zip_path out_dir : string) : M (option string) :=
  let extract_dir := scratch_dir zip_path out_dir in
  prepare_scratch extract_dir ≫= fun _ =>
  extract_zip zip_path extract_dir ≫= fun _ =>
  found ← find_main_and_overlay extract_dir;
  os_remove zip_path ≫= fun _ =>
  merge_extracted fuel zip_path out_dir extract_dir found.

(** *** Manifest access *)

(** [v[key]] for a string key. *)
Definition subscript (v : json) (key : string) : M json :=
  match v with
  | JDict d =>
      match List.find (fun kv => String.eqb kv.1 key) d with
      | Some kv => ret kv.2
      | None => raise KeyError
      end
  | _ => raise TypeError
  end.

(** [entry.get(key, default)]; only a dict has the method. *)
Definition entry_get (entry : json) (key : string) (default : json) : M json :=
  match entry with
  | JDict d => ret (dict_get d key default)
  | _ => raise AttributeError
  end.

(** [entry.get(k1, default) or entry.get(k2, default)] *)
Definition get_or (entry : json) (k1 k2 : string) (default : json) : M json :=
  a ← entry_get entry k1 default;
  if truthy a then ret a else entry_get entry k2 default.

Fixpoint chars (s : string) : list json :=
  match s with
  | EmptyString => []
  | String c s' => JStr (String c EmptyString) :: chars s'
  end.

(** The values a [for] loop over [v] visits. *)
Definition iter_json (v : json) : M (list json) :=
  match v with
  | JList l => ret l
  | JDict d => ret (map (fun kv => JStr kv.1) d)
  | JStr s => ret (chars s)
  | _ => raise TypeError
  end.

(** [json.load(f)["Saved Media"]] on the file at [json_path]. *)
Definition load_saved_media (json_path : string) : M json :=
  c ← read_file json_path;
  match json_loads B c with
  | Some v => subscript v "Saved Media"
  | None => raise ValueError
  end.

(** [for x in l: body x] *)
Fixpoint for_each {A} (l : list A) (body : A -> M unit) : M unit :=
  match l with
  | [] => ret tt
  | x :: l' => body x ≫= fun _ => for_each l' body
  end.

(** *** Metadata stage (lines 354-368, again at 434-448) *)

Definition truthy_path (p : option string) : bool :=
  match p with
  | Some s => Str.truthy s
  | None => false
  end.

Definition path_text (p : option string) : string :=
  match p with
  | Some s => s
  | None => "None"
  end.

Definition has_location (ll : latlon) : bool :=
  match ll with
  | (Some _, Some _) => true
  | _ => false
  end.

Definition embedder : Type :=
  string -> option Float.pyfloat -> option Float.pyfloat -> json -> M unit.

(** The stage, with the two functions it may call as arguments. *)
Definition embed_stage_with (jpg mp4 : embedder) (entry : json)
    (output_path : option string) (timestamp : json) : M unit :=
  loc ← get_or entry "Location" "location" (JStr EmptyString);
  ll ← lift (parse_latlon loc);
  (if truthy_path output_path
      && (Str.endswith (Str.lower (path_text output_path)) ".jpg"
          || Str.endswith (Str.lower (path_text output_path)) ".jpeg")
      && has_location ll
   then try_catch (jpg (path_text output_path) ll.1 ll.2 timestamp)
          (fun e => print ("Failed to embed GPS: " ++ exn_text e))
   else ret tt) ≫= fun _ =>
  loc ← get_or entry "Location" "location" (JStr EmptyString);
  ll ← lift (parse_latlon loc);
  if truthy_path output_path
     && Str.endswith (Str.lower (path_text output_path)) ".mp4"
     && has_location ll
  then try_catch (mp4 (path_text output_path) ll.1 ll.2 timestamp)
         (fun e => print ("Failed to embed GPS: " ++ exn_text e))
  else ret tt.

Definition embed_stage : json -> option string -> json -> M unit :=
  embed_stage_with embed_gps_jpg embed_gps_mp4.

(** *** Per-entry orchestration (lines 285-377) *)

(** [zipfile.is_zipfile(path)]: false for a path that cannot be read. *)
Definition is_zipfile_path (p : string) : M bool :=
  f ← get_fs;
  ret (match f !! p with
       | Some (File c) => is_zipfile B c
       | _ => false
       end).

(** [wget.download(media_url, out=out_dir)] *)
Definition wget_download (media_url : json) (out_dir : string) : M string :=
  match media_url with
  | JStr url =>
      f ← get_fs;
      match wget B url out_dir f with
      | Saved saved c => write_file saved c ≫= fun _ => ret saved
      | Broken (Some (tmp, c)) => write_file tmp c ≫= fun _ => raise DownloadError
      | Broken None => raise DownloadError
      end
  | _ => raise TypeError
  end.

Definition json_text (v : json) : string :=
  match v with
  | JStr s => s
  | _ => "<value>"
  end.

(** The first of the candidate names that exists (lines 324-328). *)
Fixpoint first_existing (f : gmap string node) (names : list string) : option string :=
  match names with
  | [] => None
  | n :: names' => if bool_decide (is_Some (f !! n)) then Some n else first_existing f names'
  end.

(** The branch for a download that is not an archive (lines 316-342).
    [ffmpeg_overlay_image] is not defined in the script. *)
Definition merge_companion (fuel : nat) (saved_path out_dir : string) : M (option string) :=
  let stem := PathLib.stem saved_path in
  possible_overlay_names ←
    lift_option ValueError
      (a ← PathLib.with_name saved_path (stem ++ "-overlay.png");
       b ← PathLib.with_name saved_path (stem ++ "_overlay.png");
       c ← PathLib.with_name saved_path (stem ++ ".overlay.png");
       Some [a; b; c]);
  f ← get_fs;
  match first_existing f possible_overlay_names with
  | Some found_overlay =>
      if Str.truthy found_overlay then
        print ("Found companion overlay: " ++ found_overlay) ≫= fun _ =>
        if in_list (Str.lower (PathLib.suffix saved_path)) image_exts
        then raise NameError
        else
          let out_vid := PathLib.join out_dir (stem ++ "_merged.mp4") in
          ffmpeg_overlay_video fuel saved_path found_overlay out_vid ≫= fun _ =>
          ret (Some out_vid)
      else ret (Some saved_path)
  | None => ret (Some saved_path)
  end.

(** The second [try] of the loop body (lines 308-345). *)
Definition merge_stage (fuel : nat) (entry : json) (saved_path out_dir : string)
    : M (option string) :=
  try_catch
    (z ← is_zipfile_path saved_path;
     if (z : bool) || Str.endswith (Str.lower saved_path) ".zip"
     then
       print "Detected ZIP, processing..." ≫= fun _ =>
       loc ← get_or entry "Location" "location" (JStr EmptyString);
       _ ← lift (parse_latlon loc);
       process_zip_file fuel saved_path out_dir
     else merge_companion fuel saved_path out_dir)
    (fun e =>
       print ("Error while processing file: " ++ exn_text e) ≫= fun _ =>
       ret (Some saved_path)).

(** [timestamp.replace(..)...] (line 351): only a string has the method. *)
Definition nicetime_of (timestamp : json) : M string :=
  match timestamp with
  | JStr s => ret (nicetime s)
  | _ => raise AttributeError
  end.

(** Lines 370-377. *)
Definition rename_stage (output_path : option string) (nice : string) : M unit :=
  if truthy_path output_path && Str.truthy nice
  then
    match new_path nice (path_text output_path) with
    | Some np =>
        os_rename (path_text output_path) np ≫= fun _ =>
        print ("Renamed output to include timestamp: " ++ np)
    | None => raise ValueError
    end
  else ret tt.

(** What follows the download in the loop body (lines 304-377). *)
Definition finish_entry (fuel : nat) (entry : json) (saved_path out_dir : string) : M unit :=
  output_path ← merge_stage fuel entry saved_path out_dir;
  timestamp ← get_or entry "Date" "date" JNull;
  nice ← nicetime_of timestamp;
  embed_stage entry output_path timestamp ≫= fun _ =>
  rename_stage output_path nice.

(** The first [try] of the loop body (lines 296-302): the saved path, or
    [None] when the download failed and the loop goes on. *)
Definition download_stage (media_url : json) (out_dir : string) : M (option string) :=
  try_catch
    (print ("Downloading: " ++ json_text media_url) ≫= fun _ =>
     saved ← wget_download media_url out_dir;
     print ("Saved as: " ++ saved) ≫= fun _ =>
     ret (Some saved))
    (fun e => print ("Download failed: " ++ exn_text e) ≫= fun _ => ret None).

(** The body of the [for] loop of [process_json] (lines 286-377). *)
Definition process_entry (fuel : nat) (out_dir : string) (entry : json) : M unit :=
  match entry with
  | JDict d =>
      let media_url :=
        py_or (py_or (dict_get d "Media Download Url" JNull)
                 (dict_get d "Download Link" JNull))
          (dict_get d "media_url" JNull) in
      if negb (truthy media_url) then print "No media URL in item, skipping."
      else
        saved ← download_stage media_url out_dir;
        match saved with
        | Some saved_path => finish_entry fuel entry saved_path out_dir
        | None => ret tt
        end
  | _ => print "Skipping non-dict entry in JSON (likely stray)"
  end.

(** The entry list that [process_json] settles on (lines 267-283). *)
Definition entry_list (data : json) : option (list json) :=
  match data with
  | JDict d =>
      match List.find (fun kv => match kv.2 with JList _ => true | _ => false end) d with
      | Some (_, JList l) => Some l
      | _ => Some [data]
      end
  | JList l => Some l
  | _ => None
  end.

(** [process_json] (lines 262-380) *)
Definition process_json (fuel : nat) (json_path out_dir : string) : M unit :=
  makedirs out_dir ≫= fun _ =>
  data ← load_saved_media json_path;
  match entry_list data with
  | Some l =>
      for_each l (process_entry fuel out_dir) ≫= fun _ => print "ALL DONE."
  | None => print "Unexpected JSON root type"
  end.

(** *** Reconciliation sweep (lines 382-454) *)

(** [CheckOutputDir] (lines 382-392) *)
Definition CheckOutputDir (outdir : string) : M (list string) :=
  l ← iterdir outdir;
  f ← get_fs;
  let remaining :=
    List.filter
      (fun p => match f !! p with
                | Some Dir => Str.endswith (PathLib.name p) "_extracted"
                | _ => false
                end) l in
  print ("Found " ++ decimal (Z.of_nat (List.length remaining))
         ++ " leftover extracted directories in " ++ outdir ++ ".") ≫= fun _ =>
  ret remaining.

(** The test of the inner loop of [FindInJSON] (line 402). *)
Definition field_matches (search_str : string) (v : json) : bool :=
  match v with
  | JStr s => Str.contains (Str.lower search_str) (Str.lower s)
  | _ => false
  end.

Definition entry_matches (search_str : string) (entry : json) : bool :=
  match entry with
  | JDict d => existsb (fun kv => field_matches search_str kv.2) d
  | _ => false
  end.

(** [FindInJSON] (lines 394-404): the first entry with a matching field,
    [None] when the loop ends without a [return]. *)
Definition FindInJSON (json_path search_str : string) : M json :=
  data ← load_saved_media json_path;
  l ← iter_json data;
  match List.find (entry_matches search_str) l with
  | Some entry => print "Found match in entry" ≫= fun _ => ret entry
  | None => ret JNull
  end.

(** [subdir.stem.replace("_extracted", "")] *)
Definition stripped_name (subdir : string) : string :=
  Str.replace (PathLib.stem subdir) "_extracted" EmptyString.

(** The first half of the loop body of [FixRemaining] (lines 409-427):
    [None] when the directory is passed over, else the merged output. *)
Definition compose_leftover (fuel : nat) (outdir subdir : string)
    : M (option (option string)) :=
  print ("Processing leftover directory: " ++ subdir) ≫= fun _ =>
  found ← find_main_and_overlay subdir;
  let skip :=
    print ("Could not find main or overlay in " ++ subdir) ≫= fun _ => ret None in
  match found with
  | (Some main, Some overlay) =>
      if Str.truthy main && Str.truthy overlay then
        let main_ext := Str.lower (PathLib.suffix main) in
        let base_out := PathLib.join outdir (stripped_name subdir ++ "_merged") in
        if in_list main_ext image_exts then
          let out_img := base_out ++ ".jpg" in
          overlay_image main overlay out_img ≫= fun _ =>
          print ("Created merged image: " ++ out_img) ≫= fun _ =>
          ret (Some (Some out_img))
        else
          let out_vid := base_out ++ ".mp4" in
          ffmpeg_overlay_video fuel main overlay out_vid ≫= fun _ =>
          print ("Created merged video: " ++ out_vid) ≫= fun _ =>
          ret (Some (Some out_vid))
      else skip
  | _ => skip
  end.

(** The second half (lines 429-454). *)
Definition embed_leftover (noDelete : bool) (subdir : string) (output_path : option string)
    : M unit :=
  entry ← FindInJSON "snap_data.json" (stripped_name subdir);
  timestamp ← get_or entry "Date" "date" JNull;
  embed_stage entry output_path timestamp ≫= fun _ =>
  if noDelete then ret tt else rmtree subdir.

(** The body of the [for] loop of [FixRemaining] (lines 409-454). *)
Definition fix_one (fuel : nat) (outdir : string) (noDelete : bool) (subdir : string)
    : M unit :=
  r ← compose_leftover fuel outdir subdir;
  match r with
  | Some output_path => embed_leftover noDelete subdir output_path
  | None => ret tt
  end.

(** [FixRemaining] (lines 406-454) *)
Definition FixRemaining (fuel : nat) (outdir : string) (noDelete : bool) : M unit :=
  remaining ← CheckOutputDir outdir;
  for_each remaining (fix_one fuel outdir noDelete).

(** The run of the script (lines 467-478). *)
Definition main (fuel : nat) : M unit :=
  let json_file := "snap_data.json" in
  let outdir := "downloaded_media" in
  process_json fuel json_file outdir ≫= fun _ =>
  remaining ← CheckOutputDir outdir;
  if (0 <? List.length remaining)%nat then FixRemaining fuel outdir true else ret tt.

End Script.

(** ** Vocabulary of the statements, and sample inputs *)

(** The value of [entry.get("Location", "") or entry.get("location", "")]
    for an entry that is a dict. *)
Definition location_field (d : list (string * json)) : json :=
  py_or (dict_get d "Location" (JStr EmptyString)) (dict_get d "location" (JStr EmptyString)).

(** A backend whose tools all fail: ffmpeg exits with an error, no image
    decodes, no file is an archive, no download arrives. *)
Definition quiet_backend : backend :=
  {| ffmpeg := fun _ _ => ExitFail None;
     pil_rgba_png := fun _ => None;
     pil_composite := fun _ _ => None;
     piexif_insert := fun _ _ => None;
     unzip := fun _ => None;
     is_zipfile := fun _ => false;
     wget := fun _ _ _ => Broken None;
     json_loads := fun _ => None;
     strptime_fields := fun _ => None |}.

Definition w_c9 : world :=
  World (<["downloaded_media/a_merged.jpg" := File "jpeg bytes"]> ∅) [].

(** A backend on which every ffmpeg run fails and every overlay can be
    re-encoded. *)
Definition failing_ffmpeg_backend : backend :=
  {| ffmpeg := fun _ _ => ExitFail None;
     pil_rgba_png := fun c => Some ("RGBA " ++ c);
     pil_composite := fun _ _ => None;
     piexif_insert := fun _ _ => None;
     unzip := fun _ => None;
     is_zipfile := fun _ => false;
     wget := fun _ _ _ => Broken None;
     json_loads := fun _ => None;
     strptime_fields := fun _ => None |}.

(** An extracted overlay whose extension is in capitals. *)
Definition upper_overlay : string := "downloaded_media/snap_extracted/a-overlay.PNG".

Definition w_c3 : world :=
  World (<["downloaded_media/snap_extracted" := Dir]>
           (<[upper_overlay := File "png bytes"]> ∅)) [].

(** The last line [embed_gps_mp4] prints when its [try] block fails. *)
Definition mp4_warning (e : exn) : string :=
  "Warning: could not embed GPS metadata into MP4: " ++ exn_text e.

Definition temp_path_of (mp4_path : string) : string := mp4_path ++ ".tmp.mp4".

Definition w_c5 : world :=
  World (<["downloaded_media/v_merged.mp4" := File "mp4 bytes"]> ∅) [].

(** The compose attempts a run has made: each starts with the line that
    [safe_run] prints. *)
Definition attempts (out : list string) : nat :=
  List.length (List.filter (String.prefix "RUN: ") out).

Definition is_file (f : gmap string node) (p : string) : Prop :=
  exists c, f !! p = Some (File c).

Definition not_dir (f : gmap string node) (p : string) : Prop :=
  f !! p ≠ Some Dir.

(** The path of the overlay after [k] repairs. *)
Definition repaired (k : nat) (overlay : string) : string :=
  Nat.iter k fixed_overlay_path overlay.

Definition w_c1 : world :=
  World (<["x_extracted/v-main.mp4" := File "video"]>
           (<["x_extracted/v-overlay.png" := File "overlay"]> ∅)) [].

(** The value of the three-way [or] that picks the media URL (line 291). *)
Definition media_url_field (d : list (string * json)) : json :=
  py_or (py_or (dict_get d "Media Download Url" JNull) (dict_get d "Download Link" JNull))
    (dict_get d "media_url" JNull).

(** The value of [entry.get("Date") or entry.get("date")]. *)
Definition date_field (d : list (string * json)) : json :=
  py_or (dict_get d "Date" JNull) (dict_get d "date" JNull).

(** A backend on which downloads arrive and nothing is an archive. *)
Definition plain_backend : backend :=
  {| ffmpeg := fun _ _ => ExitFail None;
     pil_rgba_png := fun _ => None;
     pil_composite := fun _ _ => None;
     piexif_insert := fun _ _ => None;
     unzip := fun _ => None;
     is_zipfile := fun _ => false;
     wget := fun url out _ => Saved (PathLib.join out (PathLib.name url)) ("bytes of " ++ url);
     json_loads := fun c =>
       if String.eqb c "manifest"
       then Some (JDict [("Saved Media",
                          JList [JDict [("Media Download Url", JStr "http://cdn/a.jpg")];
                                 JDict [("Media Download Url", JStr "http://cdn/b.jpg");
                                        ("Date", JStr "2021-10-06 23:09:21 UTC")]])])
       else None;
     strptime_fields := fun _ => None |}.

Definition entry_no_date : list (string * json) :=
  [("Media Download Url", JStr "http://cdn/a.jpg")].

Definition entry_dated : json :=
  JDict [("Media Download Url", JStr "http://cdn/b.jpg");
         ("Date", JStr "2021-10-06 23:09:21 UTC")].

Definition w_c2 : world := World (<["snap_data.json" := File "manifest"]> ∅) [].

(** A download that carries the archive extension and is not an archive. *)
Definition w_c4 : world :=
  World (<["downloaded_media" := Dir]>
           (<["downloaded_media/a.zip" := File "not an archive"]> ∅)) [].

(** A backend whose archives hold a main image and an overlay. *)
Definition zip_backend : backend :=
  {| ffmpeg := fun _ _ => ExitFail None;
     pil_rgba_png := fun _ => None;
     pil_composite := fun m o => Some ("merged " ++ m ++ " " ++ o);
     piexif_insert := fun _ _ => None;
     unzip := fun c =>
       if String.eqb c "archive" then Some [("s-main.jpg", "main"); ("s-overlay.png", "overlay")]
       else None;
     is_zipfile := fun c => String.eqb c "archive";
     wget := fun _ _ _ => Broken None;
     json_loads := fun _ => None;
     strptime_fields := fun _ => None |}.

Definition w_zip : world :=
  World (<["downloaded_media" := Dir]>
           (<["downloaded_media/a.zip" := File "archive"]> ∅)) [].

(** The same world once the scratch directory is there, and once the
    archive is unpacked into it. *)
Definition w_zip_scratch : world :=
  World (<["downloaded_media/a_extracted" := Dir]> (fs w_zip)) [].

Definition w_zip_extracted : world :=
  World (<["downloaded_media/a_extracted/s-overlay.png" := File "overlay"]>
           (<["downloaded_media/a_extracted/s-main.jpg" := File "main"]>
              (fs w_zip_scratch)))
    ["Extracted to downloaded_media/a_extracted"].

(** No string field of the entry contains the name, letter case aside. *)
Definition no_field_contains (needle : string) (entry : json) : Prop :=
  forall d k s, entry = JDict d -> In (k, JStr s) d ->
    Str.contains (Str.lower needle) (Str.lower s) = false.

(** A computation that never removes or replaces a directory. *)
Definition keeps_dirs {A} (m : M A) : Prop :=
  forall w r w', m w = (r, w') -> forall p, fs w !! p = Some Dir -> fs w' !! p = Some Dir.

(** A backend for the sweep: images compose, and the manifest has one
    entry, about another download. *)
Definition sweep_backend : backend :=
  {| ffmpeg := fun _ _ => ExitFail None;
     pil_rgba_png := fun _ => None;
     pil_composite := fun m o => Some ("merged " ++ m ++ " " ++ o);
     piexif_insert := fun _ _ => None;
     unzip := fun _ => None;
     is_zipfile := fun _ => false;
     wget := fun _ _ _ => Broken None;
     json_loads := fun c =>
       if String.eqb c "manifest"
       then Some (JDict [("Saved Media",
                          JList [JDict [("Media Download Url", JStr "http://cdn/other.zip");
                                        ("Date", JStr "2021-10-06 23:09:21 UTC")]])])
       else None;
     strptime_fields := fun _ => None |}.

Definition w_sweep : world :=
  World (<["snap_data.json" := File "manifest"]>
        (<["downloaded_media" := Dir]>
        (<["downloaded_media/a1_extracted" := Dir]>
        (<["downloaded_media/a1_extracted/s-main.jpg" := File "main"]>
        (<["downloaded_media/a1_extracted/s-overlay.png" := File "overlay"]>
        (<["downloaded_media/b2_extracted" := Dir]>
        (<["downloaded_media/b2_extracted/t-main.jpg" := File "main2"]>
        (<["downloaded_media/b2_extracted/t-overlay.png" := File "overlay2"]> ∅)))))))) [].

(** The world after the first leftover directory is merged. *)
Definition w_sweep_merged : world :=
  World (<["downloaded_media/a1_merged.jpg" := File "merged main overlay"]> (fs w_sweep))
    ["Processing leftover directory: downloaded_media/a1_extracted";
     "Created merged image: downloaded_media/a1_merged.jpg"].

Definition sweep_entry : json :=
  JDict [("Media Download Url", JStr "http://cdn/other.zip");
         ("Date", JStr "2021-10-06 23:09:21 UTC")].

Definition sweep_manifest : json := JList [sweep_entry].

(** Half a unit in the last place of a float in [1, 2): 2^-53. *)
Definition u53 : Q := 1 # 9007199254740992.

(** A bound for the rounding error of a subnormal result: 2^-100. *)
Definition tiny : Q := 1 # 1267650600228229401496703205376.

(** 2^-51, the room the float operations need on top of 1/720000. *)
Definition slack : Q := 1 # 2251799813685248.

(** The float 0x1.d208a5a912e32p-18, just above 2.5/360000. *)
Definition d_tie : Q := 4099276460824345 # 590295810358705651712.

(** *** Vocabulary for the location pattern *)

Definition is_digit (c : ascii) : bool := Re.cls_match Re.Digit c.
Definition is_space (c : ascii) : bool := Re.cls_match Re.Space c.

Fixpoint all_chars (p : ascii -> bool) (s : string) : bool :=
  match s with
  | EmptyString => true
  | String c s' => p c && all_chars p s'
  end.

Definition starts_with (p : ascii -> bool) (s : string) : bool :=
  match s with
  | String c _ => p c
  | EmptyString => false
  end.

(** A text of the form [<float>]: an optional minus sign, at least one
    digit, a point, at least one digit. *)
Definition float_text (a : string) : Prop :=
  exists sign ip fp,
    a = sign ++ ip ++ "." ++ fp
    /\ (sign = EmptyString \/ sign = "-")
    /\ ip <> EmptyString /\ all_chars is_digit ip = true
    /\ fp <> EmptyString /\ all_chars is_digit fp = true.

(** [s] contains a substring of the form [<float>,<float>]. *)
Definition strict_pair_in (s : string) : Prop :=
  exists pre a b post,
    s = pre ++ a ++ "," ++ b ++ post /\ float_text a /\ float_text b.

(** [s] is [pre], then [<float>], a comma, white space [ws], [<float>],
    then [post]. *)
Definition pair_at (s pre a ws b post : string) : Prop :=
  s = pre ++ a ++ "," ++ ws ++ b ++ post
  /\ float_text a /\ all_chars is_space ws = true /\ float_text b.

(** The longest prefix of characters that satisfy [p], and the rest. *)
Fixpoint span (p : ascii -> bool) (s : string) : string * string :=
  match s with
  | EmptyString => (EmptyString, EmptyString)
  | String c s' =>
      if p c then let '(a, r) := span p s' in (String c a, r)
      else (EmptyString, s)
  end.

(** The float text at the start of [s], taken as far as it goes, and the
    rest. *)
Definition scan_float (s : string) : option (string * string) :=
  let '(sign, s0) :=
    match s with
    | String c s' => if Ascii.eqb c "-" then ("-", s') else (EmptyString, s)
    | EmptyString => (EmptyString, s)
    end in
  let '(ip, s1) := span is_digit s0 in
  match ip, s1 with
  | String _ _, String c s2 =>
      if Ascii.eqb c "."
      then let '(fp, s3) := span is_digit s2 in
           match fp with
           | String _ _ => Some (sign ++ ip ++ "." ++ fp, s3)
           | EmptyString => None
           end
      else None
  | _, _ => None
  end.

(** The pair at the start of [s]. *)
Definition scan_pair (s : string) : option (string * string) :=
  match scan_float s with
  | Some (a, String c s1) =>
      if Ascii.eqb c ","
      then match scan_float (span is_space s1).2 with
           | Some (b, _) => Some (a, b)
           | None => None
           end
      else None
  | _ => None
  end.


(** ** Vocabulary for the matcher on the location pattern *)

(** [\d+\.\d+] *)
Definition unsigned_re : Re.re :=
  Re.Seq (Re.Plus Re.Digit) (Re.Seq (Re.One (Re.Lit ".")) (Re.Plus Re.Digit)).

(** The unsigned float text at the start of [s]: integer part, fraction
    part and the rest. *)
Definition scan_unsigned (s : string) : option (string * string * string) :=
  let '(ip, s1) := span is_digit s in
  match ip, s1 with
  | String _ _, String c s2 =>
      if Ascii.eqb c "."
      then let '(fp, s3) := span is_digit s2 in
           match fp with
           | String _ _ => Some (ip, fp, s3)
           | EmptyString => None
           end
      else None
  | _, _ => None
  end.

(** A continuation that fails on every text that starts with a digit, or
    one that never fails. *)
Definition stops_or_total {R} (K : string -> list string -> option R) (caps : list string)
    : Prop :=
  (forall c s', is_digit c = true -> K (String c s') caps = None)
  \/ (forall s', is_Some (K s' caps)).

(** The pair at the leftmost position of [s] that has one. *)
Fixpoint find_pair (s : string) : option (string * string) :=
  match scan_pair s with
  | Some p => Some p
  | None =>
      match s with
      | EmptyString => None
      | String _ s' => find_pair s'
      end
  end.

(** ** Vocabulary for the file names *)

(** Neither a colon nor a space. *)
Definition plain_char (c : ascii) : bool :=
  negb (Ascii.eqb c ":") && negb (Ascii.eqb c " ").

Definition not_colon (c : ascii) : bool := negb (Ascii.eqb c ":").

(** The directory of [p] is there; a path without one lies in the working
    directory. *)
Definition parent_is_dir (f : gmap string node) (p : string) : Prop :=
  match PathLib.parent p with
  | Some d => f !! d = Some Dir
  | None => True
  end.

(** An extracted overlay in its directory. *)
Definition w_png : world :=
  World (<["d" := Dir]> (<["d/a-overlay.png" := File "overlay bytes"]> ∅)) [].

(** ** Vocabulary for the entry loop *)


(** The candidate names of a companion overlay (lines 319-323). *)
Definition possible_overlay_names (saved_path : string) : list string :=
  let stem := PathLib.stem saved_path in
  [PathLib.sibling saved_path (stem ++ "-overlay.png");
   PathLib.sibling saved_path (stem ++ "_overlay.png");
   PathLib.sibling saved_path (stem ++ ".overlay.png")].

(** The world after one more printed line. *)
Definition with_line (w : world) (line : string) : world :=
  World (fs w) (List.app (stdout w) [line]).



Definition w_out : world := World (<["downloaded_media" := Dir]> ∅) [].



(** A downloaded picture with a companion overlay beside it. *)
Definition w_companion : world :=
  World (<["downloaded_media/p-overlay.png" := File "overlay"]>
           (<["downloaded_media/p.jpg" := File "picture"]> (fs w_out))) [].

(** ** Vocabulary for path names *)

Definition not_slash (c : ascii) : bool := negb (Ascii.eqb c PathLib.sep).

(** An archive that unpacks to a main image alone. *)
Definition lone_main_backend : backend :=
  {| ffmpeg := fun _ _ => ExitFail None;
     pil_rgba_png := fun _ => None;
     pil_composite := fun _ _ => None;
     piexif_insert := fun _ _ => None;
     unzip := fun c =>
       if String.eqb c "archive" then Some [("s-main.jpg", "main")] else None;
     is_zipfile := fun c => String.eqb c "archive";
     wget := fun _ _ _ => Broken None;
     json_loads := fun _ => None;
     strptime_fields := fun _ => None |}.

Definition w_lone_extracted : world :=
  World (<["downloaded_media/a_extracted/s-main.jpg" := File "main"]> (fs w_zip_scratch))
    ["Extracted to downloaded_media/a_extracted"].

(** ** Vocabulary for the scan of a directory *)

(** The tests of lines 173-177 on a path, first branch and third. *)
Definition main_name (f : string) : bool :=
  let name := Str.lower (PathLib.name f) in
  is_main_image name || is_main_video name.

Definition overlay_name (f : string) : bool :=
  negb (main_name f) && is_overlay (Str.lower (PathLib.name f)).

(** [f] is an entry of the directory [d]. *)
Definition child_of (fsys : gmap string node) (d f : string) : Prop :=
  PathLib.parent f = Some d /\ is_Some (fsys !! f).

(** The path of the merged output (lines 246-254). *)
Definition merged_path (zip_path out_dir ext : string) : string :=
  PathLib.join out_dir (PathLib.stem zip_path ++ "_merged") ++ ext.

(** A backend on which ffmpeg fails and no image decodes, and a world with
    a video and its overlay. *)
Definition w_video : world :=
  World (<["d/v-main.mp4" := File "video"]> (<["d/v-overlay.png" := File "overlay"]> ∅)) [].



(** ** Vocabulary for the two embedders *)

(** The command line that [embed_gps_mp4] builds (lines 120-135), for the
    timestamp as the conversion block leaves it. *)
Definition mp4_cmd (mp4_path : string) (la lo : Float.pyfloat) (tsv : tsval) : list string :=
  List.app
    (List.app
       [ffmpeg_path; "-y"; "-i"; mp4_path; "-metadata";
        "location=" ++ (fmt_plus6 la ++ fmt_plus6 lo ++ "/"); "-codec"; "copy"]
       match tsv with
       | TsDatetime t => ["-metadata"; "creation_time=" ++ strftime_iso t]
       | _ => []
       end)
    [temp_path_of mp4_path].

(** The tags that [embed_gps_jpg] hands to piexif (lines 78-93). *)
Definition exif_for (la lo : Float.pyfloat) (dla dlo : dms) (tsv : tsval) : exif :=
  Exif (if Float.ge0 la then "N" else "S") dla
       (if Float.ge0 lo then "E" else "W") dlo
       match tsv with
       | TsDatetime t => Some (strftime_exif t)
       | _ => None
       end.

(** The line [embed_gps_jpg] prints when its [try] block fails. *)
Definition jpg_warning (e : exn) : string :=
  "Warning: could not embed EXIF GPS: " ++ exn_text e.

(** A backend whose tools all work. *)
Definition working_backend : backend :=
  {| ffmpeg := fun _ _ => Exit0 "ffmpeg output";
     pil_rgba_png := fun c => Some ("RGBA " ++ c);
     pil_composite := fun m o => Some ("merged " ++ m ++ " " ++ o);
     piexif_insert := fun _ c => Some ("tagged " ++ c);
     unzip := fun _ => None;
     is_zipfile := fun _ => false;
     wget := fun url out _ => Saved (PathLib.join out (PathLib.name url)) ("bytes of " ++ url);
     json_loads := fun _ => None;
     strptime_fields := fun _ => Some (Datetime 2021 10 6 23 9 21) |}.

(** ** Vocabulary for a download that breaks off *)

(** The files after [wget.download] has raised: the temporary file, when
    one is left behind. *)
Definition after_broken (f : gmap string node) (left : option (string * content))
    : gmap string node :=
  match left with
  | Some (tmp, c) =>
      match f !! tmp with
      | Some Dir => f
      | _ => <[tmp := File c]> f
      end
  | None => f
  end.

(** A backend on which every transfer breaks off half way. *)
Definition broken_download_backend : backend :=
  {| ffmpeg := fun _ _ => ExitFail None;
     pil_rgba_png := fun _ => None;
     pil_composite := fun _ _ => None;
     piexif_insert := fun _ _ => None;
     unzip := fun _ => None;
     is_zipfile := fun _ => false;
     wget := fun url _ _ => Broken (Some (PathLib.name url ++ ".k3x9.tmp", "half of " ++ url));
     json_loads := fun _ => None;
     strptime_fields := fun _ => None |}.

(** A backend on which ffmpeg gives up half way and no image decodes. *)
Definition partial_ffmpeg_backend : backend :=
  {| ffmpeg := fun _ _ => ExitFail (Some "half a video");
     pil_rgba_png := fun _ => None;
     pil_composite := fun _ _ => None;
     piexif_insert := fun _ _ => None;
     unzip := fun _ => None;
     is_zipfile := fun _ => false;
     wget := fun _ _ _ => Broken None;
     json_loads := fun _ => None;
     strptime_fields := fun _ => None |}.

(** A backend on which downloads arrive, nothing is an archive, and the
    manifest has the one entry [entry_dated]. *)
Definition dated_backend : backend :=
  {| ffmpeg := fun _ _ => ExitFail None;
     pil_rgba_png := fun _ => None;
     pil_composite := fun _ _ => None;
     piexif_insert := fun _ _ => None;
     unzip := fun _ => None;
     is_zipfile := fun _ => false;
     wget := fun url out _ => Saved (PathLib.join out (PathLib.name url)) ("bytes of " ++ url);
     json_loads := fun c =>
       if String.eqb c "manifest"
       then Some (JDict [("Saved Media", JList [entry_dated])])
       else None;
     strptime_fields := fun _ => None |}.
(** * Theorems *)

(** ** Running the monad *)

Ltac run :=
  unfold mbind, M_bind, mret, M_ret, bind, ret, raise, timeout, try_catch,
    get_fs, set_fs, print, lift in *; simpl in *.

Example nicetime_ex : nicetime "2021-10-06 23:09:21 UTC" = "2021-10-06_23-09-21".
Proof. reflexivity. Qed.

Example new_path_ex :
  new_path "2021-10-06_23-09-21" "downloaded_media/a_merged.jpg"
  = Some "downloaded_media/2021-10-06_23-09-21_a_merged.jpg".
Proof. reflexivity. Qed.

(** A prefix with a separator in it is no name: [with_name] raises. *)
Example new_path_separator :
  new_path (nicetime "2021/10/06 23:09:21 UTC") "downloaded_media/a_merged.jpg" = None.
Proof. reflexivity. Qed.

Example fixed_overlay_path_lower : fixed_overlay_path "d/x-overlay.png" = "d/x-overlay_fixed.png".
Proof. reflexivity. Qed.

Example stem_suffix_ex :
  PathLib.stem "dl/abc.tar.zip" = "abc.tar" /\ PathLib.suffix "dl/abc.tar.zip" = ".zip"
  /\ PathLib.stem "dl/.hidden" = ".hidden" /\ PathLib.stem "x_extracted" = "x_extracted".
Proof. repeat split; reflexivity. Qed.

(** ** Filename normalisation and the rename step *)


(** ** Metadata embedding without a location *)

Lemma embed_gps_jpg_no_location B (p : string) (lat lon : option Float.pyfloat)
    (ts : json) (w : world) :
  lat = None \/ lon = None -> embed_gps_jpg B p lat lon ts w = (Ret tt, w).
Proof.
  intros [-> | ->]; unfold embed_gps_jpg; [reflexivity | destruct lat; reflexivity].
Qed.

Lemma embed_gps_mp4_no_location B (p : string) (lat lon : option Float.pyfloat)
    (ts : json) (w : world) :
  lat = None \/ lon = None -> embed_gps_mp4 B p lat lon ts w = (Ret tt, w).
Proof.
  intros [-> | ->]; unfold embed_gps_mp4; [reflexivity | destruct lat; reflexivity].
Qed.

Lemma get_or_dict (d : list (string * json)) (k1 k2 : string) (default : json) (w : world) :
  get_or (JDict d) k1 k2 default w
  = (Ret (py_or (dict_get d k1 default) (dict_get d k2 default)), w).
Proof.
  unfold get_or, entry_get, py_or. run.
  destruct (truthy (dict_get d k1 default)); reflexivity.
Qed.

Lemma embed_stage_with_no_location (jpg mp4 : embedder) (d : list (string * json))
    (output_path : option string) (ts : json) (w : world) :
  parse_latlon (location_field d) = inr (None, None) ->
  embed_stage_with jpg mp4 (JDict d) output_path ts w = (Ret tt, w).
Proof.
  intros H. unfold embed_stage_with.
  unfold mbind, M_bind, bind. rewrite get_or_dict.
  fold (location_field d). rewrite H. simpl.
  rewrite !andb_false_r. simpl.
  rewrite get_or_dict. fold (location_field d). rewrite H. simpl.
  rewrite !andb_false_r. reflexivity.
Qed.

(** C6.  With [lat] or [lon] absent both embedders return at once and
    leave the world as it is, whatever the path and the timestamp; and for
    an entry whose location field has no parsable pair the metadata stage
    of the orchestrator returns without calling either embedder (the
    result is the same for any two functions in their place), so no file
    is touched and nothing is printed. *)
Theorem C6_no_location_no_embedding :
  (forall B (p : string) (lat lon : option Float.pyfloat) (ts : json) (w : world),
      lat = None \/ lon = None ->
      embed_gps_jpg B p lat lon ts w = (Ret tt, w)
      /\ embed_gps_mp4 B p lat lon ts w = (Ret tt, w))
  /\ (forall (jpg mp4 : embedder) (d : list (string * json)) (output_path : option string)
        (ts : json) (w : world),
        parse_latlon (location_field d) = inr (None, None) ->
        embed_stage_with jpg mp4 (JDict d) output_path ts w = (Ret tt, w))
  /\ (forall B (d : list (string * json)) (output_path : option string)
        (ts : json) (w : world),
        parse_latlon (location_field d) = inr (None, None) ->
        embed_stage B (JDict d) output_path ts w = (Ret tt, w)).
Proof.
  split; [|split].
  - intros. split; [apply embed_gps_jpg_no_location | apply embed_gps_mp4_no_location]; auto.
  - intros. apply embed_stage_with_no_location; auto.
  - intros. apply embed_stage_with_no_location; auto.
Qed.

Lemma C6_no_location_no_embedding_witness :
  embed_gps_jpg quiet_backend "out/a_merged.jpg" None None (JStr "2021-10-06 23:09:21 UTC") w_c9
  = (Ret tt, w_c9)
  /\ embed_stage quiet_backend (JDict [("Location", JStr "Latitude, Longitude: unknown")])
       (Some "downloaded_media/a_merged.jpg") (JStr "2021-10-06 23:09:21 UTC") w_c9
     = (Ret tt, w_c9).
Proof.
  destruct C6_no_location_no_embedding as (H1 & _ & H3). split.
  - apply (H1 quiet_backend "out/a_merged.jpg" None None). left. reflexivity.
  - apply (H3 quiet_backend). reflexivity.
Defined.

(** ** Overlay repair *)

Lemma FixOverlayImage_ok B (p : string) (c c' : content) (w : world) :
  fs w !! p = Some (File c) ->
  pil_rgba_png B c = Some c' ->
  fs w !! fixed_overlay_path p ≠ Some Dir ->
  FixOverlayImage B p w
  = (Ret (fixed_overlay_path p),
     World (<[fixed_overlay_path p := File c']> (fs w))
       (List.app (stdout w) ["Saved fixed overlay: " ++ fixed_overlay_path p])).
Proof.
  intros Hp Hc Hd. unfold FixOverlayImage, read_file, write_file. run.
  rewrite Hp, Hc. simpl.
  destruct (fs w !! fixed_overlay_path p) as [[|]|] eqn:E; try reflexivity.
  congruence.
Qed.

(** C3 (what the code does).  An overlay named [a-overlay.PNG] is taken
    as the overlay by [find_main_and_overlay], whose test lowers the name;
    [fixed_overlay_path] leaves such a path as it is, because the
    replacement of ".png" looks at the letters as written; so
    [FixOverlayImage] returns its argument and writes the re-encoded image
    over the input file. *)
Theorem C3_uppercase_overlay_overwritten :
  classify (None, None) upper_overlay = (None, Some upper_overlay)
  /\ fixed_overlay_path upper_overlay = upper_overlay
  /\ (forall B (c c' : content) (w : world),
        fs w !! upper_overlay = Some (File c) ->
        pil_rgba_png B c = Some c' ->
        exists w',
          FixOverlayImage B upper_overlay w = (Ret upper_overlay, w')
          /\ fs w' !! upper_overlay = Some (File c')).
Proof.
  split; [reflexivity|]. split; [reflexivity|].
  intros B c c' w Hp Hc.
  assert (Hfix : fixed_overlay_path upper_overlay = upper_overlay) by reflexivity.
  eexists. split.
  - rewrite (FixOverlayImage_ok B upper_overlay c c' w Hp Hc).
    + rewrite Hfix. reflexivity.
    + rewrite Hfix, Hp. discriminate.
  - cbn [fs]. apply lookup_insert_eq.
Qed.

Lemma C3_uppercase_overlay_overwritten_witness :
  find_main_and_overlay "downloaded_media/snap_extracted" w_c3
  = (Ret (None, Some upper_overlay), w_c3)
  /\ exists w',
       FixOverlayImage failing_ffmpeg_backend upper_overlay w_c3 = (Ret upper_overlay, w')
       /\ fs w' !! upper_overlay = Some (File "RGBA png bytes").
Proof.
  split; [vm_compute; reflexivity|].
  destruct C3_uppercase_overlay_overwritten as (_ & _ & H).
  apply (H failing_ffmpeg_backend "png bytes" "RGBA png bytes" w_c3); reflexivity.
Defined.

(** ** The retry loop of the video compositor *)

Lemma attempts_app (l1 l2 : list string) :
  attempts (l1 ++ l2) = (attempts l1 + attempts l2)%nat.
Proof. unfold attempts. rewrite List.filter_app, List.length_app. reflexivity. Qed.

Lemma prefix_append (a b : string) : String.prefix a (a ++ b) = true.
Proof.
  induction a as [|c a IH]; simpl; [destruct b; reflexivity|].
  destruct (ascii_dec c c); [exact IH | congruence].
Qed.

Lemma attempts_nil : attempts [] = 0%nat.
Proof. reflexivity. Qed.

Lemma attempts_cons_run (x : string) (l : list string) :
  attempts (("RUN: " ++ x) :: l) = S (attempts l).
Proof.
  unfold attempts. cbn [List.filter]. rewrite prefix_append. reflexivity.
Qed.

Lemma attempts_cons_other (line : string) (l : list string) :
  String.prefix "RUN: " line = false -> attempts (line :: l) = attempts l.
Proof. intros H. unfold attempts. cbn [List.filter]. rewrite H. reflexivity. Qed.

Lemma is_file_insert (f : gmap string node) (p q : string) (c : content) :
  is_file f p -> is_file (<[q := File c]> f) p.
Proof.
  intros [c0 H]. unfold is_file. destruct (decide (q = p)) as [->|Hne].
  - exists c. apply lookup_insert_eq.
  - exists c0. rewrite lookup_insert_ne; auto.
Qed.

Lemma not_dir_insert (f : gmap string node) (p q : string) (c : content) :
  not_dir f p -> not_dir (<[q := File c]> f) p.
Proof.
  unfold not_dir. intros H. destruct (decide (q = p)) as [->|Hne].
  - rewrite lookup_insert_eq. discriminate.
  - rewrite lookup_insert_ne; auto.
Qed.

Lemma bind_print {A} (line : string) (k : M A) (w : world) :
  (print line ≫= fun _ => k) w = k (World (fs w) (List.app (stdout w) [line])).
Proof. reflexivity. Qed.

Lemma bind_ret_eq {A C} (m : M A) (k : A -> M C) (w w1 : world) (a : A) :
  m w = (Ret a, w1) -> (m ≫= k) w = k a w1.
Proof. intros H. unfold mbind, M_bind, bind. rewrite H. reflexivity. Qed.

Lemma bind_exc_eq {A C} (m : M A) (k : A -> M C) (w w1 : world) (e : exn) :
  m w = (Exc e, w1) -> (m ≫= k) w = (Exc e, w1).
Proof. intros H. unfold mbind, M_bind, bind. rewrite H. reflexivity. Qed.

Section AlwaysFailing.
Variable B : backend.
Hypothesis ffmpeg_fails : forall cmd f, exists partial, ffmpeg B cmd f = ExitFail partial.
Hypothesis repair_works : forall c, is_Some (pil_rgba_png B c).

Lemma safe_run_fails (cmd : list string) (w : world) :
  exists f',
    safe_run B cmd w
    = (Exc CalledProcessError,
       World f' (List.app (stdout w)
                   ["RUN: " ++ join_words cmd; "Command failed: CalledProcessError"]))
    /\ (forall p, is_file (fs w) p -> is_file f' p)
    /\ (forall p, not_dir (fs w) p -> not_dir f' p).
Proof.
  unfold safe_run, subprocess_run. run.
  destruct (ffmpeg_fails cmd (fs w)) as [partial Hf]. rewrite Hf.
  destruct (fs w !! List.last cmd EmptyString) as [[c0|]|] eqn:E;
    try destruct partial as [c1|]; simpl;
    eexists; (split; [rewrite <- List.app_assoc; reflexivity|]);
    split; intros p Hp; auto using is_file_insert, not_dir_insert.
Qed.

Lemma overlay_loop_runs_out (main_vid out_vid : string) (n : nat) :
  forall (x : Z) (overlay : string) (w : world),
    (x < AllowedAttemps)%Z ->
    is_file (fs w) overlay ->
    (forall k, not_dir (fs w) (repaired (S k) overlay)) ->
    exists w',
      overlay_loop B n x main_vid overlay out_vid w = (Timeout, w')
      /\ attempts (stdout w') = (attempts (stdout w) + n)%nat.
Proof.
  induction n as [|n IH]; intros x overlay w Hx Hfile Hdirs.
  - exists w. split; [reflexivity | lia].
  - cbn [overlay_loop]. apply Z.ltb_lt in Hx. rewrite Hx. apply Z.ltb_lt in Hx.
    unfold try_catch.
    destruct (safe_run_fails (overlay_cmd main_vid overlay out_vid) w)
      as (f1 & Hrun & Hf1 & Hd1).
    rewrite Hrun. rewrite !bind_print. cbn [fs stdout].
    destruct (Hf1 overlay Hfile) as [c Hc].
    destruct (repair_works c) as [c' Hc'].
    erewrite bind_ret_eq; cycle 1.
    { apply (FixOverlayImage_ok B overlay c c'); cbn [fs]; auto.
      apply Hd1. apply (Hdirs 0%nat). }
    rewrite bind_print. cbn [fs stdout].
    match goal with |- context [overlay_loop B n x main_vid _ out_vid ?w2] =>
      destruct (IH x (fixed_overlay_path overlay) w2) as (w' & Hgo & Hcount)
    end; auto.
    + cbn [fs]. exists c'. apply lookup_insert_eq.
    + intros k. cbn [fs]. apply not_dir_insert. apply Hd1.
      specialize (Hdirs (S k)). unfold repaired in *.
      rewrite Nat.iter_succ_r in Hdirs. exact Hdirs.
    + exists w'. split; [exact Hgo|]. rewrite Hcount. cbn [stdout].
      rewrite <- !List.app_assoc. cbn [List.app].
      rewrite attempts_app, (attempts_cons_run _ _), !attempts_cons_other, attempts_nil
        by reflexivity.
      lia.
Qed.

End AlwaysFailing.

(** C1 (what the code does).  When every ffmpeg run fails and every
    repair succeeds, [ffmpeg_overlay_video] has not returned after [n]
    iterations of its loop, for any [n], and has by then made [n] compose
    attempts: the loop variable never changes, so the bound of 3 is never
    reached. *)
Theorem C1_retry_loop_unbounded B (main_vid overlay out_vid : string) (w : world) (n : nat) :
  (forall cmd f, exists partial, ffmpeg B cmd f = ExitFail partial) ->
  (forall c, is_Some (pil_rgba_png B c)) ->
  is_file (fs w) overlay ->
  (forall k, not_dir (fs w) (repaired (S k) overlay)) ->
  exists w',
    ffmpeg_overlay_video B n main_vid overlay out_vid w = (Timeout, w')
    /\ attempts (stdout w') = (attempts (stdout w) + n)%nat.
Proof.
  intros Hf Hr Hfile Hdirs. unfold ffmpeg_overlay_video.
  apply overlay_loop_runs_out; auto. reflexivity.
Qed.

Lemma w_c1_no_dir (p : string) : not_dir (fs w_c1) p.
Proof.
  unfold not_dir, w_c1. cbn [fs]. rewrite !lookup_insert.
  repeat case_decide; rewrite ?lookup_empty; discriminate.
Qed.

Lemma C1_retry_loop_unbounded_witness :
  exists w',
    ffmpeg_overlay_video failing_ffmpeg_backend 4 "x_extracted/v-main.mp4"
      "x_extracted/v-overlay.png" "x_merged.mp4" w_c1 = (Timeout, w')
    /\ attempts (stdout w') = 4%nat.
Proof.
  apply (C1_retry_loop_unbounded failing_ffmpeg_backend "x_extracted/v-main.mp4"
           "x_extracted/v-overlay.png" "x_merged.mp4" w_c1 4).
  - intros cmd f. exists None. reflexivity.
  - intros c. eexists. reflexivity.
  - exists "overlay". reflexivity.
  - intros k. apply w_c1_no_dir.
Defined.

(** ** Strings: length and append *)

Lemma length_append (a b : string) :
  String.length (a ++ b) = (String.length a + String.length b)%nat.
Proof. induction a as [|c a IH]; simpl; [reflexivity | now rewrite IH]. Qed.

Lemma append_neq_self (a b : string) : b ≠ EmptyString -> a ++ b ≠ a.
Proof.
  intros Hb H. apply (f_equal String.length) in H. rewrite length_append in H.
  destruct b; [congruence | simpl in H; lia].
Qed.

(** ** Video metadata embedding *)

Lemma temp_path_fresh (p : string) : temp_path_of p ≠ p.
Proof. apply append_neq_self. discriminate. Qed.

Lemma strptime_outcome B (s : string) (w : world) :
  (exists t, strptime B s w = (Ret t, w)) \/ strptime B s w = (Exc ValueError, w).
Proof.
  unfold strptime. destruct (four_digits s); [|right; reflexivity].
  destruct (strptime_fields B s); [left; eexists|right]; reflexivity.
Qed.

(** ** One run of ffmpeg *)

Lemma safe_run_exit0 B (cmd : list string) (c : content) (w : world) :
  ffmpeg B cmd (fs w) = Exit0 c ->
  fs w !! List.last cmd EmptyString <> Some Dir ->
  safe_run B cmd w
  = (Ret tt,
     World (<[List.last cmd EmptyString := File c]> (fs w))
       (List.app (stdout w) ["RUN: " ++ join_words cmd])).
Proof.
  intros Hf Hd. unfold safe_run. rewrite bind_print. unfold try_catch, subprocess_run.
  unfold mbind, M_bind, bind, get_fs, set_fs. cbn beta iota. cbn [fs stdout].
  rewrite Hf. destruct (fs w !! List.last cmd EmptyString) as [[c0|]|]; try reflexivity.
  congruence.
Qed.

(** A run that exits with an error: what ffmpeg had written of the output
    stays, and [CalledProcessError] goes up. *)
Lemma safe_run_exitfail B (cmd : list string) (partial : option content) (w : world) :
  ffmpeg B cmd (fs w) = ExitFail partial ->
  fs w !! List.last cmd EmptyString <> Some Dir ->
  safe_run B cmd w
  = (Exc CalledProcessError,
     World match partial with
           | Some c => <[List.last cmd EmptyString := File c]> (fs w)
           | None => fs w
           end
       (List.app (stdout w)
          ["RUN: " ++ join_words cmd; "Command failed: " ++ exn_text CalledProcessError])).
Proof.
  intros Hf Hd. unfold safe_run. rewrite bind_print. unfold try_catch, subprocess_run.
  unfold mbind, M_bind, bind, get_fs, set_fs, raise, print. cbn beta iota. cbn [fs stdout].
  rewrite Hf.
  destruct (fs w !! List.last cmd EmptyString) as [[c0|]|]; try congruence;
    destruct partial as [c1|]; cbn beta iota; cbn [fs stdout];
    rewrite <- List.app_assoc; reflexivity.
Qed.

(** The output path is a directory: the run fails and nothing is written. *)
Lemma safe_run_dir B (cmd : list string) (w : world) :
  fs w !! List.last cmd EmptyString = Some Dir ->
  safe_run B cmd w
  = (Exc CalledProcessError,
     World (fs w)
       (List.app (stdout w)
          ["RUN: " ++ join_words cmd; "Command failed: " ++ exn_text CalledProcessError])).
Proof.
  intros Hd. unfold safe_run. rewrite bind_print. unfold try_catch, subprocess_run.
  unfold mbind, M_bind, bind, get_fs, set_fs, raise, print. cbn beta iota. cbn [fs stdout].
  rewrite Hd. cbn beta iota. cbn [fs stdout]. rewrite <- List.app_assoc. reflexivity.
Qed.

(** ** Video metadata embedding: the [try] block *)

Lemma embed_gps_mp4_unfold B (p : string) (la lo : Float.pyfloat) (ts : json) (w : world) :
  embed_gps_mp4 B p (Some la) (Some lo) ts w
  = match convert_timestamp B ts w with
    | (Ret tsv, w1) =>
        let cmd := [ffmpeg_path; "-y"; "-i"; p; "-metadata";
                    "location=" ++ (fmt_plus6 la ++ fmt_plus6 lo ++ "/"); "-codec"; "copy"] in
        match tsv with
        | TsNone =>
            try_catch
              (print ("Embedding GPS into " ++ p) ≫= fun _ =>
               safe_run B (List.app cmd [temp_path_of p]) ≫= fun _ =>
               os_rename (temp_path_of p) p)
              (fun e => print (mp4_warning e)) w1
        | TsDatetime t =>
            try_catch
              (print ("Embedding GPS into " ++ p) ≫= fun _ =>
               safe_run B
                 (List.app (List.app cmd ["-metadata"; "creation_time=" ++ strftime_iso t])
                    [temp_path_of p]) ≫= fun _ =>
               os_rename (temp_path_of p) p)
              (fun e => print (mp4_warning e)) w1
        | TsOther => print (mp4_warning AttributeError) w1
        end
    | (Exc e, w1) => (Exc e, w1)
    | (Timeout, w1) => (Timeout, w1)
    end.
Proof.
  unfold embed_gps_mp4. unfold mbind at 1. unfold M_bind at 1. unfold bind at 1.
  destruct (convert_timestamp B ts w) as [[tsv| |] w1]; try reflexivity.
  destruct tsv; reflexivity.
Qed.

Lemma convert_timestamp_outcome B (ts : json) (w : world) :
  (exists tsv, convert_timestamp B ts w = (Ret tsv, w))
  \/ (exists s, ts = JStr s /\ strptime B s w = (Exc ValueError, w)
               /\ convert_timestamp B ts w = (Exc ValueError, w)).
Proof.
  destruct ts; try (left; eexists; reflexivity).
  unfold convert_timestamp. run.
  destruct (strptime_outcome B s w) as [[t Ht] | Ht]; rewrite Ht.
  - left. eexists. reflexivity.
  - right. exists s. auto.
Qed.


Lemma mp4_cmd_last (p : string) (la lo : Float.pyfloat) (tsv : tsval) :
  List.last (mp4_cmd p la lo tsv) EmptyString = temp_path_of p.
Proof. unfold mp4_cmd. apply last_last. Qed.

(** With a timestamp that is [None] or a datetime, [embed_gps_mp4] is its
    [try] block on the command line [mp4_cmd]. *)
Lemma embed_gps_mp4_run B (p : string) (la lo : Float.pyfloat) (ts : json) (tsv : tsval)
    (w : world) :
  convert_timestamp B ts w = (Ret tsv, w) ->
  tsv <> TsOther ->
  embed_gps_mp4 B p (Some la) (Some lo) ts w
  = try_catch
      (print ("Embedding GPS into " ++ p) ≫= fun _ =>
       safe_run B (mp4_cmd p la lo tsv) ≫= fun _ =>
       os_rename (temp_path_of p) p)
      (fun e => print (mp4_warning e)) w.
Proof.
  intros Ht Hn. rewrite embed_gps_mp4_unfold, Ht.
  destruct tsv; [reflexivity | reflexivity | congruence].
Qed.

(** C5 (as amended).  On an existing file and with a location, what
    [embed_gps_mp4] does follows the timestamp and the run of ffmpeg.
    With a timestamp that is [None], a datetime, or a string that
    [strptime] takes: when ffmpeg exits with status 0 on the command line
    [mp4_cmd] (input the file, the location and creation-time metadata,
    stream copy, output the temporary sibling path), the function returns
    with the file holding what ffmpeg wrote, the temporary path gone and
    no other path changed; when ffmpeg exits with an error, or the
    temporary path is a directory, the failure is caught, the last line
    printed is the warning, and the file is as before (only the temporary
    path may hold what ffmpeg left).  With a timestamp of another type
    the [AttributeError] is caught the same way and no file changes.  With
    a string that [strptime] rejects, [ValueError] leaves [embed_gps_mp4]
    with the world untouched: that case is not caught. *)
Theorem C5_embed_gps_mp4_outcomes B (p : string) (la lo : Float.pyfloat) (ts : json)
    (c : content) (w : world) :
  fs w !! p = Some (File c) ->
  (forall tsv,
      convert_timestamp B ts w = (Ret tsv, w) ->
      tsv <> TsOther ->
      (forall c',
          fs w !! temp_path_of p <> Some Dir ->
          ffmpeg B (mp4_cmd p la lo tsv) (fs w) = Exit0 c' ->
          exists w',
            embed_gps_mp4 B p (Some la) (Some lo) ts w = (Ret tt, w')
            /\ fs w' !! p = Some (File c')
            /\ fs w' !! temp_path_of p = None
            /\ forall q, q <> p -> q <> temp_path_of p -> fs w' !! q = fs w !! q)
      /\ (fs w !! temp_path_of p = Some Dir
           \/ (exists partial, ffmpeg B (mp4_cmd p la lo tsv) (fs w) = ExitFail partial) ->
          exists w',
            embed_gps_mp4 B p (Some la) (Some lo) ts w = (Ret tt, w')
            /\ fs w' !! p = Some (File c)
            /\ List.last (stdout w') EmptyString = mp4_warning CalledProcessError
            /\ forall q, q <> temp_path_of p -> fs w' !! q = fs w !! q))
  /\ (convert_timestamp B ts w = (Ret TsOther, w) ->
      embed_gps_mp4 B p (Some la) (Some lo) ts w
      = (Ret tt, World (fs w) (List.app (stdout w) [mp4_warning AttributeError])))
  /\ (forall s, ts = JStr s -> strptime B s w = (Exc ValueError, w) ->
        embed_gps_mp4 B p (Some la) (Some lo) ts w = (Exc ValueError, w)).
Proof.
  intros Hp. pose proof (temp_path_fresh p) as Hne. split; [|split].
  - intros tsv Ht Hn. rewrite (embed_gps_mp4_run B p la lo ts tsv w Ht Hn).
    unfold try_catch. rewrite bind_print. split.
    + intros c' Hd Hf.
      erewrite bind_ret_eq
        by (apply (safe_run_exit0 B _ c'); cbn [fs]; rewrite ?mp4_cmd_last; assumption).
      rewrite mp4_cmd_last. unfold os_rename, mbind, M_bind, bind, get_fs, set_fs.
      cbn beta iota. cbn [fs stdout].
      rewrite lookup_insert_eq, lookup_insert_ne, Hp by exact Hne.
      eexists. split; [reflexivity|]. cbn [fs]. split; [apply lookup_insert_eq|]. split.
      * rewrite lookup_insert_ne by auto. apply lookup_delete_eq.
      * intros q Hq1 Hq2. rewrite lookup_insert_ne by auto.
        rewrite lookup_delete_ne by auto. rewrite lookup_insert_ne by auto. reflexivity.
    + intros [Hd | [partial Hf]].
      * erewrite bind_exc_eq
          by (apply safe_run_dir; cbn [fs]; rewrite mp4_cmd_last; exact Hd).
        eexists. split; [reflexivity|]. cbn [fs stdout]. split; [exact Hp|].
        split; [apply last_last | reflexivity].
      * assert (Hdec : fs w !! temp_path_of p = Some Dir \/ fs w !! temp_path_of p <> Some Dir)
          by (destruct (fs w !! temp_path_of p) as [[c0|]|]; auto; right; discriminate).
        destruct Hdec as [Hd | Hd].
        -- erewrite bind_exc_eq
             by (apply safe_run_dir; cbn [fs]; rewrite mp4_cmd_last;
                 exact Hd).
           eexists. split; [reflexivity|]. cbn [fs stdout]. split; [exact Hp|].
           split; [apply last_last | reflexivity].
        -- erewrite bind_exc_eq
             by (apply (safe_run_exitfail B _ partial); cbn [fs];
                 rewrite ?mp4_cmd_last; assumption).
           eexists. split; [reflexivity|]. cbn [fs stdout]. rewrite mp4_cmd_last.
           split; [|split; [apply last_last|]].
           ++ destruct partial; [rewrite lookup_insert_ne by exact Hne|]; exact Hp.
           ++ intros q Hq. destruct partial; [rewrite lookup_insert_ne by auto|]; reflexivity.
  - intros Ht. rewrite embed_gps_mp4_unfold, Ht. reflexivity.
  - intros s -> Hs. rewrite embed_gps_mp4_unfold.
    unfold convert_timestamp. run. rewrite Hs. reflexivity.
Qed.

Lemma C5_embed_gps_mp4_outcomes_witness :
  exists w',
    embed_gps_mp4 working_backend "downloaded_media/v_merged.mp4"
      (Some (py_float "51.5")) (Some (py_float "-0.125")) JNull w_c5 = (Ret tt, w')
    /\ fs w' !! "downloaded_media/v_merged.mp4" = Some (File "ffmpeg output")
    /\ fs w' !! temp_path_of "downloaded_media/v_merged.mp4" = None
    /\ forall q, q <> "downloaded_media/v_merged.mp4" ->
                 q <> temp_path_of "downloaded_media/v_merged.mp4" ->
                 fs w' !! q = fs w_c5 !! q.
Proof.
  refine (proj1 (proj1 (C5_embed_gps_mp4_outcomes working_backend
                          "downloaded_media/v_merged.mp4" (py_float "51.5")
                          (py_float "-0.125") JNull "mp4 bytes" w_c5 _) TsNone _ _)
            "ffmpeg output" _ _).
  - reflexivity.
  - reflexivity.
  - discriminate.
  - vm_compute. discriminate.
  - reflexivity.
Defined.

(** C5 (as stated) fails: a timestamp that does not parse makes
    [embed_gps_mp4] raise [ValueError] to its caller; it does not return
    with a warning. *)
Lemma C5_unparsable_timestamp_raises :
  let r :=
    embed_gps_mp4 quiet_backend "downloaded_media/v_merged.mp4"
      (Some (py_float "51.5")) (Some (py_float "-0.125")) (JStr "yesterday at noon") w_c5 in
  r.1 = Exc ValueError /\ stdout r.2 = [] /\ ~ (exists w', r = (Ret tt, w')).
Proof.
  cbv zeta. split; [vm_compute; reflexivity|]. split; [vm_compute; reflexivity|].
  intros [w' H]. vm_compute in H. discriminate.
Qed.

(** ** Batch isolation *)

Lemma nicetime_of_not_str (v : json) (w : world) :
  (forall s, v ≠ JStr s) -> nicetime_of v w = (Exc AttributeError, w).
Proof. intros H. destruct v; try reflexivity. exfalso. eapply H. reflexivity. Qed.

Lemma finish_entry_no_date B (fuel : nat) (d : list (string * json))
    (saved out_dir : string) (outp : option string) (w1 w2 : world) :
  merge_stage B fuel (JDict d) saved out_dir w1 = (Ret outp, w2) ->
  (forall s, date_field d ≠ JStr s) ->
  finish_entry B fuel (JDict d) saved out_dir w1 = (Exc AttributeError, w2).
Proof.
  intros Hm Hd. unfold finish_entry.
  erewrite bind_ret_eq by exact Hm.
  erewrite bind_ret_eq by apply get_or_dict.
  fold (date_field d).
  erewrite bind_exc_eq; [reflexivity|]. apply nicetime_of_not_str. exact Hd.
Qed.

(** C2 (what the code does).  An entry with a media URL whose download
    and merge stage went through, and whose date field is not a string
    (the field is absent, for one), makes line 351 raise [AttributeError]
    outside every [try]: the [for] loop of [process_json] ends there with
    the exception, in the world the merge stage left, and the entries
    after it are never looked at. *)
Theorem C2_missing_date_aborts_batch B (fuel : nat) (out_dir : string)
    (d : list (string * json)) (rest : list json) (saved : string)
    (outp : option string) (w w1 w2 : world) :
  truthy (media_url_field d) = true ->
  download_stage B (media_url_field d) out_dir w = (Ret (Some saved), w1) ->
  merge_stage B fuel (JDict d) saved out_dir w1 = (Ret outp, w2) ->
  (forall s, date_field d ≠ JStr s) ->
  for_each (JDict d :: rest) (process_entry B fuel out_dir) w = (Exc AttributeError, w2).
Proof.
  intros Hu Hdl Hm Hd. cbn [for_each].
  apply bind_exc_eq. unfold process_entry. fold (media_url_field d).
  rewrite Hu. cbn [negb].
  erewrite bind_ret_eq by exact Hdl.
  eapply finish_entry_no_date; eauto.
Qed.

Lemma C2_missing_date_aborts_batch_witness :
  let w1 := World (<["downloaded_media/a.jpg" := File "bytes of http://cdn/a.jpg"]> (fs w_c2))
              ["Downloading: http://cdn/a.jpg"; "Saved as: downloaded_media/a.jpg"] in
  for_each [JDict entry_no_date; entry_dated]
    (process_entry plain_backend 5 "downloaded_media") w_c2
  = (Exc AttributeError, w1).
Proof.
  cbv zeta.
  match goal with |- _ = (_, ?w1) =>
    apply (C2_missing_date_aborts_batch plain_backend 5 "downloaded_media" entry_no_date
             [entry_dated] "downloaded_media/a.jpg" (Some "downloaded_media/a.jpg")
             w_c2 w1 w1)
  end.
  - reflexivity.
  - reflexivity.
  - vm_compute. reflexivity.
  - intros s. discriminate.
Defined.

(** The whole of [process_json] on a manifest of two entries, the first
    without a date: the run ends with [AttributeError], the second entry
    is not downloaded, and the closing line is not printed. *)
Lemma process_json_aborts_on_missing_date :
  let r := process_json plain_backend 5 "snap_data.json" "downloaded_media" w_c2 in
  r.1 = Exc AttributeError
  /\ stdout r.2 = ["Downloading: http://cdn/a.jpg"; "Saved as: downloaded_media/a.jpg"]
  /\ fs r.2 !! "downloaded_media/b.jpg" = None.
Proof. cbv zeta. repeat split; vm_compute; reflexivity. Qed.

(** ** The archive step *)

Lemma write_file_outcome (p : string) (c : content) (w : world) :
  (fs w !! p = Some Dir /\ write_file p c w = (Exc OSError, w))
  \/ (fs w !! p ≠ Some Dir
      /\ write_file p c w = (Ret tt, World (<[p := File c]> (fs w)) (stdout w))).
Proof.
  unfold write_file. run.
  destruct (fs w !! p) as [[c0|]|] eqn:E; [right|left|right]; split; auto; discriminate.
Qed.

Lemma dir_insert_file (f : gmap string node) (p q : string) (c : content) :
  f !! q ≠ Some Dir -> f !! p = Some Dir -> <[q := File c]> f !! p = Some Dir.
Proof.
  intros Hq Hp. destruct (decide (q = p)) as [->|Hne]; [congruence|].
  rewrite lookup_insert_ne; auto.
Qed.

(** Extraction only adds files: a file stays a file, a directory stays a
    directory, whatever the outcome. *)
Lemma write_members_preserves (extract_dir : string) (ms : list (string * content)) :
  forall (w w' : world) (r : outcome unit),
    write_members extract_dir ms w = (r, w') ->
    (forall p, is_file (fs w) p -> is_file (fs w') p)
    /\ (forall p, fs w !! p = Some Dir -> fs w' !! p = Some Dir)
    /\ r ≠ Timeout.
Proof.
  induction ms as [|[n c] ms IH]; intros w w' r H.
  - inversion H; subst. repeat split; auto; try discriminate.
  - cbn [write_members] in H.
    destruct (write_file_outcome (PathLib.join extract_dir n) c w) as [[Hd Hw] | [Hd Hw]].
    + erewrite bind_exc_eq in H by exact Hw. inversion H; subst.
      repeat split; auto; try discriminate.
    + erewrite bind_ret_eq in H by exact Hw.
      destruct (IH _ _ _ H) as (Hf & Hdir & Ht). cbn [fs] in *.
      repeat split; auto.
      * intros p Hp. apply Hf. apply is_file_insert. exact Hp.
      * intros p Hp. apply Hdir. apply dir_insert_file; auto.
Qed.

Lemma extract_zip_preserves B (zip_path extract_dir : string) (w w' : world)
    (r : outcome unit) :
  extract_zip B zip_path extract_dir w = (r, w') ->
  (forall p, is_file (fs w) p -> is_file (fs w') p)
  /\ (forall p, fs w !! p = Some Dir -> fs w' !! p = Some Dir)
  /\ (r = Ret tt -> is_file (fs w) zip_path).
Proof.
  unfold extract_zip, read_file. intros H. run.
  destruct (fs w !! zip_path) as [[c|]|] eqn:E.
  - destruct (unzip B c) as [ms|].
    + destruct (write_members extract_dir ms w) as [[[]| |] w1] eqn:Ew;
        destruct (write_members_preserves _ _ _ _ _ Ew) as (Hf & Hd & Ht);
        inversion H; subst; clear H; cbn [fs];
        repeat split; auto; try discriminate.
      intros _. exists c. exact E.
    + inversion H; subst. repeat split; auto; try discriminate.
  - inversion H; subst. repeat split; auto; try discriminate.
  - inversion H; subst. repeat split; auto; try discriminate.
Qed.

Lemma prepare_scratch_dir (extract_dir : string) (w w1 : world) :
  prepare_scratch extract_dir w = (Ret tt, w1) -> fs w1 !! extract_dir = Some Dir.
Proof.
  unfold prepare_scratch, path_exists, rmtree, makedirs. run. intros H.
  destruct (bool_decide (is_Some (fs w !! extract_dir))).
  - destruct (fs w !! extract_dir) as [[c|]|]; simpl in H; try discriminate.
    match type of H with context [filter ?P ?m !! ?k] =>
      destruct (filter P m !! k) as [[c|]|]; simpl in H; try discriminate;
      inversion H; subst; apply lookup_insert_eq
    end.
  - simpl in H. destruct (fs w !! extract_dir) as [[c|]|]; simpl in H; try discriminate;
      inversion H; subst; apply lookup_insert_eq.
Qed.

Lemma find_main_and_overlay_dir (d : string) (w : world) :
  fs w !! d = Some Dir -> exists found, find_main_and_overlay d w = (Ret found, w).
Proof.
  intros H. unfold find_main_and_overlay, iterdir. run. rewrite H. simpl.
  eexists. reflexivity.
Qed.

Lemma os_remove_file (p : string) (w : world) :
  is_file (fs w) p -> os_remove p w = (Ret tt, World (delete p (fs w)) (stdout w)).
Proof. intros [c H]. unfold os_remove. run. rewrite H. reflexivity. Qed.

(** C4 (as amended).  Once the scratch directory is ready, the fate of
    the archive follows the extraction.  When [extract_zip] raises,
    [process_zip_file] ends with that exception in the world the
    extraction left, and an archive that was there is still there.  When
    [extract_zip] returns, the archive is removed after the scan and
    before the compose step: what remains of [process_zip_file] is
    [merge_extracted], started in a world without the archive. *)
Theorem C4_archive_removed_only_after_extraction B (fuel : nat) (zip_path out_dir : string)
    (w w1 : world) :
  prepare_scratch (scratch_dir zip_path out_dir) w = (Ret tt, w1) ->
  (forall e w2,
      extract_zip B zip_path (scratch_dir zip_path out_dir) w1 = (Exc e, w2) ->
      process_zip_file B fuel zip_path out_dir w = (Exc e, w2)
      /\ (is_file (fs w1) zip_path -> is_file (fs w2) zip_path))
  /\ (forall w2,
        extract_zip B zip_path (scratch_dir zip_path out_dir) w1 = (Ret tt, w2) ->
        exists found,
          let w3 := World (delete zip_path (fs w2)) (stdout w2) in
          fs w3 !! zip_path = None
          /\ process_zip_file B fuel zip_path out_dir w
             = merge_extracted B fuel zip_path out_dir (scratch_dir zip_path out_dir) found w3).
Proof.
  intros Hprep. split.
  - intros e w2 He. split.
    + unfold process_zip_file. cbv zeta.
      erewrite bind_ret_eq by exact Hprep.
      erewrite bind_exc_eq by exact He. reflexivity.
    + destruct (extract_zip_preserves _ _ _ _ _ _ He) as (Hf & _ & _). apply Hf.
  - intros w2 He.
    destruct (extract_zip_preserves _ _ _ _ _ _ He) as (Hf & Hd & Hz).
    specialize (Hz eq_refl).
    pose proof (Hd _ (prepare_scratch_dir _ _ _ Hprep)) as Hdir.
    destruct (find_main_and_overlay_dir _ _ Hdir) as [found Hfound].
    exists found. cbv zeta. split.
    + cbn [fs]. apply lookup_delete_eq.
    + unfold process_zip_file. cbv zeta.
      erewrite bind_ret_eq by exact Hprep.
      erewrite bind_ret_eq by exact He.
      erewrite bind_ret_eq by exact Hfound.
      erewrite bind_ret_eq by (apply os_remove_file; apply Hf; exact Hz).
      reflexivity.
Qed.

Lemma C4_archive_removed_only_after_extraction_witness :
  exists found,
    fs w_zip_extracted !! "downloaded_media/a.zip" = Some (File "archive")
    /\ process_zip_file zip_backend 5 "downloaded_media/a.zip" "downloaded_media" w_zip
       = merge_extracted zip_backend 5 "downloaded_media/a.zip" "downloaded_media"
           (scratch_dir "downloaded_media/a.zip" "downloaded_media") found
           (World (delete "downloaded_media/a.zip" (fs w_zip_extracted))
              (stdout w_zip_extracted)).
Proof.
  destruct (C4_archive_removed_only_after_extraction zip_backend 5
              "downloaded_media/a.zip" "downloaded_media" w_zip w_zip_scratch) as [_ H].
  - vm_compute. reflexivity.
  - destruct (H w_zip_extracted) as (found & _ & Hrun).
    + vm_compute. reflexivity.
    + exists found. split; [vm_compute; reflexivity | exact Hrun].
Defined.

(** C4 (as stated) fails: on a download that is not an archive
    [extract_zip] raises, [process_zip_file] ends with that exception, and
    the file is still there. *)
Lemma C4_archive_kept_when_extraction_fails :
  let r := process_zip_file quiet_backend 5 "downloaded_media/a.zip" "downloaded_media" w_c4 in
  r.1 = Exc BadZipFile
  /\ fs r.2 !! "downloaded_media/a.zip" = Some (File "not an archive").
Proof. cbv zeta. split; vm_compute; reflexivity. Qed.

(** The whole step on a good archive: the merged image is written, the
    archive and the scratch directory are gone. *)
Example process_zip_file_image :
  let r := process_zip_file zip_backend 5 "downloaded_media/a.zip" "downloaded_media" w_zip in
  r.1 = Ret (Some "downloaded_media/a_merged.jpg")
  /\ fs r.2 !! "downloaded_media/a_merged.jpg" = Some (File "merged main overlay")
  /\ fs r.2 !! "downloaded_media/a.zip" = None
  /\ fs r.2 !! "downloaded_media/a_extracted" = None
  /\ fs r.2 !! "downloaded_media/a_extracted/s-main.jpg" = None.
Proof. cbv zeta. repeat split; vm_compute; reflexivity. Qed.

(** ** The reconciliation sweep *)

Lemma keeps_dirs_ret {A} (a : A) : keeps_dirs (ret a).
Proof. intros w r w' H p Hp. inversion H; subst. exact Hp. Qed.

Lemma keeps_dirs_raise {A} (e : exn) : keeps_dirs (@raise A e).
Proof. intros w r w' H p Hp. inversion H; subst. exact Hp. Qed.

Lemma keeps_dirs_timeout {A} : keeps_dirs (@timeout A).
Proof. intros w r w' H p Hp. inversion H; subst. exact Hp. Qed.

Lemma keeps_dirs_print (line : string) : keeps_dirs (print line).
Proof. intros w r w' H p Hp. inversion H; subst. exact Hp. Qed.

Lemma keeps_dirs_bind {A C} (m : M A) (k : A -> M C) :
  keeps_dirs m -> (forall a, keeps_dirs (k a)) -> keeps_dirs (m ≫= k).
Proof.
  intros Hm Hk w r w' H p Hp. unfold mbind, M_bind, bind in H.
  destruct (m w) as [[a|e|] w1] eqn:E.
  - eapply Hk; [exact H|]. eapply Hm; eauto.
  - inversion H; subst. eapply Hm; eauto.
  - inversion H; subst. eapply Hm; eauto.
Qed.

Lemma keeps_dirs_try {A} (m : M A) (h : exn -> M A) :
  keeps_dirs m -> (forall e, keeps_dirs (h e)) -> keeps_dirs (try_catch m h).
Proof.
  intros Hm Hh w r w' H p Hp. unfold try_catch in H.
  destruct (m w) as [[a|e|] w1] eqn:E.
  - inversion H; subst. eapply Hm; eauto.
  - eapply Hh; [exact H|]. eapply Hm; eauto.
  - inversion H; subst. eapply Hm; eauto.
Qed.

Lemma keeps_dirs_read_file (p : string) : keeps_dirs (read_file p).
Proof.
  intros w r w' H q Hq. unfold read_file in H. run.
  destruct (fs w !! p) as [[c|]|]; inversion H; subst; exact Hq.
Qed.

Lemma keeps_dirs_write_file (p : string) (c : content) : keeps_dirs (write_file p c).
Proof.
  intros w r w' H q Hq.
  destruct (write_file_outcome p c w) as [[Hd Hw] | [Hd Hw]];
    rewrite Hw in H; inversion H; subst; cbn [fs]; auto using dir_insert_file.
Qed.

Lemma keeps_dirs_subprocess_run B (cmd : list string) : keeps_dirs (subprocess_run B cmd).
Proof.
  intros w r w' H q Hq. unfold subprocess_run in H. run.
  destruct (fs w !! List.last cmd EmptyString) as [[c|]|] eqn:E;
    try (inversion H; subst; exact Hq);
    destruct (ffmpeg B cmd (fs w)) as [c1|[c1|]]; inversion H; subst; cbn [fs]; auto;
    apply dir_insert_file; auto; rewrite E; discriminate.
Qed.

Lemma keeps_dirs_safe_run B (cmd : list string) : keeps_dirs (safe_run B cmd).
Proof.
  unfold safe_run. apply keeps_dirs_bind; [apply keeps_dirs_print|]. intros _.
  apply keeps_dirs_try; [apply keeps_dirs_subprocess_run|].
  intros e. destruct e; try apply keeps_dirs_raise.
  apply keeps_dirs_bind; [apply keeps_dirs_print | intros; apply keeps_dirs_raise].
Qed.

Lemma keeps_dirs_FixOverlayImage B (p : string) : keeps_dirs (FixOverlayImage B p).
Proof.
  unfold FixOverlayImage.
  apply keeps_dirs_bind; [apply keeps_dirs_read_file|]. intros c.
  apply keeps_dirs_bind.
  - destruct (pil_rgba_png B c); [apply keeps_dirs_write_file | apply keeps_dirs_raise].
  - intros _. apply keeps_dirs_bind; [apply keeps_dirs_print | intros; apply keeps_dirs_ret].
Qed.

Lemma keeps_dirs_overlay_loop B (main_vid out_vid : string) (fuel : nat) :
  forall (x : Z) (overlay : string), keeps_dirs (overlay_loop B fuel x main_vid overlay out_vid).
Proof.
  induction fuel as [|fuel IH]; intros x overlay; cbn [overlay_loop].
  - apply keeps_dirs_timeout.
  - destruct (x <? AllowedAttemps)%Z; [|apply keeps_dirs_ret].
    apply keeps_dirs_try; [apply keeps_dirs_safe_run|]. intros e.
    repeat (apply keeps_dirs_bind; [apply keeps_dirs_print|]; intros _).
    apply keeps_dirs_bind; [apply keeps_dirs_FixOverlayImage|]. intros o.
    apply keeps_dirs_bind; [apply keeps_dirs_print|]. intros _. apply IH.
Qed.

Lemma keeps_dirs_overlay_image B (m o out : string) : keeps_dirs (overlay_image B m o out).
Proof.
  unfold overlay_image.
  apply keeps_dirs_bind; [apply keeps_dirs_read_file|]. intros cm.
  apply keeps_dirs_bind.
  { apply keeps_dirs_try; [apply keeps_dirs_read_file|]. intros e.
    destruct (pil_rgba_png B cm); apply keeps_dirs_raise. }
  intros co.
  destruct (pil_composite B cm co); [apply keeps_dirs_write_file | apply keeps_dirs_raise].
Qed.

Lemma find_main_and_overlay_outcome (d : string) (w w' : world)
    (found : option string * option string) :
  find_main_and_overlay d w = (Ret found, w') -> w' = w /\ fs w !! d = Some Dir.
Proof.
  unfold find_main_and_overlay, iterdir. run. intros H.
  destruct (fs w !! d) as [[c|]|] eqn:E; simpl in H; inversion H; subst; auto.
Qed.

(** A directory that [compose_leftover] has merged is still a directory. *)
Lemma compose_leftover_keeps_subdir B (fuel : nat) (outdir subdir : string)
    (outp : option string) (w w1 : world) :
  compose_leftover B fuel outdir subdir w = (Ret (Some outp), w1) ->
  fs w1 !! subdir = Some Dir.
Proof.
  unfold compose_leftover. rewrite bind_print. intros H.
  unfold mbind at 1, M_bind at 1, bind at 1 in H.
  match type of H with context [find_main_and_overlay subdir ?w0] =>
    remember w0 as wp eqn:Hwp; clear Hwp
  end.
  destruct (find_main_and_overlay subdir wp) as [[found| |] w2] eqn:Ef; try discriminate.
  destruct (find_main_and_overlay_outcome _ _ _ _ Ef) as [-> Hdir].
  assert (Hk : forall (m : M (option (option string))), keeps_dirs m ->
                 m wp = (Ret (Some outp), w1) -> fs w1 !! subdir = Some Dir).
  { intros m Hm Hrun. eapply Hm; [exact Hrun|]. exact Hdir. }
  destruct found as [[main|] [overlay|]];
    try (rewrite bind_print in H; inversion H; fail).
  destruct (Str.truthy main && Str.truthy overlay);
    [|rewrite bind_print in H; inversion H].
  destruct (in_list (Str.lower (PathLib.suffix main)) image_exts).
  - eapply Hk; [|exact H].
    apply keeps_dirs_bind; [apply keeps_dirs_overlay_image|]. intros _.
    apply keeps_dirs_bind; [apply keeps_dirs_print | intros; apply keeps_dirs_ret].
  - eapply Hk; [|exact H].
    apply keeps_dirs_bind; [apply keeps_dirs_overlay_loop|]. intros _.
    apply keeps_dirs_bind; [apply keeps_dirs_print | intros; apply keeps_dirs_ret].
Qed.

Lemma entry_matches_false (needle : string) (entry : json) :
  no_field_contains needle entry -> entry_matches needle entry = false.
Proof.
  intros H. destruct entry as [| | | |l|d]; try reflexivity.
  cbn [entry_matches]. apply not_true_is_false. intros Hex.
  apply existsb_exists in Hex. destruct Hex as ([k v] & Hin & Hm).
  destruct v; try discriminate. cbn in Hm.
  rewrite (H d k s eq_refl Hin) in Hm. discriminate.
Qed.

Lemma find_no_match (needle : string) (l : list json) :
  Forall (no_field_contains needle) l -> List.find (entry_matches needle) l = None.
Proof.
  induction 1 as [|e l He Hl IH]; [reflexivity|].
  cbn [List.find]. rewrite entry_matches_false by exact He. exact IH.
Qed.

Lemma FindInJSON_no_match B (json_path needle : string) (data : json) (l : list json)
    (w : world) :
  load_saved_media B json_path w = (Ret data, w) ->
  iter_json data w = (Ret l, w) ->
  Forall (no_field_contains needle) l ->
  FindInJSON B json_path needle w = (Ret JNull, w).
Proof.
  intros Hload Hiter Hall. unfold FindInJSON.
  erewrite bind_ret_eq by exact Hload.
  erewrite bind_ret_eq by exact Hiter.
  rewrite find_no_match by exact Hall. reflexivity.
Qed.

(** C10.  Take a leftover directory that the sweep has merged
    ([compose_leftover] returned an output) and a manifest none of whose
    entries has a string field containing the stripped name of the
    directory, letter case aside.  Then [FindInJSON] returns [None];
    reading the date of that value raises [AttributeError], which nothing
    catches: the loop of [FixRemaining] ends with it in the world the
    merge left, so the directories after this one are not processed and
    this one is still there, whatever [noDelete] says. *)
Theorem C10_unmatched_leftover_aborts_sweep B (fuel : nat) (outdir : string)
    (noDelete : bool) (subdir : string) (rest : list string) (outp : option string)
    (data : json) (l : list json) (w w1 : world) :
  compose_leftover B fuel outdir subdir w = (Ret (Some outp), w1) ->
  load_saved_media B "snap_data.json" w1 = (Ret data, w1) ->
  iter_json data w1 = (Ret l, w1) ->
  Forall (no_field_contains (stripped_name subdir)) l ->
  FindInJSON B "snap_data.json" (stripped_name subdir) w1 = (Ret JNull, w1)
  /\ for_each (subdir :: rest) (fix_one B fuel outdir noDelete) w = (Exc AttributeError, w1)
  /\ fs w1 !! subdir = Some Dir.
Proof.
  intros Hc Hload Hiter Hall.
  pose proof (FindInJSON_no_match B _ _ _ _ _ Hload Hiter Hall) as Hfind.
  split; [exact Hfind|]. split.
  - cbn [for_each]. apply bind_exc_eq. unfold fix_one.
    erewrite bind_ret_eq by exact Hc. unfold embed_leftover.
    erewrite bind_ret_eq by exact Hfind.
    apply bind_exc_eq. reflexivity.
  - eapply compose_leftover_keeps_subdir. exact Hc.
Qed.

Lemma C10_unmatched_leftover_aborts_sweep_witness :
  for_each ["downloaded_media/a1_extracted"; "downloaded_media/b2_extracted"]
    (fix_one sweep_backend 5 "downloaded_media" false) w_sweep
  = (Exc AttributeError, w_sweep_merged)
  /\ fs w_sweep_merged !! "downloaded_media/a1_extracted" = Some Dir.
Proof.
  destruct (C10_unmatched_leftover_aborts_sweep sweep_backend 5 "downloaded_media" false
              "downloaded_media/a1_extracted" ["downloaded_media/b2_extracted"]
              (Some "downloaded_media/a1_merged.jpg") sweep_manifest
              [sweep_entry] w_sweep w_sweep_merged)
    as (_ & Hrun & Hdir).
  - vm_compute. reflexivity.
  - vm_compute. reflexivity.
  - reflexivity.
  - constructor; [|constructor]. intros d k s Hd Hin. inversion Hd; subst d.
    destruct Hin as [Hin | [Hin | []]]; inversion Hin; subst; reflexivity.
  - split; [exact Hrun | exact Hdir].
Defined.

(** The sweep as the script runs it on two leftover directories, the
    first of which has no manifest entry: it stops at the first. *)
Example FixRemaining_stops_at_unmatched :
  let r := FixRemaining sweep_backend 5 "downloaded_media" false w_sweep in
  r.1 = Exc AttributeError
  /\ stdout r.2
     = ["Found 2 leftover extracted directories in downloaded_media.";
        "Processing leftover directory: downloaded_media/a1_extracted";
        "Created merged image: downloaded_media/a1_merged.jpg"]
  /\ fs r.2 !! "downloaded_media/a1_extracted" = Some Dir
  /\ fs r.2 !! "downloaded_media/b2_merged.jpg" = None.
Proof. cbv zeta. repeat split; vm_compute; reflexivity. Qed.

(** ** Rounding *)

Section Rounding.
Local Open Scope Q_scope.

Lemma inject_Z_succ (z : Z) : inject_Z (z + 1) == inject_Z z + 1.
Proof. rewrite inject_Z_plus. reflexivity. Qed.

(** The nearest integer is within one half. *)
Lemma round_half_even_bound (q : Q) :
  q - (1 # 2) <= inject_Z (Float.round_half_even q)
  /\ inject_Z (Float.round_half_even q) <= q + (1 # 2).
Proof.
  unfold Float.round_half_even.
  pose proof (Qfloor_le q) as Hlo. pose proof (Qlt_floor q) as Hhi.
  rewrite inject_Z_succ in Hhi.
  destruct (Qcompare (q - inject_Z (Qfloor q)) (1 # 2)) eqn:E.
  - apply Qeq_alt in E.
    destruct (Z.even (Qfloor q)); rewrite ?inject_Z_succ; split; lra.
  - apply Qlt_alt in E. split; lra.
  - apply Qgt_alt in E. rewrite inject_Z_succ. split; lra.
Qed.

Lemma round_half_even_nonneg (q : Q) : 0 <= q -> (0 <= Float.round_half_even q)%Z.
Proof.
  intros Hq. unfold Float.round_half_even.
  assert (Hf : (0 <= Qfloor q)%Z).
  { change 0%Z with (Qfloor 0). apply Qfloor_resp_le. exact Hq. }
  destruct (Qcompare (q - inject_Z (Qfloor q)) (1 # 2)); [destruct (Z.even (Qfloor q))| |]; lia.
Qed.

Lemma pow1074_pos : 0 < inject_Z (2 ^ 1074).
Proof. reflexivity. Qed.

(** Rounding a non-negative rational to a float: the result is not
    negative and lies within the relative error 2^-53, or within 2^-100
    where the result is subnormal. *)
Lemma rnd_nonneg_bound (x : Q) :
  0 <= x ->
  0 <= Float.rnd_nonneg x
  /\ x - (x * u53 + tiny) <= Float.rnd_nonneg x
  /\ Float.rnd_nonneg x <= x + (x * u53 + tiny).
Proof.
  intros Hx. unfold Float.rnd_nonneg.
  set (K := inject_Z (2 ^ 1074)).
  assert (HK : 0 < K) by apply pow1074_pos.
  assert (Hc : 0 <= / K) by (apply Qlt_le_weak, Qinv_lt_0_compat, HK).
  assert (Hct : / K * (1 # 2) <= tiny) by (vm_compute; discriminate).
  assert (HXx : x * K * / K == x) by (field; lra).
  assert (HX0 : 0 <= x * K) by (apply Qmult_le_0_compat; lra).
  destruct (Qfloor (x * K) <? 2 ^ 53)%Z eqn:En; rewrite Qred_correct; unfold Qdiv.
  - destruct (round_half_even_bound (x * K)) as [Hlo Hhi].
    pose proof (round_half_even_nonneg (x * K) HX0) as Hm.
    apply (Qmult_le_compat_r _ _ (/ K)) in Hlo; [|exact Hc].
    apply (Qmult_le_compat_r _ _ (/ K)) in Hhi; [|exact Hc].
    assert (Hxu : 0 <= x * u53) by (apply Qmult_le_0_compat; [lra | discriminate]).
    split; [|split].
    + apply Qmult_le_0_compat; [|exact Hc]. change 0 with (inject_Z 0).
      rewrite <- Zle_Qle. exact Hm.
    + lra.
    + lra.
  - apply Z.ltb_ge in En.
    set (n := Qfloor (x * K)) in *.
    set (t := (Z.log2 n - 52)%Z).
    assert (Hn : (0 < n)%Z) by lia.
    assert (Hlog : (53 <= Z.log2 n)%Z).
    { change 53%Z with (Z.log2 (2 ^ 53)). apply Z.log2_le_mono. exact En. }
    assert (Ht : (0 <= t)%Z) by (unfold t; lia).
    assert (HP : (0 < 2 ^ t)%Z) by (apply Z.pow_pos_nonneg; lia).
    assert (Hsplit : (2 ^ Z.log2 n = 2 ^ t * 2 ^ 52)%Z).
    { rewrite <- Z.pow_add_r by lia. f_equal. unfold t. lia. }
    assert (HPn : inject_Z (2 ^ t) * inject_Z (2 ^ 52) <= x * K).
    { rewrite <- inject_Z_mult, <- Hsplit.
      apply Qle_trans with (inject_Z n); [|apply Qfloor_le].
      rewrite <- Zle_Qle. apply Z.log2_spec. exact Hn. }
    assert (HPq : 0 < inject_Z (2 ^ t)).
    { change 0 with (inject_Z 0). rewrite <- Zlt_Qlt. exact HP. }
    set (P := inject_Z (2 ^ t)) in *.
    set (Y := x * K * / P).
    assert (HY : Y * P == x * K) by (unfold Y; field; lra).
    assert (HY0 : 0 <= Y).
    { unfold Y. apply Qmult_le_0_compat; [exact HX0|].
      apply Qlt_le_weak, Qinv_lt_0_compat, HPq. }
    destruct (round_half_even_bound Y) as [Hlo Hhi].
    pose proof (round_half_even_nonneg Y HY0) as Hm.
    apply (Qmult_le_compat_r _ _ P) in Hlo; [|lra].
    apply (Qmult_le_compat_r _ _ P) in Hhi; [|lra].
    rewrite inject_Z_mult. fold P.
    set (m := inject_Z (Float.round_half_even Y)) in *.
    assert (Hm0 : 0 <= m).
    { unfold m. change 0 with (inject_Z 0). rewrite <- Zle_Qle. exact Hm. }
    assert (HmP : 0 <= m * P) by (apply Qmult_le_0_compat; lra).
    assert (Hlo' : (x * K - P * (1 # 2)) * / K <= m * P * / K).
    { apply Qmult_le_compat_r; [lra | exact Hc]. }
    assert (Hhi' : m * P * / K <= (x * K + P * (1 # 2)) * / K).
    { apply Qmult_le_compat_r; [lra | exact Hc]. }
    assert (Hrel : P * (1 # 2) * / K <= x * K * / K * u53).
    { assert (Heq : x * K * / K * u53 == x * K * u53 * / K) by ring.
      rewrite Heq.
      apply Qmult_le_compat_r; [|exact Hc].
      change (inject_Z (2 ^ 52)) with (4503599627370496 # 1) in HPn.
      unfold u53. lra. }
    split; [|split].
    + apply Qmult_le_0_compat; [exact HmP | exact Hc].
    + assert (0 <= tiny) by discriminate. unfold u53 in *. lra.
    + assert (0 <= tiny) by discriminate. unfold u53 in *. lra.
Qed.

Lemma rnd_bound (x : Q) :
  0 <= x ->
  0 <= Float.rnd x
  /\ x - (x * u53 + tiny) <= Float.rnd x
  /\ Float.rnd x <= x + (x * u53 + tiny).
Proof.
  intros Hx. unfold Float.rnd.
  apply Qle_bool_iff in Hx. rewrite Hx. apply Qle_bool_iff in Hx.
  apply rnd_nonneg_bound. exact Hx.
Qed.

End Rounding.

(** ** DMS conversion *)

Section DMS.
Local Open Scope Q_scope.

Lemma frac_bounds (a : Q) : 0 <= a - inject_Z (Qfloor a) /\ a - inject_Z (Qfloor a) < 1.
Proof.
  pose proof (Qfloor_le a) as Hlo. pose proof (Qlt_floor a) as Hhi.
  rewrite inject_Z_succ in Hhi. split; lra.
Qed.

(** In exact arithmetic the triple is within the rounding of the
    seconds. *)
Lemma deg_to_dms_exact_error (d : Q) : dms_error d (deg_to_dms_exact d) <= 1 # 720000.
Proof.
  unfold dms_error, deg_to_dms_exact, dms_value.
  set (a := Qabs d).
  destruct (frac_bounds a) as [Hf0 Hf1].
  set (deg := inject_Z (Qfloor a)) in *.
  destruct (frac_bounds ((a - deg) * 60)) as [Hm0 Hm1].
  set (minutes := inject_Z (Qfloor ((a - deg) * 60))) in *.
  destruct (round_half_even_bound (((a - deg) * 60 - minutes) * 60 * 100)) as [Hlo Hhi].
  set (sec := inject_Z (Float.round_half_even (((a - deg) * 60 - minutes) * 60 * 100))) in *.
  change (inject_Z 1) with 1. change (inject_Z 100) with (100 # 1).
  unfold Qdiv. cbn [Qinv Qnum Qden].
  clearbody sec minutes deg a.
  apply Qabs_Qle_condition. split; lra.
Qed.

(** With float operations each product and difference adds its own
    rounding error. *)
Lemma deg_to_dms_fin_error (d : Q) :
  dms_error d (deg_to_dms_fin d) <= (1 # 720000) + slack.
Proof.
  unfold dms_error, deg_to_dms_fin, dms_value, int_of_float.
  set (a := Qabs d).
  destruct (frac_bounds a) as [Hf0 Hf1].
  set (deg := inject_Z (Qfloor a)) in *.
  destruct (rnd_bound (a - deg) Hf0) as (H0 & H0lo & H0hi).
  set (f0 := Float.rnd (a - deg)) in *.
  assert (Hp1 : 0 <= f0 * 60) by lra.
  destruct (rnd_bound (f0 * 60) Hp1) as (H1 & H1lo & H1hi).
  set (m1 := Float.rnd (f0 * 60)) in *.
  destruct (frac_bounds m1) as [Hg0 Hg1].
  set (minutes := inject_Z (Qfloor m1)) in *.
  destruct (rnd_bound (m1 - minutes) Hg0) as (H2 & H2lo & H2hi).
  set (g0 := Float.rnd (m1 - minutes)) in *.
  assert (Hp3 : 0 <= g0 * 60) by lra.
  destruct (rnd_bound (g0 * 60) Hp3) as (H3 & H3lo & H3hi).
  set (s1 := Float.rnd (g0 * 60)) in *.
  assert (Hp4 : 0 <= s1 * 100) by lra.
  destruct (rnd_bound (s1 * 100) Hp4) as (H4 & H4lo & H4hi).
  set (s2 := Float.rnd (s1 * 100)) in *.
  destruct (round_half_even_bound s2) as [Hlo Hhi].
  set (sec := inject_Z (Float.round_half_even s2)) in *.
  change (inject_Z 1) with 1. change (inject_Z 100) with (100 # 1).
  unfold Qdiv. cbn [Qinv Qnum Qden].
  unfold u53, tiny, slack in *.
  clearbody sec s2 s1 g0 minutes m1 f0 deg a.
  apply Qabs_Qle_condition. split; lra.
Qed.

End DMS.

(** C8 (as amended).  For every degree value the returned triple, read
    as [deg + min/60 + (sec/100)/3600], is within 1/720000 + 2^-51 of the
    absolute value of the input: 1/720000 for the rounding of the seconds
    to two decimal places, the rest for the float operations before it.
    Were the arithmetic exact, 1/720000 alone would do. *)
Theorem C8_dms_round_trip :
  (forall d : Q,
      exists t, deg_to_dms_rational (Float.Fin d) = inr t
                /\ (dms_error d t <= (1 # 720000) + slack)%Q)
  /\ (forall d : Q, (dms_error d (deg_to_dms_exact d) <= 1 # 720000)%Q).
Proof.
  split.
  - intros d. exists (deg_to_dms_fin d). split; [reflexivity|].
    apply deg_to_dms_fin_error.
  - apply deg_to_dms_exact_error.
Qed.

(** C8 (as stated) fails: on the float 0x1.d208a5a912e32p-18 the code
    returns 0 degrees, 0 minutes and 2/100 seconds, and the triple is more
    than 1/720000 away from the input. *)
Lemma C8_bound_exceeded_on_a_float :
  Float.is_double d_tie = true
  /\ deg_to_dms_rational (Float.Fin d_tie) = inr ((0, 1), (0, 1), (2, 100))%Z
  /\ ~ (dms_error d_tie ((0, 1), (0, 1), (2, 100))%Z <= 1 # 720000)%Q.
Proof.
  split; [vm_compute; reflexivity|]. split; [vm_compute; reflexivity|].
  apply Qlt_not_le. vm_compute. reflexivity.
Qed.

(** The conversion on two everyday coordinates. *)
Example deg_to_dms_london :
  deg_to_dms_rational (py_float "51.507") = inr ((51, 1), (30, 1), (2520, 100))%Z
  /\ deg_to_dms_rational (py_float "-123.4567") = inr ((123, 1), (27, 1), (2412, 100))%Z.
Proof. split; vm_compute; reflexivity. Qed.

(** ** Strings: append, take, span *)

Lemma append_cons (x : ascii) (a b : string) : String x a ++ b = String x (a ++ b).
Proof. reflexivity. Qed.

Lemma append_nil_l (b : string) : EmptyString ++ b = b.
Proof. reflexivity. Qed.

Lemma append_assoc (a b c : string) : (a ++ b) ++ c = a ++ (b ++ c).
Proof.
  induction a as [|x a IH]; [reflexivity|]. rewrite !append_cons. f_equal. exact IH.
Qed.

Lemma append_nil_r (a : string) : a ++ EmptyString = a.
Proof.
  induction a as [|x a IH]; [reflexivity|]. rewrite append_cons. f_equal. exact IH.
Qed.

Lemma take_append_length (a r : string) :
  Str.take (String.length (a ++ r) - String.length r) (a ++ r) = a.
Proof.
  rewrite length_append.
  replace (String.length a + String.length r - String.length r)%nat
    with (String.length a) by lia.
  induction a as [|x a IH].
  - destruct r; reflexivity.
  - rewrite append_cons. cbn [String.length Str.take]. f_equal. exact IH.
Qed.

Lemma all_chars_append (p : ascii -> bool) (a b : string) :
  all_chars p (a ++ b) = all_chars p a && all_chars p b.
Proof.
  induction a as [|x a IH]; [reflexivity|].
  rewrite append_cons. cbn [all_chars]. rewrite IH. now destruct (p x).
Qed.

Lemma span_spec (p : ascii -> bool) (s : string) :
  s = (span p s).1 ++ (span p s).2
  /\ all_chars p (span p s).1 = true
  /\ starts_with p (span p s).2 = false.
Proof.
  induction s as [|c s IH]; [repeat split; reflexivity|].
  cbn [span]. destruct (p c) eqn:E.
  - destruct (span p s) as [a r]. cbn [fst snd all_chars] in *.
    destruct IH as (H1 & H2 & H3).
    rewrite E, H2, append_cons, <- H1. repeat split; auto.
  - cbn [fst snd all_chars starts_with]. rewrite E. repeat split; reflexivity.
Qed.

Lemma span_unique (p : ascii -> bool) (a r : string) :
  all_chars p a = true -> starts_with p r = false -> span p (a ++ r) = (a, r).
Proof.
  intros Ha Hr. induction a as [|c a IH].
  - rewrite append_nil_l. destruct r as [|c r]; simpl in *; [reflexivity|]. now rewrite Hr.
  - rewrite append_cons. cbn [all_chars span] in *.
    apply andb_true_iff in Ha. destruct Ha as [Hc Ha].
    rewrite Hc, (IH Ha). reflexivity.
Qed.

(** ** Character classes *)

Lemma digit_not_dot (c : ascii) : is_digit c = true -> Ascii.eqb c "." = false.
Proof.
  destruct c as [[] [] [] [] [] [] [] []]; intros H; try reflexivity; discriminate H.
Qed.

Lemma digit_not_minus (c : ascii) : is_digit c = true -> Ascii.eqb c "-" = false.
Proof.
  destruct c as [[] [] [] [] [] [] [] []]; intros H; try reflexivity; discriminate H.
Qed.

Lemma digit_not_comma (c : ascii) : is_digit c = true -> Ascii.eqb c "," = false.
Proof.
  destruct c as [[] [] [] [] [] [] [] []]; intros H; try reflexivity; discriminate H.
Qed.

Lemma space_not_minus (c : ascii) : is_space c = true -> Ascii.eqb c "-" = false.
Proof.
  destruct c as [[] [] [] [] [] [] [] []]; intros H; try reflexivity; discriminate H.
Qed.

Lemma space_not_digit (c : ascii) : is_space c = true -> is_digit c = false.
Proof.
  destruct c as [[] [] [] [] [] [] [] []]; intros H; try reflexivity; discriminate H.
Qed.

(** ** The matcher on the location pattern *)

(** A greedy [k*] ends at the end of the run of [k]: the shorter
    alternatives start with a character of [k], where the continuation
    fails; or the continuation never fails and the first try stands. *)
Lemma star_greedy {R} (k : Re.cls) (s : string) (cont : string -> option R) :
  (forall c s', Re.cls_match k c = true -> cont (String c s') = None)
  \/ (forall s', is_Some (cont s')) ->
  Re.star k s cont = cont (span (Re.cls_match k) s).2.
Proof.
  intros H. induction s as [|c s IH]; [reflexivity|].
  cbn [Re.star span]. destruct (Re.cls_match k c) eqn:E; [|reflexivity].
  rewrite IH. destruct (span (Re.cls_match k) s) as [a r]. cbn [snd].
  destruct (cont r) as [x|] eqn:Er; [reflexivity|].
  destruct H as [H | H].
  - apply H. exact E.
  - destruct (H r) as [x Hx]. congruence.
Qed.

Lemma go_unsigned {R} (s : string) (caps : list string)
    (K : string -> list string -> option R) :
  stops_or_total K caps ->
  Re.go unsigned_re s caps K
  = match scan_unsigned s with
    | Some (_, _, r) => K r caps
    | None => None
    end.
Proof.
  intros HK. unfold unsigned_re, scan_unsigned. cbn [Re.go].
  destruct s as [|c0 s0]; [reflexivity|].
  cbn [span]. fold (is_digit c0). destruct (is_digit c0) eqn:E0; [|reflexivity].
  rewrite star_greedy.
  2:{ left. intros c s' Hc. cbn [Re.cls_match].
      change (Re.cls_match Re.Digit c) with (is_digit c) in Hc.
      rewrite (digit_not_dot c Hc). reflexivity. }
  change (Re.cls_match Re.Digit) with is_digit.
  destruct (span is_digit s0) as [a r]. cbn [snd].
  destruct r as [|c1 r1]; [reflexivity|].
  cbn [Re.cls_match]. destruct (Ascii.eqb c1 ".") eqn:E1; [|reflexivity].
  destruct r1 as [|c2 r2]; [reflexivity|].
  cbn [span]. fold (is_digit c2). destruct (is_digit c2) eqn:E2; [|reflexivity].
  rewrite star_greedy.
  2:{ destruct HK as [HK | HK]; [left | right]; intros; apply HK; assumption. }
  change (Re.cls_match Re.Digit) with is_digit.
  destruct (span is_digit r2) as [fp r3]. reflexivity.
Qed.

Lemma scan_float_unsigned (s : string) :
  scan_float s
  = match s with
    | String c s' =>
        if Ascii.eqb c "-"
        then match scan_unsigned s' with
             | Some (ip, fp, r) => Some ("-" ++ ip ++ "." ++ fp, r)
             | None => None
             end
        else match scan_unsigned s with
             | Some (ip, fp, r) => Some (EmptyString ++ ip ++ "." ++ fp, r)
             | None => None
             end
    | EmptyString => None
    end.
Proof.
  unfold scan_float, scan_unsigned. destruct s as [|c s']; [reflexivity|].
  destruct (Ascii.eqb c "-").
  - destruct (span is_digit s') as [ip s1]. destruct ip, s1; try reflexivity.
    destruct (Ascii.eqb a0 "."); [|reflexivity].
    destruct (span is_digit s1) as [fp s3]. destruct fp; reflexivity.
  - destruct (span is_digit (String c s')) as [ip s1]. destruct ip, s1; try reflexivity.
    destruct (Ascii.eqb a0 "."); [|reflexivity].
    destruct (span is_digit s1) as [fp s3]. destruct fp; reflexivity.
Qed.

Lemma scan_unsigned_minus (c : ascii) (s : string) :
  Ascii.eqb c "-" = true -> scan_unsigned (String c s) = None.
Proof.
  intros H. unfold scan_unsigned. cbn [span].
  destruct (is_digit c) eqn:E; [|reflexivity].
  rewrite (digit_not_minus c E) in H. discriminate.
Qed.

Lemma go_float {R} (s : string) (caps : list string)
    (K : string -> list string -> option R) :
  stops_or_total K caps ->
  Re.go float_re s caps K
  = match scan_float s with
    | Some (_, r) => K r caps
    | None => None
    end.
Proof.
  intros HK. rewrite scan_float_unsigned.
  change float_re with (Re.Seq (Re.Opt (Re.Lit "-")) unsigned_re).
  cbn [Re.go]. destruct s as [|c s'].
  - rewrite go_unsigned by exact HK. reflexivity.
  - cbn [Re.cls_match]. destruct (Ascii.eqb c "-") eqn:E.
    + rewrite !go_unsigned by exact HK. rewrite (scan_unsigned_minus c s' E).
      destruct (scan_unsigned s') as [[[ip fp] r]|]; [|reflexivity].
      destruct (K r caps); reflexivity.
    + rewrite go_unsigned by exact HK.
      destruct (scan_unsigned (String c s')) as [[[ip fp] r]|]; reflexivity.
Qed.

Lemma scan_unsigned_sound (s ip fp r : string) :
  scan_unsigned s = Some (ip, fp, r) ->
  s = ip ++ "." ++ fp ++ r
  /\ ip <> EmptyString /\ all_chars is_digit ip = true
  /\ fp <> EmptyString /\ all_chars is_digit fp = true
  /\ starts_with is_digit r = false.
Proof.
  unfold scan_unsigned. intros H.
  destruct (span_spec is_digit s) as (Hs & Hip & _).
  destruct (span is_digit s) as [ip0 s1]. cbn [fst snd] in *.
  destruct ip0 as [|x ip0]; [discriminate|]. destruct s1 as [|c s2]; [discriminate|].
  destruct (Ascii.eqb c ".") eqn:Ec; [|discriminate].
  apply Ascii.eqb_eq in Ec. subst c.
  destruct (span_spec is_digit s2) as (Hs2 & Hfp & Hr).
  destruct (span is_digit s2) as [fp0 s3]. cbn [fst snd] in *.
  destruct fp0 as [|y fp0]; [discriminate|]. inversion H; subst ip fp r.
  repeat split; try discriminate; auto.
  rewrite Hs. f_equal. rewrite append_cons, append_nil_l. f_equal. exact Hs2.
Qed.

Lemma scan_unsigned_complete (ip fp r : string) :
  ip <> EmptyString -> all_chars is_digit ip = true ->
  fp <> EmptyString -> all_chars is_digit fp = true ->
  starts_with is_digit r = false ->
  scan_unsigned (ip ++ "." ++ fp ++ r) = Some (ip, fp, r).
Proof.
  intros Hip Hdi Hfp Hdf Hr. unfold scan_unsigned.
  rewrite (span_unique is_digit ip ("." ++ fp ++ r) Hdi) by reflexivity.
  destruct ip as [|x ip]; [congruence|].
  rewrite append_cons, append_nil_l. cbn [Ascii.eqb Bool.eqb].
  rewrite (span_unique is_digit fp r Hdf Hr).
  destruct fp as [|y fp]; [congruence|]. reflexivity.
Qed.

Lemma scan_float_sound (s a r : string) :
  scan_float s = Some (a, r) ->
  s = a ++ r /\ float_text a /\ starts_with is_digit r = false.
Proof.
  rewrite scan_float_unsigned. destruct s as [|c s']; [discriminate|].
  destruct (Ascii.eqb c "-") eqn:Ec.
  - apply Ascii.eqb_eq in Ec. subst c.
    destruct (scan_unsigned s') as [[[ip fp] r0]|] eqn:E; [|discriminate].
    intros H. inversion H; subst a r. clear H.
    destruct (scan_unsigned_sound _ _ _ _ E) as (Hs & H1 & H2 & H3 & H4 & H5).
    split; [|split; [|exact H5]].
    + rewrite Hs. rewrite append_cons, append_nil_l, !append_assoc. reflexivity.
    + exists "-", ip, fp. repeat split; auto.
  - destruct (scan_unsigned (String c s')) as [[[ip fp] r0]|] eqn:E; [|discriminate].
    intros H. inversion H; subst a r. clear H.
    destruct (scan_unsigned_sound _ _ _ _ E) as (Hs & H1 & H2 & H3 & H4 & H5).
    split; [|split; [|exact H5]].
    + rewrite Hs. rewrite append_nil_l, !append_assoc. reflexivity.
    + exists EmptyString, ip, fp. repeat split; auto.
Qed.

Lemma scan_float_complete (a r : string) :
  float_text a -> starts_with is_digit r = false -> scan_float (a ++ r) = Some (a, r).
Proof.
  intros (sign & ip & fp & -> & Hsign & Hip & Hdi & Hfp & Hdf) Hr.
  rewrite scan_float_unsigned.
  assert (Hbody : (ip ++ "." ++ fp) ++ r = ip ++ "." ++ fp ++ r)
    by (rewrite !append_assoc; reflexivity).
  destruct Hsign as [-> | ->].
  - rewrite append_nil_l, Hbody.
    destruct ip as [|x ip]; [congruence|]. rewrite append_cons.
    cbn [all_chars] in Hdi. apply andb_true_iff in Hdi. destruct Hdi as [Hx Hdi].
    rewrite (digit_not_minus x Hx). rewrite <- append_cons.
    rewrite scan_unsigned_complete; auto.
    cbn [all_chars]. rewrite Hx, Hdi. reflexivity.
  - change (("-" ++ ip ++ "." ++ fp) ++ r) with (String "-" ((ip ++ "." ++ fp) ++ r)).
    cbn [Ascii.eqb Bool.eqb]. rewrite Hbody, scan_unsigned_complete; auto.
Qed.

(** A float text followed by anything: the scan succeeds, taking the
    digits that follow as well. *)
Lemma scan_float_some (a r : string) :
  float_text a -> is_Some (scan_float (a ++ r)).
Proof.
  intros (sign & ip & fp & -> & Hsign & Hip & Hdi & Hfp & Hdf).
  destruct (span_spec is_digit r) as (Hr & Hd & Hrest).
  destruct (span is_digit r) as [d r']. cbn [fst snd] in *.
  assert (Hf : float_text (sign ++ ip ++ "." ++ fp ++ d)).
  { exists sign, ip, (fp ++ d). repeat split; auto.
    - destruct fp; [congruence | discriminate].
    - rewrite all_chars_append, Hdf, Hd. reflexivity. }
  assert (Heq : (sign ++ ip ++ "." ++ fp) ++ r = (sign ++ ip ++ "." ++ fp ++ d) ++ r').
  { rewrite Hr at 1. rewrite !append_assoc. reflexivity. }
  rewrite Heq, (scan_float_complete _ _ Hf Hrest). eexists. reflexivity.
Qed.

Lemma scan_float_space (c : ascii) (s : string) :
  is_space c = true -> scan_float (String c s) = None.
Proof.
  intros H. unfold scan_float. rewrite (space_not_minus c H).
  cbn [span]. rewrite (space_not_digit c H). reflexivity.
Qed.

(** The pattern matched at the first character is the pair that the scan
    reads there. *)
Lemma match_here_latlon (s : string) :
  Re.match_here latlon_re s
  = match scan_pair s with
    | Some (a, b) => Some [a; b]
    | None => None
    end.
Proof.
  unfold Re.match_here, latlon_re, scan_pair. cbn [Re.go].
  rewrite go_float.
  2:{ left. intros c s' Hc. cbn [Re.go Re.cls_match].
      rewrite (digit_not_comma c Hc). reflexivity. }
  destruct (scan_float s) as [[a r]|] eqn:Ea; [|reflexivity].
  destruct (scan_float_sound _ _ _ Ea) as (Hs & _ & _).
  rewrite Hs, take_append_length. cbn [List.app].
  destruct r as [|c r1]; [reflexivity|].
  cbn [Re.go Re.cls_match]. destruct (Ascii.eqb c ","); [|reflexivity].
  rewrite star_greedy.
  2:{ left. intros c0 s' Hc0. rewrite go_float.
      - change (Re.cls_match Re.Space c0) with (is_space c0) in Hc0.
        rewrite (scan_float_space c0 s' Hc0). reflexivity.
      - right. intros s0. eexists. reflexivity. }
  change (Re.cls_match Re.Space) with is_space.
  rewrite go_float by (right; intros s0; eexists; reflexivity).
  destruct (scan_float (span is_space r1).2) as [[b r']|] eqn:Eb; [|reflexivity].
  destruct (scan_float_sound _ _ _ Eb) as (Hs2 & _ & _).
  rewrite Hs2, take_append_length. reflexivity.
Qed.

(** ** [parse_latlon]: which pair [re.search] returns *)

Lemma digit_not_space (c : ascii) : is_digit c = true -> is_space c = false.
Proof.
  intros H. destruct (is_space c) eqn:E; [|reflexivity].
  rewrite (space_not_digit c E) in H. discriminate.
Qed.

Lemma float_text_no_space (b post : string) :
  float_text b -> starts_with is_space (b ++ post) = false.
Proof.
  intros (sign & ip & fp & -> & Hsign & Hip & Hdi & _).
  destruct Hsign as [-> | ->]; [|reflexivity].
  destruct ip as [|x ip]; [congruence|].
  cbn [all_chars] in Hdi. apply andb_true_iff in Hdi. destruct Hdi as [Hx _].
  rewrite append_nil_l, !append_cons. cbn [starts_with]. exact (digit_not_space x Hx).
Qed.

Lemma scan_pair_sound (s a b : string) :
  scan_pair s = Some (a, b) ->
  exists ws post,
    pair_at s EmptyString a ws b post /\ starts_with is_digit post = false.
Proof.
  unfold scan_pair. destruct (scan_float s) as [[a0 r]|] eqn:Ea; [|discriminate].
  destruct r as [|c s1]; [discriminate|].
  destruct (Ascii.eqb c ",") eqn:Ec; [|discriminate].
  apply Ascii.eqb_eq in Ec. subst c.
  destruct (span_spec is_space s1) as (Hs1 & Hws & _).
  destruct (scan_float (span is_space s1).2) as [[b0 post]|] eqn:Eb; [|discriminate].
  intros H. inversion H; subst a0 b0. clear H.
  destruct (scan_float_sound _ _ _ Ea) as (Hs & Hfa & _).
  destruct (scan_float_sound _ _ _ Eb) as (Hr & Hfb & Hpost).
  exists (span is_space s1).1, post. split; [|exact Hpost].
  unfold pair_at. repeat split; auto.
  rewrite append_nil_l, Hs. f_equal. rewrite append_cons, append_nil_l. f_equal.
  rewrite Hs1 at 1. f_equal. exact Hr.
Qed.

Lemma scan_pair_some (a ws b post : string) :
  float_text a -> all_chars is_space ws = true -> float_text b ->
  is_Some (scan_pair (a ++ "," ++ ws ++ b ++ post)).
Proof.
  intros Ha Hws Hb. unfold scan_pair.
  rewrite (scan_float_complete a ("," ++ ws ++ b ++ post) Ha) by reflexivity.
  rewrite append_cons, append_nil_l. cbn [Ascii.eqb Bool.eqb].
  rewrite (span_unique is_space ws (b ++ post) Hws (float_text_no_space b post Hb)).
  cbn [snd]. destruct (scan_float_some b post Hb) as [[b' r] E]. rewrite E.
  eexists. reflexivity.
Qed.

Lemma search_latlon (s : string) :
  Re.search latlon_re s
  = match find_pair s with
    | Some (a, b) => Some [a; b]
    | None => None
    end.
Proof.
  induction s as [|c s IH]; cbn [Re.search find_pair]; rewrite match_here_latlon.
  - destruct (scan_pair EmptyString) as [[a b]|]; reflexivity.
  - destruct (scan_pair (String c s)) as [[a b]|]; [reflexivity | exact IH].
Qed.

Lemma find_pair_none (s : string) :
  find_pair s = None -> forall pre rest, s = pre ++ rest -> scan_pair rest = None.
Proof.
  induction s as [|c s IH]; cbn [find_pair]; intros H pre rest Hs.
  - destruct pre; [|discriminate]. rewrite append_nil_l in Hs. subst rest.
    destruct (scan_pair EmptyString); [discriminate | reflexivity].
  - destruct (scan_pair (String c s)) as [p|] eqn:E; [discriminate|].
    destruct pre as [|x pre].
    + rewrite append_nil_l in Hs. subst rest. exact E.
    + rewrite append_cons in Hs. inversion Hs; subst. eapply IH; eauto.
Qed.

Lemma find_pair_some (s a b : string) :
  find_pair s = Some (a, b) ->
  exists pre rest,
    s = pre ++ rest /\ scan_pair rest = Some (a, b)
    /\ forall pre' rest', s = pre' ++ rest' ->
         (String.length pre' < String.length pre)%nat -> scan_pair rest' = None.
Proof.
  induction s as [|c s IH]; cbn [find_pair]; intros H.
  - destruct (scan_pair EmptyString) as [p|] eqn:E; [|discriminate].
    inversion H; subst p. exists EmptyString, EmptyString. repeat split; auto.
    intros pre' rest' _ Hlt. cbn [String.length] in Hlt. lia.
  - destruct (scan_pair (String c s)) as [p|] eqn:E.
    + inversion H; subst p. exists EmptyString, (String c s). repeat split; auto.
      intros pre' rest' _ Hlt. cbn [String.length] in Hlt. lia.
    + destruct (IH H) as (pre & rest & Hs & Hp & Hleft).
      exists (String c pre), rest. rewrite append_cons, <- Hs. repeat split; auto.
      intros pre' rest' Hs' Hlt. destruct pre' as [|x pre'].
      * rewrite append_nil_l in Hs'. subst rest'. exact E.
      * rewrite append_cons in Hs'. inversion Hs'; subst x.
        apply (Hleft pre' rest'); [assumption|]. cbn [String.length] in Hlt. lia.
Qed.

Lemma parse_latlon_str (s : string) :
  parse_latlon (JStr s)
  = match find_pair s with
    | Some (a, b) => inr (Some (py_float a), Some (py_float b))
    | None => inr (None, None)
    end.
Proof.
  unfold parse_latlon. cbn [truthy]. destruct s as [|c s]; [reflexivity|].
  cbn [Str.truthy negb]. rewrite search_latlon.
  destruct (find_pair (String c s)) as [[a b]|]; reflexivity.
Qed.

(** X1.  [parse_latlon] on a string: the answer is [(None, None)] exactly when
    the string holds no text of the form float, comma, white space (maybe
    none), float. *)
Theorem parse_latlon_none_iff (s : string) :
  parse_latlon (JStr s) = inr (None, None)
  <-> ~ exists pre a ws b post, pair_at s pre a ws b post.
Proof.
  rewrite parse_latlon_str. split.
  - intros H (pre & a & ws & b & post & Hs & Ha & Hws & Hb).
    destruct (find_pair s) as [[a0 b0]|] eqn:E; [discriminate|].
    pose proof (find_pair_none s E pre _ Hs) as Hnone.
    destruct (scan_pair_some a ws b post Ha Hws Hb) as [p Hp]. congruence.
  - intros H. destruct (find_pair s) as [[a b]|] eqn:E; [|reflexivity].
    exfalso. apply H.
    destruct (find_pair_some s a b E) as (pre & rest & Hs & Hp & _).
    destruct (scan_pair_sound rest a b Hp) as (ws & post & (Hr & Ha & Hws & Hb) & _).
    exists pre, a, ws, b, post. rewrite append_nil_l in Hr. subst rest.
    repeat split; auto.
Qed.

(** X2.  When [parse_latlon] returns a pair, it is [float()] of the two texts
    of an occurrence that starts at the leftmost position where one
    starts, and whose second text takes every digit that follows. *)
Theorem parse_latlon_leftmost_longest (s : string) (x y : Float.pyfloat) :
  parse_latlon (JStr s) = inr (Some x, Some y) ->
  exists pre a ws b post,
    pair_at s pre a ws b post
    /\ x = py_float a /\ y = py_float b
    /\ starts_with is_digit post = false
    /\ forall pre' a' ws' b' post',
         pair_at s pre' a' ws' b' post' ->
         (String.length pre <= String.length pre')%nat.
Proof.
  rewrite parse_latlon_str.
  destruct (find_pair s) as [[a b]|] eqn:E; [|discriminate].
  intros H. inversion H; subst x y. clear H.
  destruct (find_pair_some s a b E) as (pre & rest & Hs & Hp & Hleft).
  destruct (scan_pair_sound rest a b Hp) as (ws & post & (Hr & Ha & Hws & Hb) & Hpost).
  rewrite append_nil_l in Hr. subst rest.
  exists pre, a, ws, b, post. repeat split; auto.
  intros pre' a' ws' b' post' (Hs' & Ha' & Hws' & Hb').
  destruct (Nat.le_gt_cases (String.length pre) (String.length pre')) as [Hle | Hgt];
    [exact Hle|].
  pose proof (Hleft pre' _ Hs' Hgt) as Hnone.
  destruct (scan_pair_some a' ws' b' post' Ha' Hws' Hb') as [p Hp']. congruence.
Qed.

Lemma parse_latlon_leftmost_longest_witness :
  exists pre a ws b post,
    pair_at "Lat, Long: 51.5074, -0.1278 (London)" pre a ws b post
    /\ py_float "51.5074" = py_float a /\ py_float "-0.1278" = py_float b
    /\ starts_with is_digit post = false
    /\ forall pre' a' ws' b' post',
         pair_at "Lat, Long: 51.5074, -0.1278 (London)" pre' a' ws' b' post' ->
         (String.length pre <= String.length pre')%nat.
Proof.
  apply (parse_latlon_leftmost_longest "Lat, Long: 51.5074, -0.1278 (London)"
           (py_float "51.5074") (py_float "-0.1278")).
  vm_compute. reflexivity.
Defined.

(** ** [str.replace] *)

Lemma prefix_nil (s : string) : String.prefix EmptyString s = true.
Proof. destruct s; reflexivity. Qed.

Lemma prefix_single (c a : ascii) (s : string) :
  String.prefix (String c EmptyString) (String a s) = Ascii.eqb c a.
Proof.
  cbn [String.prefix]. destruct (ascii_dec c a) as [-> | Hne].
  - rewrite prefix_nil, Ascii.eqb_refl. reflexivity.
  - symmetry. apply Ascii.eqb_neq. exact Hne.
Qed.

Lemma prefix_length (p s : string) :
  String.prefix p s = true -> (String.length p <= String.length s)%nat.
Proof.
  revert p. induction s as [|a s IH]; intros [|c p] H; cbn [String.length]; try lia.
  - discriminate H.
  - cbn [String.prefix] in H. destruct (ascii_dec c a); [|discriminate].
    specialize (IH p H). lia.
Qed.

Lemma drop_length (k : nat) (s : string) :
  String.length (Str.drop k s) = (String.length s - k)%nat.
Proof.
  revert k. induction s as [|a s IH]; intros [|k]; cbn [Str.drop String.length]; auto.
Qed.

(** Characters of the result come from the text or from [new]. *)
Lemma replace_go_all (P : ascii -> bool) (old new : string) :
  all_chars P new = true ->
  forall s k, all_chars P s = true -> all_chars P (Str.replace_go old new k s) = true.
Proof.
  intros Hnew. induction s as [|a s IH]; intros k Hs; [reflexivity|].
  cbn [all_chars] in Hs. apply andb_true_iff in Hs. destruct Hs as [Ha Hs].
  cbn [Str.replace_go]. destruct k as [|k]; [|apply IH; exact Hs].
  destruct (String.prefix old (String a s)).
  - rewrite all_chars_append, Hnew. apply IH. exact Hs.
  - cbn [all_chars]. rewrite Ha. apply IH. exact Hs.
Qed.

(** Replacing one character: it is gone from the result. *)
Lemma replace_char_all (P Q : ascii -> bool) (c : ascii) (new : string) :
  all_chars Q new = true ->
  (forall x, P x = true -> x <> c -> Q x = true) ->
  forall s, all_chars P s = true ->
    all_chars Q (Str.replace_go (String c EmptyString) new 0 s) = true.
Proof.
  intros Hnew HPQ. induction s as [|a s IH]; intros Hs; [reflexivity|].
  cbn [all_chars] in Hs. apply andb_true_iff in Hs. destruct Hs as [Ha Hs].
  cbn [Str.replace_go String.length Nat.sub]. rewrite prefix_single.
  destruct (Ascii.eqb c a) eqn:E.
  - rewrite all_chars_append, Hnew. apply IH. exact Hs.
  - cbn [all_chars]. rewrite IH by exact Hs.
    rewrite (HPQ a Ha); [reflexivity|].
    intros ->. rewrite Ascii.eqb_refl in E. discriminate.
Qed.

Lemma replace_go_skip (old new : string) (k : nat) (s : string) :
  Str.replace_go old new k s = Str.replace_go old new 0 (Str.drop k s).
Proof.
  revert k. induction s as [|a s IH]; intros [|k]; try reflexivity.
  cbn [Str.replace_go Str.drop]. apply IH.
Qed.

Lemma replace_go_absent (old new s : string) :
  Str.contains old s = false -> Str.replace_go old new 0 s = s.
Proof.
  induction s as [|a s IH]; [reflexivity|].
  cbn [Str.contains Str.replace_go]. intros H.
  apply orb_false_iff in H. destruct H as [Hp Hc].
  rewrite Hp, (IH Hc). reflexivity.
Qed.

Lemma replace_go_grows (old new : string) :
  old <> EmptyString ->
  (String.length old < String.length new)%nat ->
  forall n s, (String.length s <= n)%nat ->
    (String.length s <= String.length (Str.replace_go old new 0 s))%nat
    /\ (Str.contains old s = true ->
        (String.length s < String.length (Str.replace_go old new 0 s))%nat).
Proof.
  intros Hold Hlen.
  assert (Hpos : (1 <= String.length old)%nat)
    by (destruct old; [congruence | cbn [String.length]; lia]).
  induction n as [|n IH]; intros s Hs.
  - destruct s; [|cbn [String.length] in Hs; lia].
    split; [reflexivity|]. destruct old; [congruence | discriminate].
  - destruct s as [|a s].
    { split; [reflexivity|]. destruct old; [congruence | discriminate]. }
    cbn [String.length] in Hs. cbn [Str.replace_go Str.contains].
    destruct (String.prefix old (String a s)) eqn:Hp.
    + apply prefix_length in Hp. cbn [String.length] in Hp.
      rewrite replace_go_skip, length_append.
      destruct (IH (Str.drop (String.length old - 1) s)) as [Hge _].
      { rewrite drop_length. lia. }
      rewrite drop_length in Hge. cbn [String.length]. split; intros; lia.
    + destruct (IH s) as [Hge Hgt]; [lia|]. cbn [String.length orb]. split.
      * lia.
      * intros Hc. specialize (Hgt Hc). lia.
Qed.

(** ** The name prefix and the repaired overlay path *)

(** X12.  Whatever the text of the timestamp, the prefix made of it for the file
    name (line 351) holds neither a colon nor a space. *)
Theorem nicetime_plain (timestamp : string) :
  all_chars plain_char (nicetime timestamp) = true.
Proof.
  unfold nicetime, Str.replace.
  apply (replace_char_all not_colon plain_char); [reflexivity | |].
  - intros x Hx Hne. unfold plain_char. fold (not_colon x). rewrite Hx.
    apply Ascii.eqb_neq in Hne. rewrite Hne. reflexivity.
  - apply replace_go_all; [reflexivity|].
    apply (replace_char_all (fun _ => true) not_colon); [reflexivity | |].
    + intros x _ Hne. unfold not_colon. apply Ascii.eqb_neq in Hne. rewrite Hne. reflexivity.
    + induction timestamp as [|a s IH]; [reflexivity | exact IH].
Qed.

Lemma fixed_overlay_path_same_iff (p : string) :
  fixed_overlay_path p = p <-> Str.contains ".png" p = false.
Proof.
  unfold fixed_overlay_path, Str.replace. split.
  - intros H. destruct (Str.contains ".png" p) eqn:E; [|reflexivity].
    destruct (replace_go_grows ".png" "_fixed.png" ltac:(discriminate)
                ltac:(cbn [String.length]; lia) _ p (Nat.le_refl _)) as [_ Hgt].
    specialize (Hgt E). rewrite H in Hgt. lia.
  - apply replace_go_absent.
Qed.

(** X7.  [FixOverlayImage] on an overlay that decodes, the directory of the
    new path being there: it returns the path of line 220 and the
    re-encoded image is there.  When the path holds the text ".png",
    letters as written, the returned path is another one and the input
    file is as it was; when it does not, the returned path is the argument
    and the input file now holds the re-encoded image. *)
Theorem FixOverlayImage_in_place_iff B (p : string) (c c' : content) (w : world) :
  fs w !! p = Some (File c) ->
  pil_rgba_png B c = Some c' ->
  parent_is_dir (fs w) (fixed_overlay_path p) ->
  fs w !! fixed_overlay_path p <> Some Dir ->
  exists w',
    FixOverlayImage B p w = (Ret (fixed_overlay_path p), w')
    /\ fs w' !! fixed_overlay_path p = Some (File c')
    /\ (Str.contains ".png" p = true ->
        fixed_overlay_path p <> p /\ fs w' !! p = Some (File c))
    /\ (Str.contains ".png" p = false ->
        fixed_overlay_path p = p /\ fs w' !! p = Some (File c')).
Proof.
  intros Hp Hc _ Hd. eexists. split; [apply (FixOverlayImage_ok B p c c' w Hp Hc Hd)|].
  cbn [fs]. split; [apply lookup_insert_eq|]. split.
  - intros E. assert (Hne : fixed_overlay_path p <> p).
    { intros Heq. apply fixed_overlay_path_same_iff in Heq. congruence. }
    split; [exact Hne|]. rewrite lookup_insert_ne by exact Hne. exact Hp.
  - intros E. apply fixed_overlay_path_same_iff in E. split; [exact E|].
    rewrite E. apply lookup_insert_eq.
Qed.

Lemma FixOverlayImage_in_place_iff_witness :
  exists w',
    FixOverlayImage failing_ffmpeg_backend "d/a-overlay.png" w_png
    = (Ret (fixed_overlay_path "d/a-overlay.png"), w')
    /\ fs w' !! fixed_overlay_path "d/a-overlay.png" = Some (File "RGBA overlay bytes")
    /\ (Str.contains ".png" "d/a-overlay.png" = true ->
        fixed_overlay_path "d/a-overlay.png" <> "d/a-overlay.png"
        /\ fs w' !! "d/a-overlay.png" = Some (File "overlay bytes"))
    /\ (Str.contains ".png" "d/a-overlay.png" = false ->
        fixed_overlay_path "d/a-overlay.png" = "d/a-overlay.png"
        /\ fs w' !! "d/a-overlay.png" = Some (File "RGBA overlay bytes")).
Proof.
  apply (FixOverlayImage_in_place_iff failing_ffmpeg_backend
           "d/a-overlay.png" "overlay bytes" "RGBA overlay bytes" w_png).
  - reflexivity.
  - reflexivity.
  - vm_compute. reflexivity.
  - vm_compute. discriminate.
Defined.

(** ** Path names *)

Lemma rfind_char_none_iff (c : ascii) (s : string) :
  Str.rfind_char c s = None <-> all_chars (fun x => negb (Ascii.eqb x c)) s = true.
Proof.
  induction s as [|a s IH]; [split; reflexivity|].
  cbn [Str.rfind_char all_chars]. destruct (Str.rfind_char c s) as [i|].
  - split; [discriminate|]. intros H. apply andb_true_iff in H. destruct H as [_ H].
    apply IH in H. discriminate.
  - destruct (Ascii.eqb a c); cbn [negb andb]; split; try discriminate; auto.
    + intros _. apply IH. reflexivity.
Qed.

Lemma all_chars_take (p : ascii -> bool) (k : nat) (s : string) :
  all_chars p s = true -> all_chars p (Str.take k s) = true.
Proof.
  revert k. induction s as [|a s IH]; intros [|k] H; try reflexivity.
  cbn [all_chars Str.take] in *. apply andb_true_iff in H. destruct H as [Ha H].
  rewrite Ha, (IH k H). reflexivity.
Qed.

Lemma rfind_char_drop_after (c : ascii) (s : string) (i : nat) :
  Str.rfind_char c s = Some i -> Str.rfind_char c (Str.drop (S i) s) = None.
Proof.
  revert i. induction s as [|a s IH]; intros i; [discriminate|].
  cbn [Str.rfind_char]. destruct (Str.rfind_char c s) as [j|] eqn:E.
  - intros H. inversion H; subst i. cbn [Str.drop]. apply IH. reflexivity.
  - destruct (Ascii.eqb a c); [|discriminate]. intros H. inversion H; subst i.
    cbn [Str.drop]. destruct s; exact E.
Qed.

Lemma rfind_char_append_sep (c : ascii) (d n : string) :
  Str.rfind_char c n = None ->
  Str.rfind_char c (d ++ String c n) = Some (String.length d).
Proof.
  intros Hn. induction d as [|a d IH].
  - rewrite append_nil_l. cbn [Str.rfind_char String.length].
    rewrite Hn, Ascii.eqb_refl. reflexivity.
  - rewrite append_cons. cbn [Str.rfind_char String.length]. rewrite IH. reflexivity.
Qed.

Lemma take_length_append (a b : string) : Str.take (String.length a) (a ++ b) = a.
Proof.
  induction a as [|x a IH]; [destruct b; reflexivity|].
  rewrite append_cons. cbn [String.length Str.take]. rewrite IH. reflexivity.
Qed.

Lemma drop_length_append (a b : string) : Str.drop (String.length a) (a ++ b) = b.
Proof.
  induction a as [|x a IH]; [destruct b; reflexivity|].
  rewrite append_cons. cbn [String.length Str.drop]. exact IH.
Qed.

Lemma name_no_slash (p : string) : all_chars not_slash (PathLib.name p) = true.
Proof.
  apply (rfind_char_none_iff PathLib.sep). unfold PathLib.name.
  destruct (Str.rfind_char PathLib.sep p) as [i|] eqn:E; [|exact E].
  apply rfind_char_drop_after. exact E.
Qed.

Lemma stem_no_slash (p : string) : all_chars not_slash (PathLib.stem p) = true.
Proof.
  unfold PathLib.stem. cbv zeta.
  destruct (Str.rfind_char "." (PathLib.name p)) as [i|]; [|apply name_no_slash].
  destruct ((0 <? i)%nat && (i <? String.length (PathLib.name p) - 1)%nat);
    [|apply name_no_slash].
  apply all_chars_take, name_no_slash.
Qed.

Lemma parent_name_join (d n : string) :
  all_chars not_slash n = true ->
  PathLib.parent (PathLib.join d n) = Some d /\ PathLib.name (PathLib.join d n) = n.
Proof.
  intros Hn. apply (rfind_char_none_iff PathLib.sep) in Hn.
  unfold PathLib.parent, PathLib.name, PathLib.join.
  change ("/" ++ n) with (String PathLib.sep n).
  rewrite (rfind_char_append_sep _ d n Hn). split.
  - rewrite take_length_append. reflexivity.
  - replace (d ++ String PathLib.sep n) with ((d ++ String PathLib.sep EmptyString) ++ n)
      by (rewrite append_assoc; reflexivity).
    replace (S (String.length d)) with (String.length (d ++ String PathLib.sep EmptyString))
      by (rewrite length_append; cbn [String.length]; lia).
    apply drop_length_append.
Qed.

Lemma endswith_append (a p : string) : Str.endswith (a ++ p) p = true.
Proof.
  unfold Str.endswith. rewrite length_append. apply andb_true_iff. split.
  - apply Nat.leb_le. lia.
  - replace (String.length a + String.length p - String.length p)%nat
      with (String.length a) by lia.
    rewrite drop_length_append. apply String.eqb_refl.
Qed.

(** ** The last character, and the extensions *)







(** ** [with_name] *)

Lemma valid_name_intro (n : string) :
  (2 <= String.length n)%nat -> all_chars not_slash n = true -> PathLib.valid_name n = true.
Proof.
  intros Hlen Hn. unfold PathLib.valid_name.
  apply (rfind_char_none_iff PathLib.sep) in Hn. rewrite Hn.
  destruct n as [|a [|b n]]; cbn [String.length] in Hlen; try lia.
  replace (String a (String b n) =? ".") with false
    by (symmetry; apply String.eqb_neq; discriminate).
  reflexivity.
Qed.

Lemma with_name_some (p n : string) :
  Str.truthy (PathLib.name p) = true -> p <> "." ->
  (2 <= String.length n)%nat -> all_chars not_slash n = true ->
  PathLib.with_name p n = Some (PathLib.sibling p n).
Proof.
  intros Hp Hdot Hlen Hn. unfold PathLib.with_name.
  rewrite Hp, (valid_name_intro n Hlen Hn).
  apply String.eqb_neq in Hdot. rewrite Hdot. reflexivity.
Qed.



(** A prefix with a separator: [with_name] raises. *)
Lemma new_path_none (nice output_path : string) :
  all_chars not_slash nice = false -> new_path nice output_path = None.
Proof.
  intros Hn. unfold new_path, PathLib.with_name, PathLib.valid_name.
  destruct (Str.rfind_char PathLib.sep (new_name nice output_path)) eqn:E.
  - rewrite !andb_false_r. reflexivity.
  - apply (rfind_char_none_iff PathLib.sep) in E. unfold new_name in E.
    rewrite all_chars_append in E. apply andb_true_iff in E. destruct E as [E _].
    unfold not_slash in Hn. congruence.
Qed.

(** ** The entry loop: what is caught and what is not *)







(** ** A download that breaks off *)

Lemma wget_download_broken B (url out_dir : string) (left : option (string * content))
    (w : world) :
  wget B url out_dir (fs w) = Broken left ->
  exists e,
    wget_download B (JStr url) out_dir w
    = (Exc e, World (after_broken (fs w) left) (stdout w)).
Proof.
  intros H. destruct w as [f out]. cbn [fs stdout] in *.
  unfold wget_download, write_file, after_broken.
  unfold mbind, M_bind, bind, get_fs, set_fs, raise. cbn beta iota.
  cbn [fs stdout]. rewrite H. destruct left as [[tmp c]|]; [|eexists; reflexivity].
  cbn beta iota. cbn [fs stdout]. destruct (f !! tmp) as [[c0|]|]; eexists; reflexivity.
Qed.

(** X14.  A download that fails is caught by the first [try] of the loop
    body and the loop goes on with the next entry.  When the URL is not a
    string no file has changed; when [wget.download] raises, the only
    change to the files is the temporary file it leaves behind, if it
    leaves one. *)
Theorem failed_download_is_skipped B (fuel : nat) (out_dir : string)
    (d : list (string * json)) (rest : list json) (left : option (string * content))
    (w : world) :
  truthy (media_url_field d) = true ->
  (forall url, media_url_field d = JStr url -> wget B url out_dir (fs w) = Broken left) ->
  exists w',
    for_each (JDict d :: rest) (process_entry B fuel out_dir) w
    = for_each rest (process_entry B fuel out_dir) w'
    /\ fs w' = match media_url_field d with
               | JStr _ => after_broken (fs w) left
               | _ => fs w
               end.
Proof.
  intros Hu Hw. cbn [for_each]. unfold process_entry. fold (media_url_field d).
  rewrite Hu. cbn [negb].
  assert (Hd : exists w',
             download_stage B (media_url_field d) out_dir w = (Ret None, w')
             /\ fs w' = match media_url_field d with
                        | JStr _ => after_broken (fs w) left
                        | _ => fs w
                        end).
  { unfold download_stage, try_catch. rewrite bind_print.
    match goal with |- context [World (fs w) ?l] => remember (World (fs w) l) as w0 eqn:Hw0 end.
    assert (Hfs : fs w0 = fs w) by (subst w0; reflexivity).
    destruct (media_url_field d) as [| | |url| |] eqn:E;
      try (eexists; split; [reflexivity|]; exact Hfs).
    destruct (wget_download_broken B url out_dir left w0) as [e He].
    { rewrite Hfs. apply Hw. reflexivity. }
    erewrite bind_exc_eq by exact He.
    eexists. split; [reflexivity|]. cbn [fs]. rewrite Hfs. reflexivity. }
  destruct Hd as (w' & Hd & Hfs). exists w'. split; [|exact Hfs].
  erewrite bind_ret_eq.
  2:{ erewrite bind_ret_eq by exact Hd. reflexivity. }
  reflexivity.
Qed.

Lemma failed_download_is_skipped_witness :
  exists w',
    for_each [JDict entry_no_date; entry_dated]
      (process_entry broken_download_backend 5 "downloaded_media") w_c2
    = for_each [entry_dated] (process_entry broken_download_backend 5 "downloaded_media") w'
    /\ fs w' = match media_url_field entry_no_date with
               | JStr _ =>
                   after_broken (fs w_c2)
                     (Some ("a.jpg.k3x9.tmp", "half of http://cdn/a.jpg"))
               | _ => fs w_c2
               end.
Proof.
  apply (failed_download_is_skipped broken_download_backend 5 "downloaded_media"
           entry_no_date [entry_dated]
           (Some ("a.jpg.k3x9.tmp", "half of http://cdn/a.jpg")) w_c2).
  - reflexivity.
  - intros url H. inversion H. reflexivity.
Defined.

(** ** A picture with a companion overlay *)

Lemma truthy_append_r (a b : string) : Str.truthy b = true -> Str.truthy (a ++ b) = true.
Proof. intros H. destruct a; [exact H | reflexivity]. Qed.

Lemma truthy_sibling (p n : string) :
  Str.truthy n = true -> Str.truthy (PathLib.sibling p n) = true.
Proof.
  intros H. unfold PathLib.sibling, PathLib.join.
  destruct (PathLib.parent p); [|exact H].
  apply truthy_append_r. reflexivity.
Qed.

(** A path with an image extension has a name. *)
Lemma image_path_has_name (saved : string) :
  in_list (Str.lower (PathLib.suffix saved)) image_exts = true ->
  Str.truthy (PathLib.name saved) = true /\ saved <> ".".
Proof.
  intros H. split.
  - destruct (PathLib.name saved) eqn:En; [|reflexivity].
    unfold PathLib.suffix in H. rewrite En in H. discriminate H.
  - intros ->. discriminate H.
Qed.

(** The three candidate names are names: no [with_name] raises. *)
Lemma overlay_names_some (saved : string) :
  Str.truthy (PathLib.name saved) = true -> saved <> "." ->
  (a ← PathLib.with_name saved (PathLib.stem saved ++ "-overlay.png");
   b ← PathLib.with_name saved (PathLib.stem saved ++ "_overlay.png");
   c ← PathLib.with_name saved (PathLib.stem saved ++ ".overlay.png");
   Some [a; b; c])
  = Some (possible_overlay_names saved).
Proof.
  intros Hn Hd.
  assert (Hv : forall sfx, (2 <= String.length sfx)%nat -> all_chars not_slash sfx = true ->
                 PathLib.with_name saved (PathLib.stem saved ++ sfx)
                 = Some (PathLib.sibling saved (PathLib.stem saved ++ sfx))).
  { intros sfx Hl Hs. apply with_name_some; auto.
    - rewrite length_append. lia.
    - rewrite all_chars_append, stem_no_slash, Hs. reflexivity. }
  rewrite !Hv by (try reflexivity; cbn [String.length]; lia). reflexivity.
Qed.

Lemma first_existing_in (f : gmap string node) (names : list string) (x : string) :
  first_existing f names = Some x -> In x names /\ is_Some (f !! x).
Proof.
  induction names as [|n names IH]; [discriminate|]. cbn [first_existing].
  destruct (bool_decide (is_Some (f !! n))) eqn:E.
  - intros H. inversion H; subst x. split; [left; reflexivity|].
    apply bool_decide_eq_true in E. exact E.
  - intros H. destruct (IH H) as [Hin Hs]. split; [right; exact Hin | exact Hs].
Qed.

Lemma possible_overlay_names_truthy (saved x : string) :
  In x (possible_overlay_names saved) -> Str.truthy x = true.
Proof.
  unfold possible_overlay_names. cbv zeta. cbn [In].
  intros [<- | [<- | [<- | []]]]; apply truthy_sibling, truthy_append_r; reflexivity.
Qed.

(** X15.  A download that is no archive, has an image extension and has a
    companion overlay beside it: the merge calls [ffmpeg_overlay_image],
    which the script does not define.  The [NameError] is caught by the
    second [try] of the loop body; the picture is kept as the output,
    unmerged, and no file has been written. *)
Theorem image_with_companion_is_left_unmerged B (fuel : nat) (entry : json)
    (saved out_dir found : string) (w : world) :
  (forall c, fs w !! saved = Some (File c) -> is_zipfile B c = false) ->
  Str.endswith (Str.lower saved) ".zip" = false ->
  in_list (Str.lower (PathLib.suffix saved)) image_exts = true ->
  first_existing (fs w) (possible_overlay_names saved) = Some found ->
  merge_stage B fuel entry saved out_dir w
  = (Ret (Some saved),
     with_line (with_line w ("Found companion overlay: " ++ found))
       ("Error while processing file: " ++ exn_text NameError)).
Proof.
  intros Hz He Hi Hf.
  destruct (first_existing_in _ _ _ Hf) as [Hin _].
  pose proof (possible_overlay_names_truthy _ _ Hin) as Ht.
  assert (Hzf : is_zipfile_path B saved w = (Ret false, w)).
  { unfold is_zipfile_path, mbind, M_bind, bind, get_fs, mret, M_ret, ret. cbn beta iota.
    destruct (fs w !! saved) as [[c|]|] eqn:E; try reflexivity.
    rewrite (Hz c eq_refl). reflexivity. }
  unfold merge_stage, try_catch.
  erewrite bind_ret_eq by exact Hzf. rewrite He. cbn [orb].
  destruct (image_path_has_name saved Hi) as [Hname Hdot].
  unfold merge_companion. cbv zeta.
  rewrite (overlay_names_some saved Hname Hdot).
  erewrite bind_ret_eq by reflexivity.
  erewrite bind_ret_eq by reflexivity.
  rewrite Hf, Ht, bind_print, Hi. reflexivity.
Qed.

Lemma image_with_companion_is_left_unmerged_witness :
  merge_stage quiet_backend 5 entry_dated "downloaded_media/p.jpg" "downloaded_media"
    w_companion
  = (Ret (Some "downloaded_media/p.jpg"),
     with_line
       (with_line w_companion ("Found companion overlay: " ++ "downloaded_media/p-overlay.png"))
       ("Error while processing file: " ++ exn_text NameError)).
Proof.
  apply (image_with_companion_is_left_unmerged quiet_backend 5 entry_dated
           "downloaded_media/p.jpg" "downloaded_media" "downloaded_media/p-overlay.png"
           w_companion).
  - intros c _. reflexivity.
  - reflexivity.
  - reflexivity.
  - vm_compute. reflexivity.
Defined.

(** ** [embed_gps_jpg] *)

(** The tail of the [try] block of [embed_gps_jpg]: read, insert, print. *)
Lemma exif_insert_step B (p : string) (x : exif) (c : content) (line : string) (w : world) :
  fs w !! p = Some (File c) ->
  (c0 ← read_file p;
   match piexif_insert B x c0 with
   | Some c' => write_file p c'
   | None => raise ValueError
   end ≫= fun _ => print line) w
  = match piexif_insert B x c with
    | Some c' => (Ret tt, World (<[p := File c']> (fs w)) (List.app (stdout w) [line]))
    | None => (Exc ValueError, w)
    end.
Proof.
  intros Hp. unfold read_file, write_file.
  unfold mbind, M_bind, bind, get_fs, set_fs, raise, mret, M_ret, ret, print.
  cbn beta iota. rewrite Hp. cbn beta iota.
  destruct (piexif_insert B x c) as [c'|]; [|reflexivity].
  cbn beta iota. rewrite Hp. reflexivity.
Qed.

(** With both triples computed and a timestamp that is [None] or a
    datetime, [embed_gps_jpg] follows piexif. *)
Lemma embed_gps_jpg_run B (p : string) (la lo : Float.pyfloat) (ts : json) (tsv : tsval)
    (dla dlo : dms) (c : content) (w : world) :
  fs w !! p = Some (File c) ->
  convert_timestamp B ts w = (Ret tsv, w) ->
  tsv <> TsOther ->
  deg_to_dms_rational la = inr dla ->
  deg_to_dms_rational lo = inr dlo ->
  embed_gps_jpg B p (Some la) (Some lo) ts w
  = match piexif_insert B (exif_for la lo dla dlo tsv) c with
    | Some c' =>
        (Ret tt,
         World (<[p := File c']> (fs w)) (List.app (stdout w) ["Embedded GPS into " ++ p]))
    | None => (Ret tt, with_line w (jpg_warning ValueError))
    end.
Proof.
  intros Hp Ht Hn Hla Hlo. unfold embed_gps_jpg.
  erewrite bind_ret_eq by exact Ht. unfold try_catch. cbv zeta.
  rewrite Hla, Hlo.
  erewrite bind_ret_eq by reflexivity. erewrite bind_ret_eq by reflexivity.
  unfold exif_for.
  destruct tsv as [|t|]; [| |congruence];
    (erewrite bind_ret_eq by reflexivity; rewrite (exif_insert_step B p _ c _ w Hp);
     match goal with |- context [piexif_insert B ?x c] =>
       destruct (piexif_insert B x c) as [c'|]
     end; reflexivity).
Qed.

(** X5.  On an existing file and with a location, what [embed_gps_jpg]
    does follows the timestamp, the coordinates and piexif.  With finite
    coordinates and a timestamp that is [None], a datetime, or a string
    that [strptime] takes, piexif is given the two DMS triples, the
    hemisphere letters of the signs and the formatted time ([exif_for]):
    when it succeeds the function returns with the file replaced by what
    piexif made of it and no other file changed; when it fails the
    failure is caught, the warning is printed and no file changes.  An
    infinite coordinate ([OverflowError]) and a timestamp of another type
    ([AttributeError]) are caught the same way.  With a string that
    [strptime] rejects, [ValueError] leaves [embed_gps_jpg] with the world
    untouched: that case is not caught. *)
Theorem embed_gps_jpg_outcomes B (p : string) (la lo : Float.pyfloat) (ts : json)
    (c : content) (w : world) :
  fs w !! p = Some (File c) ->
  (forall tsv dla dlo,
      convert_timestamp B ts w = (Ret tsv, w) ->
      tsv <> TsOther ->
      deg_to_dms_rational la = inr dla ->
      deg_to_dms_rational lo = inr dlo ->
      (forall c',
          piexif_insert B (exif_for la lo dla dlo tsv) c = Some c' ->
          exists w',
            embed_gps_jpg B p (Some la) (Some lo) ts w = (Ret tt, w')
            /\ fs w' = <[p := File c']> (fs w))
      /\ (piexif_insert B (exif_for la lo dla dlo tsv) c = None ->
          embed_gps_jpg B p (Some la) (Some lo) ts w
          = (Ret tt, with_line w (jpg_warning ValueError))))
  /\ (forall tsv,
        convert_timestamp B ts w = (Ret tsv, w) ->
        deg_to_dms_rational la = inl OverflowError
        \/ deg_to_dms_rational lo = inl OverflowError ->
        embed_gps_jpg B p (Some la) (Some lo) ts w
        = (Ret tt, with_line w (jpg_warning OverflowError)))
  /\ (forall dla dlo,
        convert_timestamp B ts w = (Ret TsOther, w) ->
        deg_to_dms_rational la = inr dla ->
        deg_to_dms_rational lo = inr dlo ->
        embed_gps_jpg B p (Some la) (Some lo) ts w
        = (Ret tt, with_line w (jpg_warning AttributeError)))
  /\ (forall s, ts = JStr s -> strptime B s w = (Exc ValueError, w) ->
        embed_gps_jpg B p (Some la) (Some lo) ts w = (Exc ValueError, w)).
Proof.
  intros Hp. split; [|split; [|split]].
  - intros tsv dla dlo Ht Hn Hla Hlo.
    rewrite (embed_gps_jpg_run B p la lo ts tsv dla dlo c w Hp Ht Hn Hla Hlo). split.
    + intros c' Hc. rewrite Hc. eexists. split; reflexivity.
    + intros Hc. rewrite Hc. reflexivity.
  - intros tsv Ht Hover. unfold embed_gps_jpg.
    erewrite bind_ret_eq by exact Ht. unfold try_catch. cbv zeta.
    destruct (deg_to_dms_rational la) as [e1|dla] eqn:Ela.
    + assert (e1 = OverflowError) as -> by (destruct la; inversion Ela; reflexivity).
      reflexivity.
    + destruct Hover as [Hover | Hover]; [discriminate Hover|]. rewrite Hover. reflexivity.
  - intros dla dlo Ht Hla Hlo. unfold embed_gps_jpg.
    erewrite bind_ret_eq by exact Ht. unfold try_catch. cbv zeta.
    rewrite Hla, Hlo. reflexivity.
  - intros s -> Hs. unfold embed_gps_jpg. apply bind_exc_eq.
    unfold convert_timestamp. apply bind_exc_eq. exact Hs.
Qed.

Lemma embed_gps_jpg_outcomes_witness :
  exists w',
    embed_gps_jpg working_backend "downloaded_media/a_merged.jpg"
      (Some (py_float "51.5")) (Some (py_float "-0.125")) JNull w_c9 = (Ret tt, w')
    /\ fs w' = <["downloaded_media/a_merged.jpg" := File "tagged jpeg bytes"]> (fs w_c9).
Proof.
  refine (proj1 (proj1 (embed_gps_jpg_outcomes working_backend
                          "downloaded_media/a_merged.jpg" (py_float "51.5")
                          (py_float "-0.125") JNull "jpeg bytes" w_c9 _)
                   TsNone (deg_to_dms_fin (103 # 2)%Q) (deg_to_dms_fin (-1 # 8)%Q)
                   _ _ _ _)
            "tagged jpeg bytes" _).
  - reflexivity.
  - reflexivity.
  - discriminate.
  - vm_compute. reflexivity.
  - vm_compute. reflexivity.
  - reflexivity.
Defined.

(** ** The sweep: what it reads and what it leaves *)

Lemma keeps_dirs_same {A} (m : M A) : (forall w, (m w).2 = w) -> keeps_dirs m.
Proof.
  intros Hm w r w' H p Hp. specialize (Hm w). rewrite H in Hm. cbn [snd] in Hm.
  subst w'. exact Hp.
Qed.

Lemma keeps_dirs_lift {A} (r : exn + A) : keeps_dirs (lift r).
Proof. destruct r; [apply keeps_dirs_raise | apply keeps_dirs_ret]. Qed.

Lemma keeps_dirs_for_each {A} (body : A -> M unit) (l : list A) :
  (forall x, keeps_dirs (body x)) -> keeps_dirs (for_each l body).
Proof.
  intros Hb. induction l as [|x l IH]; cbn [for_each]; [apply keeps_dirs_ret|].
  apply keeps_dirs_bind; [apply Hb | intros _; exact IH].
Qed.

Lemma iterdir_same (d : string) (w : world) : (iterdir d w).2 = w.
Proof.
  unfold iterdir, mbind, M_bind, bind, get_fs. cbn beta iota.
  destruct (fs w !! d) as [[c|]|]; reflexivity.
Qed.

Lemma keeps_dirs_find_main_and_overlay (d : string) : keeps_dirs (find_main_and_overlay d).
Proof.
  unfold find_main_and_overlay.
  apply keeps_dirs_bind; [apply keeps_dirs_same, iterdir_same | intros; apply keeps_dirs_ret].
Qed.

Lemma keeps_dirs_os_rename (src dst : string) : keeps_dirs (os_rename src dst).
Proof.
  intros w r w' H q Hq. unfold os_rename, mbind, M_bind, bind, get_fs in H.
  cbn beta iota in H.
  destruct (fs w !! src) as [[c|]|] eqn:Es; try (inversion H; subst; exact Hq).
  destruct (fs w !! dst) as [[c2|]|] eqn:Ed; inversion H; subst; cbn [fs].
  - rewrite lookup_insert_ne by congruence. rewrite lookup_delete_ne by congruence. exact Hq.
  - exact Hq.
  - rewrite lookup_insert_ne by congruence. rewrite lookup_delete_ne by congruence. exact Hq.
Qed.

Lemma keeps_dirs_entry_get (entry : json) (k : string) (default : json) :
  keeps_dirs (entry_get entry k default).
Proof. destruct entry; try apply keeps_dirs_raise. apply keeps_dirs_ret. Qed.

Lemma keeps_dirs_get_or (entry : json) (k1 k2 : string) (default : json) :
  keeps_dirs (get_or entry k1 k2 default).
Proof.
  unfold get_or. apply keeps_dirs_bind; [apply keeps_dirs_entry_get|]. intros a.
  destruct (truthy a); [apply keeps_dirs_ret | apply keeps_dirs_entry_get].
Qed.

Lemma keeps_dirs_convert_timestamp B (ts : json) : keeps_dirs (convert_timestamp B ts).
Proof.
  destruct ts; try apply keeps_dirs_ret. cbn [convert_timestamp].
  apply keeps_dirs_bind; [|intros; apply keeps_dirs_ret].
  unfold strptime. destruct (four_digits s); [|apply keeps_dirs_raise].
  destruct (strptime_fields B s); [apply keeps_dirs_ret | apply keeps_dirs_raise].
Qed.

Lemma keeps_dirs_embed_gps_jpg B (p : string) (lat lon : option Float.pyfloat) (ts : json) :
  keeps_dirs (embed_gps_jpg B p lat lon ts).
Proof.
  unfold embed_gps_jpg. destruct lat as [la|]; [|apply keeps_dirs_ret].
  destruct lon as [lo|]; [|apply keeps_dirs_ret].
  apply keeps_dirs_bind; [apply keeps_dirs_convert_timestamp|]. intros tsv.
  apply keeps_dirs_try; [|intros; apply keeps_dirs_print]. cbv zeta.
  apply keeps_dirs_bind; [apply keeps_dirs_lift|]. intros dla.
  apply keeps_dirs_bind; [apply keeps_dirs_lift|]. intros dlo.
  apply keeps_dirs_bind.
  { destruct tsv; [apply keeps_dirs_ret | apply keeps_dirs_ret | apply keeps_dirs_raise]. }
  intros ft. apply keeps_dirs_bind; [apply keeps_dirs_read_file|]. intros c.
  apply keeps_dirs_bind; [|intros; apply keeps_dirs_print].
  destruct (piexif_insert B _ c); [apply keeps_dirs_write_file | apply keeps_dirs_raise].
Qed.

Lemma keeps_dirs_embed_gps_mp4 B (p : string) (lat lon : option Float.pyfloat) (ts : json) :
  keeps_dirs (embed_gps_mp4 B p lat lon ts).
Proof.
  unfold embed_gps_mp4. destruct lat as [la|]; [|apply keeps_dirs_ret].
  destruct lon as [lo|]; [|apply keeps_dirs_ret].
  apply keeps_dirs_bind; [apply keeps_dirs_convert_timestamp|]. intros tsv.
  apply keeps_dirs_try; [|intros; apply keeps_dirs_print]. cbv zeta.
  apply keeps_dirs_bind.
  { destruct tsv; [apply keeps_dirs_ret | apply keeps_dirs_ret | apply keeps_dirs_raise]. }
  intros cmd. apply keeps_dirs_bind; [apply keeps_dirs_print|]. intros _.
  apply keeps_dirs_bind; [apply keeps_dirs_safe_run|]. intros _.
  apply keeps_dirs_os_rename.
Qed.

Lemma keeps_dirs_embed_stage B (entry : json) (outp : option string) (ts : json) :
  keeps_dirs (embed_stage B entry outp ts).
Proof.
  unfold embed_stage, embed_stage_with.
  apply keeps_dirs_bind; [apply keeps_dirs_get_or|]. intros loc.
  apply keeps_dirs_bind; [apply keeps_dirs_lift|]. intros ll.
  apply keeps_dirs_bind.
  { match goal with |- keeps_dirs (if ?b then _ else _) => destruct b end;
      [|apply keeps_dirs_ret].
    apply keeps_dirs_try; [apply keeps_dirs_embed_gps_jpg | intros; apply keeps_dirs_print]. }
  intros _. apply keeps_dirs_bind; [apply keeps_dirs_get_or|]. intros loc2.
  apply keeps_dirs_bind; [apply keeps_dirs_lift|]. intros ll2.
  match goal with |- keeps_dirs (if ?b then _ else _) => destruct b end;
    [|apply keeps_dirs_ret].
  apply keeps_dirs_try; [apply keeps_dirs_embed_gps_mp4 | intros; apply keeps_dirs_print].
Qed.

Lemma keeps_dirs_load_saved_media B (json_path : string) :
  keeps_dirs (load_saved_media B json_path).
Proof.
  unfold load_saved_media. apply keeps_dirs_bind; [apply keeps_dirs_read_file|]. intros c.
  destruct (json_loads B c) as [v|]; [|apply keeps_dirs_raise].
  unfold subscript. destruct v; try apply keeps_dirs_raise.
  destruct (List.find _ d); [apply keeps_dirs_ret | apply keeps_dirs_raise].
Qed.

Lemma keeps_dirs_FindInJSON B (json_path needle : string) :
  keeps_dirs (FindInJSON B json_path needle).
Proof.
  unfold FindInJSON. apply keeps_dirs_bind; [apply keeps_dirs_load_saved_media|].
  intros data. apply keeps_dirs_bind.
  { destruct data; try apply keeps_dirs_raise; apply keeps_dirs_ret. }
  intros l. destruct (List.find _ l); [|apply keeps_dirs_ret].
  apply keeps_dirs_bind; [apply keeps_dirs_print | intros; apply keeps_dirs_ret].
Qed.

Lemma keeps_dirs_compose_leftover B (fuel : nat) (outdir subdir : string) :
  keeps_dirs (compose_leftover B fuel outdir subdir).
Proof.
  unfold compose_leftover. apply keeps_dirs_bind; [apply keeps_dirs_print|]. intros _.
  apply keeps_dirs_bind; [apply keeps_dirs_find_main_and_overlay|]. intros found.
  cbv zeta.
  assert (Hskip : keeps_dirs
            (print ("Could not find main or overlay in " ++ subdir) ≫= fun _ =>
             @ret (option (option string)) None)).
  { apply keeps_dirs_bind; [apply keeps_dirs_print | intros; apply keeps_dirs_ret]. }
  destruct found as [[main|] [overlay|]]; try exact Hskip.
  destruct (Str.truthy main && Str.truthy overlay); [|exact Hskip].
  destruct (in_list (Str.lower (PathLib.suffix main)) image_exts).
  - apply keeps_dirs_bind; [apply keeps_dirs_overlay_image|]. intros _.
    apply keeps_dirs_bind; [apply keeps_dirs_print | intros; apply keeps_dirs_ret].
  - apply keeps_dirs_bind; [apply keeps_dirs_overlay_loop|]. intros _.
    apply keeps_dirs_bind; [apply keeps_dirs_print | intros; apply keeps_dirs_ret].
Qed.

Lemma keeps_dirs_CheckOutputDir (outdir : string) : keeps_dirs (CheckOutputDir outdir).
Proof.
  unfold CheckOutputDir.
  apply keeps_dirs_bind; [apply keeps_dirs_same, iterdir_same|]. intros l.
  apply keeps_dirs_bind; [apply keeps_dirs_same; reflexivity|]. intros f.
  apply keeps_dirs_bind; [apply keeps_dirs_print | intros; apply keeps_dirs_ret].
Qed.

(** X20.  The sweep as [main] starts it, with [noDelete=True]: however it ends
    (it returns, an exception leaves it, or the retry loop is still
    running when the budget is spent), every directory that was there
    before is still a directory. *)
Theorem sweep_without_delete_keeps_directories B (fuel : nat) (outdir : string) :
  keeps_dirs (FixRemaining B fuel outdir true).
Proof.
  unfold FixRemaining.
  apply keeps_dirs_bind; [apply keeps_dirs_CheckOutputDir|]. intros remaining.
  apply keeps_dirs_for_each. intros subdir. unfold fix_one.
  apply keeps_dirs_bind; [apply keeps_dirs_compose_leftover|]. intros r.
  destruct r as [outp|]; [|apply keeps_dirs_ret].
  unfold embed_leftover.
  apply keeps_dirs_bind; [apply keeps_dirs_FindInJSON|]. intros entry.
  apply keeps_dirs_bind; [apply keeps_dirs_get_or|]. intros ts.
  apply keeps_dirs_bind; [apply keeps_dirs_embed_stage | intros; apply keeps_dirs_ret].
Qed.

Lemma sweep_without_delete_keeps_directories_witness :
  fs (FixRemaining sweep_backend 5 "downloaded_media" true w_sweep).2
    !! "downloaded_media/b2_extracted" = Some Dir.
Proof.
  eapply (sweep_without_delete_keeps_directories sweep_backend 5 "downloaded_media" w_sweep).
  - apply surjective_pairing.
  - vm_compute. reflexivity.
Defined.

(** ** [FindInJSON] and [CheckOutputDir] *)

Lemma entry_matches_true (needle : string) (d : list (string * json)) (k s : string) :
  In (k, JStr s) d ->
  Str.contains (Str.lower needle) (Str.lower s) = true ->
  entry_matches needle (JDict d) = true.
Proof.
  intros Hin Hc. cbn [entry_matches]. apply existsb_exists.
  exists (k, JStr s). split; [exact Hin | exact Hc].
Qed.

Lemma find_first_match (needle : string) (l1 l2 : list json) (entry : json) :
  Forall (no_field_contains needle) l1 ->
  entry_matches needle entry = true ->
  List.find (entry_matches needle) (List.app l1 (entry :: l2)) = Some entry.
Proof.
  intros Hall He. induction Hall as [|e l Hn Hl IH]; cbn [List.app List.find].
  - rewrite He. reflexivity.
  - rewrite (entry_matches_false _ _ Hn). exact IH.
Qed.

(** X18.  [FindInJSON] returns the first entry of the list that is a dict with a
    string value containing the search text, letter case aside: the
    entries before it, none of which has such a value, are passed over,
    and no file is touched. *)
Theorem FindInJSON_first_match B (json_path needle : string) (data : json)
    (l1 l2 : list json) (d : list (string * json)) (k s : string) (w : world) :
  load_saved_media B json_path w = (Ret data, w) ->
  iter_json data w = (Ret (List.app l1 (JDict d :: l2)), w) ->
  Forall (no_field_contains needle) l1 ->
  In (k, JStr s) d ->
  Str.contains (Str.lower needle) (Str.lower s) = true ->
  exists w',
    FindInJSON B json_path needle w = (Ret (JDict d), w') /\ fs w' = fs w.
Proof.
  intros Hload Hiter Hall Hin Hc. unfold FindInJSON.
  erewrite bind_ret_eq by exact Hload.
  erewrite bind_ret_eq by exact Hiter.
  rewrite (find_first_match needle l1 l2 (JDict d) Hall (entry_matches_true _ _ _ _ Hin Hc)).
  eexists. split; reflexivity.
Qed.

Lemma FindInJSON_first_match_witness :
  exists w',
    FindInJSON sweep_backend "snap_data.json" "OTHER" w_sweep
    = (Ret (JDict [("Media Download Url", JStr "http://cdn/other.zip");
                   ("Date", JStr "2021-10-06 23:09:21 UTC")]), w')
    /\ fs w' = fs w_sweep.
Proof.
  apply (FindInJSON_first_match sweep_backend "snap_data.json" "OTHER" sweep_manifest
           [] [] _ "Media Download Url" "http://cdn/other.zip" w_sweep).
  - vm_compute. reflexivity.
  - reflexivity.
  - constructor.
  - left. reflexivity.
  - reflexivity.
Defined.

Lemma NoDup_List_filter {A} (f : A -> bool) (l : list A) :
  NoDup l -> NoDup (List.filter f l).
Proof.
  induction 1 as [|x l Hx Hl IH]; cbn [List.filter]; [constructor|].
  destruct (f x); [|exact IH]. constructor; [|exact IH].
  rewrite list_elem_of_In, filter_In. rewrite list_elem_of_In in Hx. tauto.
Qed.

(** The entries of [outdir] that the filter of [CheckOutputDir] keeps. *)
Lemma leftover_filter_In (f : gmap string node) (outdir p : string) :
  In p (List.filter
          (fun p => match f !! p with
                    | Some Dir => Str.endswith (PathLib.name p) "_extracted"
                    | _ => false
                    end)
          (List.filter (fun p => bool_decide (PathLib.parent p = Some outdir))
             (map fst (map_to_list f))))
  <-> PathLib.parent p = Some outdir
      /\ f !! p = Some Dir
      /\ Str.endswith (PathLib.name p) "_extracted" = true.
Proof.
  rewrite !filter_In, in_map_iff. split.
  - intros [[([q n] & Hq & Hin) Hpar] Hn]. cbn [fst] in Hq. subst q.
    apply bool_decide_eq_true in Hpar. split; [exact Hpar|].
    destruct (f !! p) as [[c|]|]; try discriminate. split; [reflexivity | exact Hn].
  - intros (Hpar & Hp & Hn). rewrite Hp. split; [split|exact Hn].
    + exists (p, Dir). split; [reflexivity|].
      apply list_elem_of_In, elem_of_map_to_list. exact Hp.
    + apply bool_decide_eq_true. exact Hpar.
Qed.

(** X17.  [CheckOutputDir] on a directory: it changes no file, and the list it
    returns holds, each once, exactly the paths directly below [outdir]
    that are directories and whose name ends with "_extracted". *)
Theorem CheckOutputDir_lists_leftovers (outdir : string) (w : world) :
  fs w !! outdir = Some Dir ->
  exists l w',
    CheckOutputDir outdir w = (Ret l, w')
    /\ fs w' = fs w
    /\ NoDup l
    /\ forall p, In p l <->
         PathLib.parent p = Some outdir
         /\ fs w !! p = Some Dir
         /\ Str.endswith (PathLib.name p) "_extracted" = true.
Proof.
  intros Hd. unfold CheckOutputDir, iterdir.
  unfold mbind, M_bind, bind, get_fs, mret, M_ret, ret, print. cbn beta iota.
  rewrite Hd. cbn beta iota.
  eexists _, _. split; [reflexivity|]. cbn [fs]. split; [reflexivity|]. split.
  - apply NoDup_List_filter, NoDup_List_filter.
    exact (NoDup_fst_map_to_list (fs w)).
  - intros p. apply leftover_filter_In.
Qed.

Lemma CheckOutputDir_lists_leftovers_witness :
  exists l w',
    CheckOutputDir "downloaded_media" w_sweep = (Ret l, w')
    /\ fs w' = fs w_sweep
    /\ NoDup l
    /\ forall p, In p l <->
         PathLib.parent p = Some "downloaded_media"
         /\ fs w_sweep !! p = Some Dir
         /\ Str.endswith (PathLib.name p) "_extracted" = true.
Proof.
  apply (CheckOutputDir_lists_leftovers "downloaded_media" w_sweep).
  vm_compute. reflexivity.
Defined.

(** ** The scratch directory *)

(** The scratch directory of an archive lies directly below [out_dir] and
    its name ends with "_extracted". *)
Lemma scratch_dir_is_leftover_name (zip_path out_dir : string) :
  PathLib.parent (scratch_dir zip_path out_dir) = Some out_dir
  /\ Str.endswith (PathLib.name (scratch_dir zip_path out_dir)) "_extracted" = true.
Proof.
  unfold scratch_dir.
  destruct (parent_name_join out_dir (PathLib.stem zip_path ++ "_extracted")) as [Hp Hn].
  { rewrite all_chars_append, stem_no_slash. reflexivity. }
  rewrite Hp, Hn. split; [reflexivity | apply endswith_append].
Qed.

(** ** An archive without a main file or without an overlay *)

(** X11.  When the unpacked archive lacks a main file or an overlay,
    [process_zip_file] returns [None]; the archive is gone and the scratch
    directory is still there, and a later [CheckOutputDir] on [out_dir]
    lists it among the leftovers. *)
Theorem archive_without_pair_is_left_for_the_sweep B (fuel : nat)
    (zip_path out_dir : string) (found : option string * option string)
    (w w1 w2 : world) :
  prepare_scratch (scratch_dir zip_path out_dir) w = (Ret tt, w1) ->
  fs w1 !! out_dir = Some Dir ->
  extract_zip B zip_path (scratch_dir zip_path out_dir) w1 = (Ret tt, w2) ->
  find_main_and_overlay (scratch_dir zip_path out_dir) w2 = (Ret found, w2) ->
  found.1 = None \/ found.2 = None ->
  exists w' l w'',
    process_zip_file B fuel zip_path out_dir w = (Ret None, w')
    /\ fs w' !! zip_path = None
    /\ fs w' !! scratch_dir zip_path out_dir = Some Dir
    /\ CheckOutputDir out_dir w' = (Ret l, w'')
    /\ In (scratch_dir zip_path out_dir) l.
Proof.
  intros Hprep Hout He Hfound Hlack.
  destruct (extract_zip_preserves _ _ _ _ _ _ He) as (Hf & Hd & Hz).
  specialize (Hz eq_refl). destruct Hz as [cz Hz].
  pose proof (Hd _ (prepare_scratch_dir _ _ _ Hprep)) as Hdir.
  pose proof (Hd _ Hout) as Hout2.
  destruct (Hf zip_path (ex_intro _ cz Hz)) as [cz2 Hz2].
  set (w3 := World (delete zip_path (fs w2))
               (List.app (stdout w2)
                  ["ERROR: couldn't find main or overlay inside zip: " ++ zip_path])).
  assert (Hrun : process_zip_file B fuel zip_path out_dir w = (Ret None, w3)).
  { unfold process_zip_file. cbv zeta.
    erewrite bind_ret_eq by exact Hprep.
    erewrite bind_ret_eq by exact He.
    erewrite bind_ret_eq by exact Hfound.
    erewrite bind_ret_eq by (apply os_remove_file; exists cz2; exact Hz2).
    unfold merge_extracted.
    destruct found as [[main|] [overlay|]]; cbn [fst snd] in Hlack;
      try reflexivity.
    destruct Hlack; discriminate. }
  assert (Hs3 : fs w3 !! scratch_dir zip_path out_dir = Some Dir).
  { cbn [fs w3]. subst w3. cbn [fs]. rewrite lookup_delete_ne by congruence. exact Hdir. }
  assert (Ho3 : fs w3 !! out_dir = Some Dir).
  { subst w3. cbn [fs]. rewrite lookup_delete_ne by congruence. exact Hout2. }
  assert (Hcheck : exists l w'',
            CheckOutputDir out_dir w3 = (Ret l, w'')
            /\ In (scratch_dir zip_path out_dir) l).
  { unfold CheckOutputDir, iterdir.
    unfold mbind, M_bind, bind, get_fs, mret, M_ret, ret, print. cbn beta iota.
    rewrite Ho3. cbn beta iota.
    eexists _, _. split; [reflexivity|]. apply leftover_filter_In.
    destruct (scratch_dir_is_leftover_name zip_path out_dir) as [Hp Hn]. auto. }
  destruct Hcheck as (l & w'' & Hc & Hl).
  exists w3, l, w''. split; [exact Hrun|]. split.
  { subst w3. cbn [fs]. apply lookup_delete_eq. }
  split; [exact Hs3|]. split; [exact Hc | exact Hl].
Qed.

Lemma archive_without_pair_is_left_for_the_sweep_witness :
  exists w' l w'',
    process_zip_file lone_main_backend 5 "downloaded_media/a.zip" "downloaded_media" w_zip
    = (Ret None, w')
    /\ fs w' !! "downloaded_media/a.zip" = None
    /\ fs w' !! scratch_dir "downloaded_media/a.zip" "downloaded_media" = Some Dir
    /\ CheckOutputDir "downloaded_media" w' = (Ret l, w'')
    /\ In (scratch_dir "downloaded_media/a.zip" "downloaded_media") l.
Proof.
  apply (archive_without_pair_is_left_for_the_sweep lone_main_backend 5
           "downloaded_media/a.zip" "downloaded_media"
           (Some "downloaded_media/a_extracted/s-main.jpg", None)
           w_zip w_zip_scratch w_lone_extracted).
  - vm_compute. reflexivity.
  - vm_compute. reflexivity.
  - vm_compute. reflexivity.
  - vm_compute. reflexivity.
  - right. reflexivity.
Defined.

(** ** [find_main_and_overlay] *)

Lemma classify_cases (acc : option string * option string) (f : string) :
  classify acc f
  = if main_name f then (Some f, acc.2)
    else if overlay_name f then (acc.1, Some f)
    else acc.
Proof.
  unfold classify, main_name, overlay_name, main_name. cbv zeta.
  destruct (is_main_image (Str.lower (PathLib.name f))); [reflexivity|].
  destruct (is_main_video (Str.lower (PathLib.name f))); reflexivity.
Qed.

Lemma fold_classify (l : list string) :
  forall acc : option string * option string,
    let r := fold_left classify l acc in
    (forall f, r.1 = Some f -> (In f l /\ main_name f = true) \/ acc.1 = Some f)
    /\ (forall f, r.2 = Some f -> (In f l /\ overlay_name f = true) \/ acc.2 = Some f)
    /\ (r.1 = None -> acc.1 = None /\ forall f, In f l -> main_name f = false)
    /\ (r.2 = None -> acc.2 = None /\ forall f, In f l -> overlay_name f = false).
Proof.
  induction l as [|x l IH]; intros acc; cbn [fold_left].
  - cbv zeta. repeat split; auto; intros f [].
  - specialize (IH (classify acc x)). cbv zeta in *.
    destruct IH as (H1 & H2 & H3 & H4). rewrite classify_cases in *.
    assert (Hkeep1 : forall a f,
              (In f l /\ main_name f = true) \/ a = Some f ->
              (In f (x :: l) /\ main_name f = true) \/ a = Some f).
    { intros a f [[Hin Hm] | Heq]; [left; split; [right|]; auto | right; exact Heq]. }
    assert (Hkeep2 : forall a f,
              (In f l /\ overlay_name f = true) \/ a = Some f ->
              (In f (x :: l) /\ overlay_name f = true) \/ a = Some f).
    { intros a f [[Hin Hm] | Heq]; [left; split; [right|]; auto | right; exact Heq]. }
    destruct (main_name x) eqn:Em; [|destruct (overlay_name x) eqn:Eo];
      cbn [fst snd] in *; (split; [|split; [|split]]).
    + intros f Hf. destruct (H1 f Hf) as [[Hin Hm] | Heq]; [left; split; [right|]; auto|].
      inversion Heq; subst. left. split; [left; reflexivity | exact Em].
    + intros f Hf. apply Hkeep2, H2, Hf.
    + intros Hn. destruct (H3 Hn) as [Hd _]. discriminate.
    + intros Hn. destruct (H4 Hn) as [Hd Hall]. split; [exact Hd|].
      intros f [<- | Hin]; [|apply Hall; exact Hin].
      unfold overlay_name. rewrite Em. reflexivity.
    + intros f Hf. apply Hkeep1, H1, Hf.
    + intros f Hf. destruct (H2 f Hf) as [[Hin Hm] | Heq]; [left; split; [right|]; auto|].
      inversion Heq; subst. left. split; [left; reflexivity | exact Eo].
    + intros Hn. destruct (H3 Hn) as [Hd Hall]. split; [exact Hd|].
      intros f [<- | Hin]; [exact Em | apply Hall; exact Hin].
    + intros Hn. destruct (H4 Hn) as [Hd _]. discriminate.
    + intros f Hf. apply Hkeep1, H1, Hf.
    + intros f Hf. apply Hkeep2, H2, Hf.
    + intros Hn. destruct (H3 Hn) as [Hd Hall]. split; [exact Hd|].
      intros f [<- | Hin]; [exact Em | apply Hall; exact Hin].
    + intros Hn. destruct (H4 Hn) as [Hd Hall]. split; [exact Hd|].
      intros f [<- | Hin]; [exact Eo | apply Hall; exact Hin].
Qed.

Lemma iterdir_children (d : string) (w w' : world) (l : list string) :
  iterdir d w = (Ret l, w') ->
  w' = w /\ forall f, In f l <-> child_of (fs w) d f.
Proof.
  unfold iterdir, mbind, M_bind, bind, get_fs, mret, M_ret, ret. cbn beta iota.
  destruct (fs w !! d) as [[c|]|]; try discriminate.
  intros H. inversion H; subst. split; [reflexivity|]. intros f.
  rewrite filter_In, in_map_iff. unfold child_of. split.
  - intros [([q n] & Hq & Hin) Hpar]. cbn [fst] in Hq. subst q.
    apply bool_decide_eq_true in Hpar. split; [exact Hpar|].
    apply list_elem_of_In, elem_of_map_to_list in Hin. cbn [fst snd] in Hin.
    rewrite Hin. eexists. reflexivity.
  - intros [Hpar [n Hn]]. split; [|apply bool_decide_eq_true; exact Hpar].
    exists (f, n). split; [reflexivity|].
    apply list_elem_of_In, elem_of_map_to_list. exact Hn.
Qed.

(** What the scan returns lies directly below the directory. *)
Lemma find_main_and_overlay_parents (d : string) (w w' : world) (main overlay : string) :
  find_main_and_overlay d w = (Ret (Some main, Some overlay), w') ->
  PathLib.parent main = Some d /\ PathLib.parent overlay = Some d.
Proof.
  unfold find_main_and_overlay. intros H.
  unfold mbind, M_bind, bind in H.
  destruct (iterdir d w) as [[l| |] w1] eqn:Ei; try discriminate.
  destruct (iterdir_children d w w1 l Ei) as [-> Hl].
  unfold mret, M_ret, ret in H. inversion H as [[Hr Hw]].
  destruct (fold_classify l (None, None)) as (H1 & H2 & _).
  cbv zeta in *. rewrite Hr in *. cbn [fst snd] in *.
  destruct (H1 main eq_refl) as [[Hin _] | Hd]; [|discriminate].
  destruct (H2 overlay eq_refl) as [[Hin2 _] | Hd]; [|discriminate].
  apply Hl in Hin. apply Hl in Hin2. split; [apply Hin | apply Hin2].
Qed.

(** X8.  The scan of a directory.  It touches nothing.  A main file it
    returns is an entry of the directory whose lowered name ends with
    "-main" and one of the eight extensions; an overlay it returns is an
    entry whose lowered name ends with "-overlay.png" and is not a main
    name.  It returns no main file only when no entry has a main name,
    and no overlay only when no entry has an overlay name. *)
Theorem find_main_and_overlay_spec (d : string) (w w' : world)
    (main overlay : option string) :
  find_main_and_overlay d w = (Ret (main, overlay), w') ->
  w' = w
  /\ (forall f, main = Some f -> child_of (fs w) d f /\ main_name f = true)
  /\ (forall f, overlay = Some f -> child_of (fs w) d f /\ overlay_name f = true)
  /\ (main = None -> forall f, child_of (fs w) d f -> main_name f = false)
  /\ (overlay = None -> forall f, child_of (fs w) d f -> overlay_name f = false).
Proof.
  unfold find_main_and_overlay. intros H.
  unfold mbind, M_bind, bind in H.
  destruct (iterdir d w) as [[l| |] w1] eqn:Ei; try discriminate.
  destruct (iterdir_children d w w1 l Ei) as [-> Hl].
  unfold mret, M_ret, ret in H. inversion H as [[Hr Hw]]. subst w'.
  destruct (fold_classify l (None, None)) as (H1 & H2 & H3 & H4).
  cbv zeta in *. rewrite Hr in *. cbn [fst snd] in *.
  split; [reflexivity|]. split; [|split; [|split]].
  - intros f Hf. destruct (H1 f Hf) as [[Hin Hm] | Hd]; [|discriminate].
    split; [apply Hl; exact Hin | exact Hm].
  - intros f Hf. destruct (H2 f Hf) as [[Hin Hm] | Hd]; [|discriminate].
    split; [apply Hl; exact Hin | exact Hm].
  - intros Hn f Hc. apply (H3 Hn). apply Hl. exact Hc.
  - intros Hn f Hc. apply (H4 Hn). apply Hl. exact Hc.
Qed.

Lemma find_main_and_overlay_spec_witness :
  w_sweep = w_sweep
  /\ (forall f, Some "downloaded_media/a1_extracted/s-main.jpg" = Some f ->
        child_of (fs w_sweep) "downloaded_media/a1_extracted" f /\ main_name f = true)
  /\ (forall f, Some "downloaded_media/a1_extracted/s-overlay.png" = Some f ->
        child_of (fs w_sweep) "downloaded_media/a1_extracted" f /\ overlay_name f = true)
  /\ (Some "downloaded_media/a1_extracted/s-main.jpg" = None ->
        forall f, child_of (fs w_sweep) "downloaded_media/a1_extracted" f ->
                  main_name f = false)
  /\ (Some "downloaded_media/a1_extracted/s-overlay.png" = None ->
        forall f, child_of (fs w_sweep) "downloaded_media/a1_extracted" f ->
                  overlay_name f = false).
Proof.
  apply (find_main_and_overlay_spec "downloaded_media/a1_extracted" w_sweep w_sweep
           (Some "downloaded_media/a1_extracted/s-main.jpg")
           (Some "downloaded_media/a1_extracted/s-overlay.png")).
  vm_compute. reflexivity.
Defined.

(** ** The DMS triple: ranges *)

Section Ranges.
Local Open Scope Q_scope.

Lemma Qabs_opp_eq (d : Q) : Qabs (- d) = Qabs d.
Proof. destruct d as [n p]. unfold Qabs, Qopp. cbn [Qnum Qden]. rewrite Z.abs_opp. reflexivity. Qed.

Lemma Qfloor_nonneg (q : Q) : 0 <= q -> (0 <= Qfloor q)%Z.
Proof. intros H. change 0%Z with (Qfloor 0). apply Qfloor_resp_le. exact H. Qed.

Lemma Qfloor_below (q : Q) (n : Z) : q < inject_Z (n + 1) -> (Qfloor q <= n)%Z.
Proof.
  intros H. pose proof (Qfloor_le q) as Hle.
  assert (Hlt : inject_Z (Qfloor q) < inject_Z (n + 1)) by lra.
  rewrite <- Zlt_Qlt in Hlt. lia.
Qed.

(** X4.  The three numerators: the degrees are the whole part of the absolute
    value, the minutes lie between 0 and 60 and the hundredths of a second
    between 0 and 6000; none is negative, so the sign of the input is in
    none of them. *)
Theorem deg_to_dms_ranges (d : Q) :
  exists deg mi se : Z,
    deg_to_dms_rational (Float.Fin d) = inr ((deg, 1%Z), (mi, 1%Z), (se, 100%Z))
    /\ deg = Qfloor (Qabs d)
    /\ (0 <= deg)%Z /\ (0 <= mi <= 60)%Z /\ (0 <= se <= 6000)%Z
    /\ deg_to_dms_rational (Float.Fin (- d)) = deg_to_dms_rational (Float.Fin d).
Proof.
  unfold deg_to_dms_rational, deg_to_dms_fin, int_of_float. rewrite Qabs_opp_eq.
  set (a := Qabs d).
  assert (Ha : 0 <= a) by apply Qabs_nonneg.
  destruct (frac_bounds a) as [Hf0 Hf1].
  set (f := a - inject_Z (Qfloor a)) in *.
  destruct (rnd_bound f Hf0) as (Hx0 & _ & Hx1).
  set (x1 := Float.rnd f) in *.
  assert (Hy0 : 0 <= x1 * 60) by lra.
  destruct (rnd_bound (x1 * 60) Hy0) as (Hm0 & _ & Hm1).
  set (mf := Float.rnd (x1 * 60)) in *.
  destruct (frac_bounds mf) as [Hg0 Hg1].
  set (g := mf - inject_Z (Qfloor mf)) in *.
  destruct (rnd_bound g Hg0) as (Hs0 & _ & Hs1).
  set (s1 := Float.rnd g) in *.
  assert (Ht0 : 0 <= s1 * 60) by lra.
  destruct (rnd_bound (s1 * 60) Ht0) as (Hs20 & _ & Hs21).
  set (s2 := Float.rnd (s1 * 60)) in *.
  assert (Hu0 : 0 <= s2 * 100) by lra.
  destruct (rnd_bound (s2 * 100) Hu0) as (Hs30 & _ & Hs31).
  set (s3 := Float.rnd (s2 * 100)) in *.
  destruct (round_half_even_bound s3) as [_ Hr].
  pose proof (round_half_even_nonneg s3 Hs30) as Hr0.
  eexists _, _, _. split; [reflexivity|]. split; [reflexivity|].
  clearbody f x1 mf g s1 s2 s3. unfold u53, tiny in *.
  split; [apply Qfloor_nonneg; exact Ha|]. split; [split|split; [split|reflexivity]].
  - apply Qfloor_nonneg. exact Hm0.
  - apply Qfloor_below. change (inject_Z (60 + 1)) with (61 # 1). lra.
  - exact Hr0.
  - assert (Hlt : inject_Z (Float.round_half_even s3) < inject_Z 6001)
      by (change (inject_Z 6001) with (6001 # 1); lra).
    rewrite <- Zlt_Qlt in Hlt. lia.
Qed.

End Ranges.

(** Sixty seconds are reached: 0.99999999 degrees come out as 0 degrees,
    59 minutes and 6000 hundredths of a second. *)
Example deg_to_dms_sixty_seconds :
  deg_to_dms_rational (py_float "0.99999999")
  = inr ((0, 1), (59, 1), (6000, 100))%Z.
Proof. vm_compute. reflexivity. Qed.

(** ** The archive step on images: what is left when it returns *)

Lemma rmtree_dir (d : string) (w : world) :
  fs w !! d = Some Dir ->
  rmtree d w
  = (Ret tt,
     World (filter (fun kv => negb (under d kv.1) = true) (delete d (fs w))) (stdout w)).
Proof.
  intros H. unfold rmtree, mbind, M_bind, bind, get_fs, set_fs. cbn beta iota.
  rewrite H. reflexivity.
Qed.

Lemma overlay_image_ok B (m o out : string) (cm co c : content) (w : world) :
  fs w !! m = Some (File cm) ->
  fs w !! o = Some (File co) ->
  pil_composite B cm co = Some c ->
  fs w !! out <> Some Dir ->
  overlay_image B m o out w = (Ret tt, World (<[out := File c]> (fs w)) (stdout w)).
Proof.
  intros Hm Ho Hc Hd. unfold overlay_image.
  erewrite bind_ret_eq
    by (unfold read_file, mbind, M_bind, bind, get_fs; cbn beta iota; rewrite Hm; reflexivity).
  erewrite bind_ret_eq
    by (unfold try_catch, read_file, mbind, M_bind, bind, get_fs; cbn beta iota;
        rewrite Ho; reflexivity).
  rewrite Hc. destruct (write_file_outcome out c w) as [[Hx _] | [_ Hw]]; [congruence|].
  exact Hw.
Qed.

Lemma parent_truthy (p d : string) : PathLib.parent p = Some d -> Str.truthy p = true.
Proof. destruct p; [discriminate | reflexivity]. Qed.

Lemma prefix_append_common (a x y : string) :
  String.prefix (a ++ x) (a ++ y) = String.prefix x y.
Proof.
  induction a as [|c a IH]; [reflexivity|].
  rewrite !append_cons. cbn [String.prefix].
  destruct (ascii_dec c c); [exact IH | congruence].
Qed.

(** The merged output does not lie below the scratch directory. *)
Lemma merged_path_not_under_scratch (zip_path out_dir ext : string) :
  under (scratch_dir zip_path out_dir) (merged_path zip_path out_dir ext) = false.
Proof.
  unfold under, scratch_dir, merged_path, PathLib.join.
  replace ((out_dir ++ "/" ++ PathLib.stem zip_path ++ "_extracted") ++ "/")
    with ((out_dir ++ "/" ++ PathLib.stem zip_path) ++ "_extracted/")
    by (rewrite !append_assoc; reflexivity).
  replace ((out_dir ++ "/" ++ PathLib.stem zip_path ++ "_merged") ++ ext)
    with ((out_dir ++ "/" ++ PathLib.stem zip_path) ++ "_merged" ++ ext)
    by (rewrite !append_assoc; reflexivity).
  rewrite prefix_append_common. reflexivity.
Qed.

(** The stem of the merged image is the stem of the archive followed by
    "_merged": the two paths differ. *)
Lemma merged_jpg_is_not_the_archive (zip_path out_dir : string) :
  merged_path zip_path out_dir ".jpg" <> zip_path.
Proof.
  intros Heq.
  assert (Hstem : PathLib.stem (merged_path zip_path out_dir ".jpg")
                  = PathLib.stem zip_path ++ "_merged").
  { unfold merged_path.
    set (S := PathLib.stem zip_path).
    assert (Hn : PathLib.name (PathLib.join out_dir (S ++ "_merged") ++ ".jpg")
                 = (S ++ "_merged") ++ ".jpg").
    { unfold PathLib.join. rewrite !append_assoc.
      rewrite <- (append_assoc S "_merged" ".jpg").
      apply (parent_name_join out_dir ((S ++ "_merged") ++ ".jpg")).
      rewrite !all_chars_append. unfold S. rewrite stem_no_slash. reflexivity. }
    unfold PathLib.stem. cbv zeta. rewrite Hn.
    change ((S ++ "_merged") ++ ".jpg") with ((S ++ "_merged") ++ String "." "jpg").
    rewrite (rfind_char_append_sep "." (S ++ "_merged") "jpg" eq_refl).
    rewrite !length_append. cbn [String.length].
    replace ((0 <? String.length S + 7)%nat) with true
      by (symmetry; apply Nat.ltb_lt; lia).
    replace ((String.length S + 7 <? String.length S + 7 + 4 - 1)%nat) with true
      by (symmetry; apply Nat.ltb_lt; lia).
    cbn [andb].
    replace (String.length S + 7)%nat with (String.length (S ++ "_merged"))
      by (rewrite length_append; reflexivity).
    apply take_length_append. }
  rewrite Heq in Hstem. symmetry in Hstem.
  exact (append_neq_self (PathLib.stem zip_path) "_merged" ltac:(discriminate) Hstem).
Qed.

(** X10.  [process_zip_file] on an archive whose main file is an image, when
    the scratch directory is ready, the extraction returns, the scan finds
    both files and Pillow composes them: the function returns the path
    [out_dir/<stem>_merged.jpg], which holds the composite; the archive
    is gone, and so is the scratch directory with all that lay below
    it. *)
Theorem process_zip_file_image_merged B (fuel : nat) (zip_path out_dir main overlay : string)
    (cm co c : content) (w w1 w2 : world) :
  prepare_scratch (scratch_dir zip_path out_dir) w = (Ret tt, w1) ->
  extract_zip B zip_path (scratch_dir zip_path out_dir) w1 = (Ret tt, w2) ->
  find_main_and_overlay (scratch_dir zip_path out_dir) w2
  = (Ret (Some main, Some overlay), w2) ->
  in_list (Str.lower (PathLib.suffix main)) image_exts = true ->
  delete zip_path (fs w2) !! main = Some (File cm) ->
  delete zip_path (fs w2) !! overlay = Some (File co) ->
  pil_composite B cm co = Some c ->
  fs w2 !! merged_path zip_path out_dir ".jpg" <> Some Dir ->
  exists w',
    process_zip_file B fuel zip_path out_dir w
    = (Ret (Some (merged_path zip_path out_dir ".jpg")), w')
    /\ fs w' !! merged_path zip_path out_dir ".jpg" = Some (File c)
    /\ fs w' !! zip_path = None
    /\ fs w' !! scratch_dir zip_path out_dir = None
    /\ forall p, under (scratch_dir zip_path out_dir) p = true -> fs w' !! p = None.
Proof.
  intros Hprep He Hfound Hext Hm Ho Hc Hout.
  destruct (extract_zip_preserves _ _ _ _ _ _ He) as (Hf & Hd & Hz).
  specialize (Hz eq_refl).
  pose proof (Hd _ (prepare_scratch_dir _ _ _ Hprep)) as Hdir.
  pose proof (Hf _ Hz) as [cz Hz2].
  destruct (find_main_and_overlay_parents _ _ _ _ _ Hfound) as [Hpm Hpo].
  apply parent_truthy in Hpm. apply parent_truthy in Hpo.
  set (out := merged_path zip_path out_dir ".jpg") in *.
  set (sd := scratch_dir zip_path out_dir) in *.
  assert (Hne : out <> zip_path) by apply merged_jpg_is_not_the_archive.
  assert (Hsz : sd <> zip_path) by congruence.
  assert (Hso : sd <> out) by congruence.
  set (f3 := delete zip_path (fs w2)).
  assert (Hout3 : f3 !! out <> Some Dir).
  { unfold f3. rewrite lookup_delete_ne by congruence. exact Hout. }
  set (f4 := <[out := File c]> f3).
  assert (Hdir4 : f4 !! sd = Some Dir).
  { unfold f4, f3. rewrite lookup_insert_ne by congruence.
    rewrite lookup_delete_ne by congruence. exact Hdir. }
  exists (World (filter (fun kv => negb (under sd kv.1) = true) (delete sd f4)) (stdout w2)).
  split.
  { unfold process_zip_file. cbv zeta. fold sd.
    erewrite bind_ret_eq by exact Hprep.
    erewrite bind_ret_eq by exact He.
    erewrite bind_ret_eq by exact Hfound.
    erewrite bind_ret_eq by (apply os_remove_file; exists cz; exact Hz2).
    unfold merge_extracted. rewrite Hpm, Hpo, Hext. cbn [andb].
    fold (merged_path zip_path out_dir ".jpg"). fold out.
    erewrite bind_ret_eq
      by (apply (overlay_image_ok B main overlay out cm co c); cbn [fs]; assumption).
    erewrite bind_ret_eq by (apply rmtree_dir; cbn [fs]; exact Hdir4).
    reflexivity. }
  cbn [fs]. split; [|split; [|split]].
  - apply map_lookup_filter_Some. split.
    + rewrite lookup_delete_ne by congruence. unfold f4. apply lookup_insert_eq.
    + cbn [fst]. unfold out, sd. rewrite merged_path_not_under_scratch. reflexivity.
  - apply map_lookup_filter_None. left.
    rewrite lookup_delete_ne by congruence. unfold f4.
    rewrite lookup_insert_ne by congruence. unfold f3. apply lookup_delete_eq.
  - apply map_lookup_filter_None. left. apply lookup_delete_eq.
  - intros p Hp. apply map_lookup_filter_None. right. intros x _.
    cbn [fst]. rewrite Hp. cbn [negb]. discriminate.
Qed.

Lemma process_zip_file_image_merged_witness :
  exists w',
    process_zip_file zip_backend 5 "downloaded_media/a.zip" "downloaded_media" w_zip
    = (Ret (Some (merged_path "downloaded_media/a.zip" "downloaded_media" ".jpg")), w')
    /\ fs w' !! merged_path "downloaded_media/a.zip" "downloaded_media" ".jpg"
       = Some (File "merged main overlay")
    /\ fs w' !! "downloaded_media/a.zip" = None
    /\ fs w' !! scratch_dir "downloaded_media/a.zip" "downloaded_media" = None
    /\ forall p, under (scratch_dir "downloaded_media/a.zip" "downloaded_media") p = true ->
                 fs w' !! p = None.
Proof.
  apply (process_zip_file_image_merged zip_backend 5 "downloaded_media/a.zip"
           "downloaded_media" "downloaded_media/a_extracted/s-main.jpg"
           "downloaded_media/a_extracted/s-overlay.png" "main" "overlay"
           "merged main overlay" w_zip w_zip_scratch w_zip_extracted).
  - vm_compute. reflexivity.
  - vm_compute. reflexivity.
  - vm_compute. reflexivity.
  - reflexivity.
  - vm_compute. reflexivity.
  - vm_compute. reflexivity.
  - reflexivity.
  - vm_compute. discriminate.
Defined.

(** ** The ways out of the retry loop *)

Lemma FixOverlayImage_fails B (overlay : string) (w : world) :
  (forall c, fs w !! overlay = Some (File c) -> pil_rgba_png B c = None) ->
  exists e, FixOverlayImage B overlay w = (Exc e, w).
Proof.
  intros H. unfold FixOverlayImage, read_file, write_file. run.
  destruct (fs w !! overlay) as [[c|]|] eqn:E.
  - rewrite (H c eq_refl). eexists. reflexivity.
  - eexists. reflexivity.
  - eexists. reflexivity.
Qed.

(** X6.  [ffmpeg_overlay_video] on an output path that is no directory.  When
    the first run of ffmpeg exits with status 0, the function returns
    after that one run, with what ffmpeg wrote at the output path.  When
    the first run exits with an error and the overlay, a path other than
    the output, cannot be re-encoded (it is missing, or Pillow does not
    decode it), the exception of the repair, raised inside the [except]
    block, leaves the function after that one run; the only path that may
    have changed is the output, which holds what ffmpeg had written of it,
    if anything. *)
Theorem ffmpeg_overlay_video_exits B (n : nat) (main_vid overlay out_vid : string)
    (w : world) :
  fs w !! out_vid <> Some Dir ->
  (forall c,
      ffmpeg B (overlay_cmd main_vid overlay out_vid) (fs w) = Exit0 c ->
      exists w',
        ffmpeg_overlay_video B (S n) main_vid overlay out_vid w = (Ret tt, w')
        /\ fs w' = <[out_vid := File c]> (fs w)
        /\ attempts (stdout w') = (attempts (stdout w) + 1)%nat)
  /\ (forall partial,
        ffmpeg B (overlay_cmd main_vid overlay out_vid) (fs w) = ExitFail partial ->
        overlay <> out_vid ->
        (forall c, fs w !! overlay = Some (File c) -> pil_rgba_png B c = None) ->
        exists e w',
          ffmpeg_overlay_video B (S n) main_vid overlay out_vid w = (Exc e, w')
          /\ fs w' = match partial with
                     | Some c => <[out_vid := File c]> (fs w)
                     | None => fs w
                     end
          /\ attempts (stdout w') = (attempts (stdout w) + 1)%nat).
Proof.
  intros Hd. split.
  - intros c Hf. unfold ffmpeg_overlay_video. cbn [overlay_loop].
    change (0 <? AllowedAttemps)%Z with true. cbn iota. unfold try_catch.
    rewrite (safe_run_exit0 B _ c w Hf) by exact Hd.
    eexists. split; [reflexivity|]. cbn [fs stdout]. split; [reflexivity|].
    rewrite attempts_app, (attempts_cons_run _ _), attempts_nil. reflexivity.
  - intros partial Hf Hne Hfix. unfold ffmpeg_overlay_video. cbn [overlay_loop].
    change (0 <? AllowedAttemps)%Z with true. cbn iota. unfold try_catch.
    rewrite (safe_run_exitfail B _ partial w Hf) by exact Hd.
    cbv beta iota. rewrite !bind_print. cbn [fs stdout].
    change (List.last (overlay_cmd main_vid overlay out_vid) EmptyString) with out_vid.
    match goal with |- context [(FixOverlayImage B overlay ≫= _) ?w0] =>
      destruct (FixOverlayImage_fails B overlay w0) as [e He]
    end.
    { cbn [fs]. intros c Hc. apply Hfix.
      destruct partial; [rewrite lookup_insert_ne in Hc by auto|]; exact Hc. }
    erewrite bind_exc_eq by exact He.
    eexists e, _. split; [reflexivity|]. cbn [fs stdout]. split; [reflexivity|].
    rewrite <- !List.app_assoc. cbn [List.app].
    rewrite attempts_app, (attempts_cons_run _ _), !attempts_cons_other, attempts_nil
      by reflexivity.
    reflexivity.
Qed.

Lemma ffmpeg_overlay_video_exits_witness :
  exists e w',
    ffmpeg_overlay_video partial_ffmpeg_backend 3 "d/v-main.mp4" "d/v-overlay.png"
      "d/v_merged.mp4" w_video
    = (Exc e, w')
    /\ fs w' = match Some "half a video" with
               | Some c => <["d/v_merged.mp4" := File c]> (fs w_video)
               | None => fs w_video
               end
    /\ attempts (stdout w') = (attempts (stdout w_video) + 1)%nat.
Proof.
  refine (proj2 (ffmpeg_overlay_video_exits partial_ffmpeg_backend 2 "d/v-main.mp4"
                   "d/v-overlay.png" "d/v_merged.mp4" w_video _)
            (Some "half a video") _ _ _).
  - vm_compute. discriminate.
  - reflexivity.
  - discriminate.
  - intros c _. reflexivity.
Defined.

(** ** A plain download *)






(** ** The metadata stage never aborts the batch *)

Lemma try_print_unit_not_exc (m : M unit) (line : exn -> string) (w : world) (e : exn) :
  (try_catch m (fun e1 => print (line e1)) w).1 <> Exc e.
Proof.
  unfold try_catch. destruct (m w) as [[a|e1|] w1]; cbn [fst]; discriminate.
Qed.

(** X21.  For an entry that is a dict and whose location value
    [parse_latlon] accepts, no exception leaves the metadata stage
    (lines 354-368), whatever the output path, the timestamp and the
    files: what the embedders raise, the [ValueError] of a date that
    [strptime] rejects included, is caught by the [try] around each
    call. *)
Theorem embed_stage_never_raises B (d : list (string * json)) (outp : option string)
    (ts : json) (ll : latlon) (w : world) (e : exn) :
  parse_latlon (location_field d) = inr ll ->
  (embed_stage B (JDict d) outp ts w).1 <> Exc e.
Proof.
  intros Hl. unfold embed_stage, embed_stage_with.
  erewrite bind_ret_eq by apply get_or_dict.
  fold (location_field d). rewrite Hl.
  erewrite bind_ret_eq by reflexivity.
  set (stage2 :=
         fun w1 : world =>
           (loc ← get_or (JDict d) "Location" "location" (JStr EmptyString);
            ll0 ← lift (parse_latlon loc);
            if truthy_path outp
               && Str.endswith (Str.lower (path_text outp)) ".mp4"
               && has_location ll0
            then try_catch (embed_gps_mp4 B (path_text outp) ll0.1 ll0.2 ts)
                   (fun e0 => print ("Failed to embed GPS: " ++ exn_text e0))
            else ret tt) w1).
  assert (H2 : forall w1, (stage2 w1).1 <> Exc e).
  { intros w1. unfold stage2.
    erewrite bind_ret_eq by apply get_or_dict.
    fold (location_field d). rewrite Hl.
    erewrite bind_ret_eq by reflexivity.
    destruct (truthy_path outp && Str.endswith (Str.lower (path_text outp)) ".mp4"
              && has_location ll); [|discriminate].
    apply try_print_unit_not_exc. }
  match goal with |- ((?m ≫= _) w).1 <> _ =>
    destruct (m w) as [[[]|e1|] w1] eqn:E1
  end.
  - erewrite bind_ret_eq by exact E1. apply H2.
  - exfalso. revert E1.
    destruct (truthy_path outp
              && (Str.endswith (Str.lower (path_text outp)) ".jpg"
                  || Str.endswith (Str.lower (path_text outp)) ".jpeg")
              && has_location ll); [|discriminate].
    intros E1.
    pose proof (try_print_unit_not_exc
                  (embed_gps_jpg B (path_text outp) ll.1 ll.2 ts)
                  (fun e0 => "Failed to embed GPS: " ++ exn_text e0) w e1) as Hn.
    cbv beta in Hn. rewrite E1 in Hn. apply Hn. reflexivity.
  - unfold mbind, M_bind, bind. rewrite E1. discriminate.
Qed.

Lemma embed_stage_never_raises_witness :
  (embed_stage quiet_backend
     (JDict [("Location", JStr "Latitude, Longitude: 51.5074, -0.1278")])
     (Some "downloaded_media/a_merged.jpg") (JStr "yesterday at noon") w_c9).1
  <> Exc ValueError.
Proof.
  apply (embed_stage_never_raises quiet_backend
           [("Location", JStr "Latitude, Longitude: 51.5074, -0.1278")]
           (Some "downloaded_media/a_merged.jpg") (JStr "yesterday at noon")
           (Some (py_float "51.5074"), Some (py_float "-0.1278")) w_c9 ValueError).
  vm_compute. reflexivity.
Defined.

(** ** The rename step in the loop *)



(** The whole of [process_json] on a manifest with that one entry: the
    download ends up under the new name and the closing line is printed. *)
Example process_json_renames_output :
  let r := process_json dated_backend 5 "snap_data.json" "downloaded_media" w_c2 in
  r.1 = Ret tt
  /\ fs r.2 !! "downloaded_media/2021-10-06_23-09-21_b.jpg"
     = Some (File "bytes of http://cdn/b.jpg")
  /\ fs r.2 !! "downloaded_media/b.jpg" = None
  /\ List.last (stdout r.2) EmptyString = "ALL DONE.".
Proof. cbv zeta. repeat split; vm_compute; reflexivity. Qed.
